(** * pycvcam_viz: the Zernike distortion visualizer

    A shallow embedding of
    [src/pycvcam_viz/visualizers/zernike_distortion_visualizer.py]:
    the chart routine [plot_bar_chart], the helper [truncate_filename],
    and the file-management handlers of [DropWidget] and
    [ZernikeDistortionVisualizerUI].

    Conventions of the embedding.
    - Python [int] is [Z]; [range], [%] and [max] are written out.
    - A Python [str] is a [string], one [ascii] for each character: the
      embedding covers the strings whose characters have code points
      below 256, and [len] and slicing count characters as Python does.
      A character beyond that has no counterpart here.
    - numpy float arrays are lists of exact rationals [Q]: the chart
      arithmetic is the real-number reading of the float code.
    - Python objects whose dynamic type is inspected by [isinstance]
      are values of [pyval].
    - A mutated object is threaded as explicit state: the canvas through
      the [Plot] monad, the window through functions [UI -> UI].
    - [pycvcam], PyQt5 and matplotlib are external: only the attributes
      and calls the source uses are modelled. *)

From Stdlib Require Import Ascii QArith Qabs Lqa.
From stdpp Require Import gmap strings list list_numbers sorting pretty.

Local Open Scope Z_scope.
Local Set Warnings "-register-all,-clear-no-such-hyp".

(** ** External collaborators *)

(** What the source reads from a [pycvcam.ZernikeDistortion] whose order
    and coefficients are set: an integer and two arrays. A distortion
    created without them holds [None] instead, on which lines 62 to 73
    raise [TypeError]; it is not a value of this record, and whatever is
    stated below about distortions is stated about those that are set. *)
Record ZernikeDistortion : Type := {
  Nzer : Z;
  parameters_x : list Q;
  parameters_y : list Q
}.

(** One call of [Axes.bar]: the matplotlib bar container it creates. *)
Record BarContainer : Type := {
  bar_x : list Q;
  bar_height : list Q;
  bar_width : Q;
  bar_label : string;
  bar_color : Q
}.

(** The part of a matplotlib [Axes] the source writes. *)
Record Axes : Type := {
  bars : list BarContainer;
  xticks : list Q;
  xticklabels : list string;
  xtick_rotation : Z;
  title : string;
  legend : bool;
  grid : bool
}.

(** [class MplCanvas(FigureCanvas)]: one axes, and the number of [draw]
    calls issued so far. *)
Record MplCanvas : Type := {
  axes : Axes;
  draws : nat
}.

Inductive exn : Type :=
  | ValueError (msg : string)
  | IndexError (msg : string)
  | Exception (msg : string).

(** Dynamically typed arguments, as [isinstance] sees them. *)
Inductive pyval : Type :=
  | PyNone
  | PyBool (b : bool)
  | PyInt (z : Z)
  | PyStr (s : string)
  | PyList (l : list pyval)
  | PyZernike (d : ZernikeDistortion)
  | PyCanvas (cv : MplCanvas).

Definition empty_axes : Axes :=
  {| bars := []; xticks := []; xticklabels := []; xtick_rotation := 0;
     title := ""; legend := false; grid := false |}.

(** [MplCanvas.__init__]: a fresh figure with one empty subplot. *)
Definition new_canvas : MplCanvas := {| axes := empty_axes; draws := 0 |}.

(** ** The canvas monad: state of the canvas object, plus exceptions.
    The state component survives an exception, as a Python mutation does. *)

Definition Plot (A : Type) : Type := MplCanvas → (exn + A) * MplCanvas.

Definition plot_ret {A} (a : A) : Plot A := λ cv, (inr a, cv).
Definition plot_bind {A B} (m : Plot A) (k : A → Plot B) : Plot B :=
  λ cv, match m cv with
        | (inr a, cv') => k a cv'
        | (inl e, cv') => (inl e, cv')
        end.
Definition plot_lift {A} (r : exn + A) : Plot A := λ cv, (r, cv).

Declare Scope plot_scope.
Delimit Scope plot_scope with plot.
Notation "x <- m ;; k" := (plot_bind m (λ x, k))
  (at level 100, m at next level, right associativity) : plot_scope.
Notation "m ;;; k" := (plot_bind m (λ _, k))
  (at level 100, right associativity) : plot_scope.

Definition with_axes (f : Axes → Axes) : Plot unit :=
  λ cv, (inr tt, {| axes := f (axes cv); draws := draws cv |}).

(** [axes.clear()] *)
Definition axes_clear : Plot unit := with_axes (λ _, empty_axes).

(** [axes.bar(x, height, width=, label=, color=)] *)
Definition axes_bar (b : BarContainer) : Plot unit :=
  with_axes (λ ax,
    {| bars := bars ax ++ [b]; xticks := xticks ax;
       xticklabels := xticklabels ax; xtick_rotation := xtick_rotation ax;
       title := title ax; legend := legend ax; grid := grid ax |}).

(** [axes.set_xticks(x)] *)
Definition axes_set_xticks (x : list Q) : Plot unit :=
  with_axes (λ ax,
    {| bars := bars ax; xticks := x;
       xticklabels := xticklabels ax; xtick_rotation := xtick_rotation ax;
       title := title ax; legend := legend ax; grid := grid ax |}).

(** [axes.set_xticklabels(labels, rotation=)] *)
Definition axes_set_xticklabels (l : list string) (rotation : Z) : Plot unit :=
  with_axes (λ ax,
    {| bars := bars ax; xticks := xticks ax;
       xticklabels := l; xtick_rotation := rotation;
       title := title ax; legend := legend ax; grid := grid ax |}).

(** [axes.set_title(t)] *)
Definition axes_set_title (t : string) : Plot unit :=
  with_axes (λ ax,
    {| bars := bars ax; xticks := xticks ax;
       xticklabels := xticklabels ax; xtick_rotation := xtick_rotation ax;
       title := t; legend := legend ax; grid := grid ax |}).

(** [axes.legend()] *)
Definition axes_legend : Plot unit :=
  with_axes (λ ax,
    {| bars := bars ax; xticks := xticks ax;
       xticklabels := xticklabels ax; xtick_rotation := xtick_rotation ax;
       title := title ax; legend := true; grid := grid ax |}).

(** [axes.grid(True, ...)] *)
Definition axes_grid : Plot unit :=
  with_axes (λ ax,
    {| bars := bars ax; xticks := xticks ax;
       xticklabels := xticklabels ax; xtick_rotation := xtick_rotation ax;
       title := title ax; legend := legend ax; grid := true |}).

(** [mpl_canvas.draw()] *)
Definition canvas_draw : Plot unit :=
  λ cv, (inr tt, {| axes := axes cv; draws := S (draws cv) |}).

(** ** Python and numpy primitives *)

(** [range(start, stop)] *)
Definition range (start stop : Z) : list Z := seqZ start (stop - start).

(** [max(iterable)]: raises [ValueError] on an empty iterable. *)
Definition py_max (l : list Z) : exn + Z :=
  match l with
  | [] => inl (ValueError "max() arg is an empty sequence")
  | z :: l' => inr (foldl Z.max z l')
  end.

(** [numpy.arange(n)] *)
Definition numpy_arange (n : nat) : list Q := inject_Z <$> seqZ 0 (Z.of_nat n).

(** [numpy.zeros(n)]: a negative dimension is a [ValueError]. *)
Definition numpy_zeros (n : Z) : exn + list Q :=
  if n <? 0 then inl (ValueError "negative dimensions are not allowed")
  else inr (replicate (Z.to_nat n) 0%Q).

(** [numpy.abs] *)
Definition numpy_abs (a : list Q) : list Q := Qabs <$> a.

(** [seq[i]] *)
Definition py_index {A} (l : list A) (i : nat) : exn + A :=
  match l !! i with
  | Some a => inr a
  | None => inl (IndexError "list index out of range")
  end.

(** [for i, x in enumerate(xs): body(i, x)], counting from [i]. *)
Fixpoint for_enumerate {A} (i : nat) (xs : list A) (body : nat → A → Plot unit)
  : Plot unit :=
  match xs with
  | [] => plot_ret tt
  | x :: xs' => plot_bind (body i x) (λ _, for_enumerate (S i) xs' body)
  end.

(** ** [plot_bar_chart] *)

(** The f-string [f"C{mode}({n}, {m})"]. *)
Definition fmt_ticklabel (mode : string) (n m : Z) : string :=
  "C" +:+ mode +:+ "(" +:+ pretty n +:+ ", " +:+ pretty m +:+ ")".

(** The comprehension of line 65, before formatting: the pairs [(n, m)]
    in the order the two [for] clauses produce them. *)
Definition tick_indices (Nzer : Z) : list (Z * Z) :=
  n ← range 0 (Nzer + 1);
  m ← range (- n) (n + 1);
  if (n + m) `mod` 2 =? 0 then [(n, m)] else [].

(** [ticklabels = [f"C{mode}({n}, {m})" for n in range(Nzer + 1)
                   for m in range(-n, n + 1) if (n + m) % 2 == 0]] *)
Definition ticklabels (mode : string) (Nzer : Z) : list string :=
  n ← range 0 (Nzer + 1);
  m ← range (- n) (n + 1);
  if (n + m) `mod` 2 =? 0 then [fmt_ticklabel mode n m] else [].

(** [x_width = 0.8 / len(distortions)] *)
Definition x_width (k : nat) : Q := (0.8 / inject_Z (Z.of_nat k))%Q.

(** [x_shift = -0.4 + x_width / 2] *)
Definition x_shift (k : nat) : Q := (- 0.4 + x_width k / 2)%Q.

(** The body of the [for i, distortion in enumerate(distortions)] loop. *)
Definition plot_one (k : nat) (tl : list string) (x : list Q)
    (labels : list string) (mode : string) (absolute : bool)
    (i : nat) (distortion : ZernikeDistortion) : Plot unit :=
  (let parameters :=
     if String.eqb mode "x" then parameters_x distortion
     else parameters_y distortion in
   pad <- plot_lift (numpy_zeros (Z.of_nat (length tl) - Z.of_nat (length parameters)));;
   let parameters := parameters ++ pad in
   let parameters := if absolute then numpy_abs parameters else parameters in
   label <- plot_lift (py_index labels i);;
   axes_bar
     {| bar_x := (λ xj, xj + x_shift k + inject_Z (Z.of_nat i) * x_width k)%Q <$> x;
        bar_height := parameters;
        bar_width := x_width k;
        bar_label := label;
        bar_color := (inject_Z (Z.of_nat i) / inject_Z (Z.of_nat k))%Q |})%plot.

(** Lines 58 to 83: everything after the input checks. *)
Definition render (distortions : list ZernikeDistortion) (labels : list string)
    (mode : string) (absolute : bool) : Plot unit :=
  (axes_clear;;;
   Nzer <- plot_lift (py_max (Nzer <$> distortions));;
   let tl := ticklabels mode Nzer in
   let x := numpy_arange (length tl) in
   let k := length distortions in
   for_enumerate 0 distortions (plot_one k tl x labels mode absolute);;;
   axes_set_xticks x;;;
   axes_set_xticklabels tl 75;;;
   axes_set_title ("Zernike Coefficients [" +:+ mode +:+ "-axis]");;;
   axes_legend;;;
   axes_grid;;;
   canvas_draw)%plot.

(** [isinstance] tests and the typed views they justify. *)
Definition is_canvas (v : pyval) : bool :=
  match v with PyCanvas _ => true | _ => false end.
Definition is_list (v : pyval) : bool :=
  match v with PyList _ => true | _ => false end.
Definition is_zernike (v : pyval) : bool :=
  match v with PyZernike _ => true | _ => false end.
Definition is_str (v : pyval) : bool :=
  match v with PyStr _ => true | _ => false end.

(** [len(v)] and iteration over [v], for a value already known to be a
    list. *)
Definition elems (v : pyval) : list pyval :=
  match v with PyList l => l | _ => [] end.

Definition as_zernike (v : pyval) : option ZernikeDistortion :=
  match v with PyZernike d => Some d | _ => None end.
Definition as_str (v : pyval) : option string :=
  match v with PyStr s => Some s | _ => None end.

(** [mode in ["x", "y"]] *)
Definition mode_in_xy (mode : pyval) : bool :=
  match mode with
  | PyStr s => String.eqb s "x" || String.eqb s "y"
  | _ => false
  end.

(** The result of a call: the returned canvas, or the exception raised
    together with the object passed as [mpl_canvas] as the call left it. *)
Inductive outcome : Type :=
  | Return (cv : MplCanvas)
  | Raise (e : exn) (after : pyval).

Definition plot_bar_chart (mpl_canvas distortions labels mode : pyval)
    (absolute : bool) : outcome :=
  if negb (is_canvas mpl_canvas) then
    Raise (ValueError "Invalid MplCanvas object") mpl_canvas
  else if negb (is_list distortions) || (length (elems distortions) =? 0)%nat then
    Raise (ValueError "Invalid distortions list") mpl_canvas
  else if negb (forallb is_zernike (elems distortions)) then
    Raise (ValueError "Invalid distortion object") mpl_canvas
  else if negb (is_list labels) || (length (elems labels) =? 0)%nat then
    Raise (ValueError "Invalid labels list") mpl_canvas
  else if negb (forallb is_str (elems labels)) then
    Raise (ValueError "Invalid label object") mpl_canvas
  else if negb (length (elems labels) =? length (elems distortions))%nat then
    Raise (ValueError "Labels and distortions must have the same length") mpl_canvas
  else if negb (mode_in_xy mode) then
    Raise (ValueError "Invalid mode, must be 'x' or 'y'") mpl_canvas
  else
    match mpl_canvas, mode with
    | PyCanvas cv, PyStr m =>
        match render (omap as_zernike (elems distortions))
                     (omap as_str (elems labels)) m absolute cv with
        | (inr _, cv') => Return cv'
        | (inl e, cv') => Raise e (PyCanvas cv')
        end
    | _, _ =>
        Raise (Exception "not reached: the checks above passed") mpl_canvas
    end.

(** The canvas object after a call, whether the call returned or raised. *)
Definition canvas_after (o : outcome) : option MplCanvas :=
  match o with
  | Return cv | Raise _ (PyCanvas cv) => Some cv
  | Raise _ _ => None
  end.


(** ** The tick layout *)


(** The number of Zernike terms up to order [N]. *)
Definition n_terms (N : Z) : Z := (N + 1) * (N + 2) / 2.

(** ** What a successful call draws *)

(** [distortion.parameters_x if mode == "x" else distortion.parameters_y] *)
Definition select_parameters (mode : string) (d : ZernikeDistortion) : list Q :=
  if String.eqb mode "x" then parameters_x d else parameters_y d.

(** The coefficient vector of a distortion never exceeds the number of
    Zernike terms of its own order: the size discipline of the
    [pycvcam.ZernikeDistortion] class, under which the zero padding of
    line 73 is well defined. *)
Definition fits (d : ZernikeDistortion) : Prop :=
  (length (parameters_x d) ≤ length (tick_indices (Nzer d)))%nat ∧
  (length (parameters_y d) ≤ length (tick_indices (Nzer d)))%nat.

(** [max(distortion.Nzer for distortion in distortions)] on a list that
    is not empty. *)
Definition max_Nzer (d : ZernikeDistortion) (ds : list ZernikeDistortion) : Z :=
  foldl Z.max (Nzer d) (Nzer <$> ds).

(** What the zero padding of line 73 needs of one distortion, in a chart
    of order [N]: on the axis of [mode] it has no more coefficients than
    the layout has ticks. Otherwise [numpy.zeros] is given a negative
    size. *)
Definition fits_layout (mode : string) (N : Z) (d : ZernikeDistortion) : Prop :=
  (length (select_parameters mode d) ≤ length (tick_indices N))%nat.

#[global] Instance fits_layout_dec (mode : string) (N : Z)
    (d : ZernikeDistortion) : Decision (fits_layout mode N d) :=
  decide (length (select_parameters mode d) ≤ length (tick_indices N))%nat.


(** The container drawn for distortion [i] of [k] on [T] ticks. *)
Definition chart_bar (k T : nat) (mode : string) (absolute : bool)
    (i : nat) (d : ZernikeDistortion) (label : string) : BarContainer :=
  let p := select_parameters mode d in
  let padded := p ++ replicate (T - length p) 0%Q in
  {| bar_x := (λ xj, xj + x_shift k + inject_Z (Z.of_nat i) * x_width k)%Q
                <$> numpy_arange T;
     bar_height := if absolute then numpy_abs padded else padded;
     bar_width := x_width k;
     bar_label := label;
     bar_color := (inject_Z (Z.of_nat i) / inject_Z (Z.of_nat k))%Q |}.

(** matplotlib draws a bar of width [w] centred on its position [c]
    ([align="center"], the default): it covers [[c - w/2, c + w/2]]. *)
Definition bar_left (c w : Q) : Q := (c - w / 2)%Q.
Definition bar_right (c w : Q) : Q := (c + w / 2)%Q.

(** The canvas after a successful [plot_bar_chart]. *)
Definition rendered (cv : MplCanvas) (d : ZernikeDistortion)
    (ds : list ZernikeDistortion) (labels : list string) (mode : string)
    (absolute : bool) : MplCanvas :=
  let tl := ticklabels mode (max_Nzer d ds) in
  let T := length tl in
  let k := length (d :: ds) in
  {| axes :=
       {| bars := imap (λ i dl, chart_bar k T mode absolute i dl.1 dl.2)
                       (zip (d :: ds) labels);
          xticks := numpy_arange T;
          xticklabels := tl;
          xtick_rotation := 75;
          title := "Zernike Coefficients [" +:+ mode +:+ "-axis]";
          legend := true;
          grid := true |};
     draws := S (draws cv) |}.

Definition add_bars (cv : MplCanvas) (bs : list BarContainer) : MplCanvas :=
  {| axes :=
       {| bars := bars (axes cv) ++ bs; xticks := xticks (axes cv);
          xticklabels := xticklabels (axes cv);
          xtick_rotation := xtick_rotation (axes cv);
          title := title (axes cv); legend := legend (axes cv);
          grid := grid (axes cv) |};
     draws := draws cv |}.


(** ** [truncate_filename] *)

(** [os.path.basename] (POSIX): what follows the last ["/"]. [acc] is the
    suffix after the last separator seen so far. *)
Fixpoint basename_from (acc p : string) : string :=
  match p with
  | EmptyString => acc
  | String c r =>
      if Ascii.eqb c "/"%char then basename_from r r else basename_from acc r
  end.
Definition basename (p : string) : string := basename_from p p.

(** [s[:stop]] and [s[start:]] with Python's treatment of negative
    indices. *)
Definition slice_to (s : string) (stop : Z) : string :=
  let n := Z.of_nat (String.length s) in
  let stop := if stop <? 0 then Z.max 0 (n + stop) else Z.min n stop in
  String.substring 0 (Z.to_nat stop) s.
Definition slice_from (s : string) (start : Z) : string :=
  let n := Z.of_nat (String.length s) in
  let start := if start <? 0 then Z.max 0 (n + start) else Z.min n start in
  String.substring (Z.to_nat start) (Z.to_nat (n - start)) s.

(** [truncate_filename(file_path, max_len)]. [len] and the slices count
    characters, of which a [string] holds one in each [ascii]. *)
Definition truncate_filename (file_path : string) (max_len : Z) : string :=
  let name := basename file_path in
  if Z.of_nat (String.length name) <=? max_len then name
  else
    let part_len := (max_len - 3) `div` 2 in
    slice_to name part_len +:+ "..." +:+ slice_from name (- part_len).

(** ** The window state *)

(** A [QListWidgetItem]: [item_id] stands for the identity of the Qt
    object. *)
Record QListWidgetItem : Type := {
  item_id : nat;
  item_text : string;
  item_selected : bool
}.

(** The [QListWidget] of loaded files: its rows in order, and the identity
    the next created item receives. *)
Record QListWidget : Type := {
  items : list QListWidgetItem;
  next_id : nat
}.

(** Calls that leave the window: reads of files, message boxes, charts,
    and exceptions that escape a slot (handed to [sys.excepthook]). *)
Inductive event : Type :=
  | ReadTransform (path : string)
  | WarningBox (title text : string)
  | PlotBarChart (distortions : list ZernikeDistortion) (labels : list string)
                 (mode : string) (absolute : bool)
  | Unhandled (e : exn).

(** [ZernikeDistortionVisualizerUI] together with its [DropWidget].
    [file_data] is one dictionary: the window passes its own object to the
    drop area, and both only ever mutate it in place. The same holds for
    [file_list] and [statusbar]. *)
Record UI : Type := {
  file_data : gmap string ZernikeDistortion;
  file_list : QListWidget;
  figure_selector : string;
  abs_checkbox : bool;
  canvas : MplCanvas;
  statusbar : string;
  drop_label : string;
  log : list event
}.

Definition set_file_data (m : gmap string ZernikeDistortion) (ui : UI) : UI :=
  {| file_data := m; file_list := file_list ui;
     figure_selector := figure_selector ui; abs_checkbox := abs_checkbox ui;
     canvas := canvas ui; statusbar := statusbar ui;
     drop_label := drop_label ui; log := log ui |}.
Definition set_file_list (w : QListWidget) (ui : UI) : UI :=
  {| file_data := file_data ui; file_list := w;
     figure_selector := figure_selector ui; abs_checkbox := abs_checkbox ui;
     canvas := canvas ui; statusbar := statusbar ui;
     drop_label := drop_label ui; log := log ui |}.
Definition set_canvas (cv : MplCanvas) (ui : UI) : UI :=
  {| file_data := file_data ui; file_list := file_list ui;
     figure_selector := figure_selector ui; abs_checkbox := abs_checkbox ui;
     canvas := cv; statusbar := statusbar ui;
     drop_label := drop_label ui; log := log ui |}.
Definition set_statusbar (msg : string) (ui : UI) : UI :=
  {| file_data := file_data ui; file_list := file_list ui;
     figure_selector := figure_selector ui; abs_checkbox := abs_checkbox ui;
     canvas := canvas ui; statusbar := msg;
     drop_label := drop_label ui; log := log ui |}.
Definition set_drop_label (msg : string) (ui : UI) : UI :=
  {| file_data := file_data ui; file_list := file_list ui;
     figure_selector := figure_selector ui; abs_checkbox := abs_checkbox ui;
     canvas := canvas ui; statusbar := statusbar ui;
     drop_label := msg; log := log ui |}.
Definition set_log (l : list event) (ui : UI) : UI :=
  {| file_data := file_data ui; file_list := file_list ui;
     figure_selector := figure_selector ui; abs_checkbox := abs_checkbox ui;
     canvas := canvas ui; statusbar := statusbar ui;
     drop_label := drop_label ui; log := l |}.
Definition emit (ev : event) (ui : UI) : UI := set_log (log ui ++ [ev]) ui.

(** [ZernikeDistortionVisualizerUI.__init__] *)
Definition init_UI : UI :=
  {| file_data := ∅;
     file_list := {| items := []; next_id := 0 |};
     figure_selector := "Figure 1 : parameters (X)";
     abs_checkbox := false;
     canvas := new_canvas;
     statusbar := "";
     drop_label := "Drag your files here";
     log := [] |}.

(** *** [QListWidget] primitives *)

(** [selectedItems()]: the selected items, here in row order. Qt fixes
    which items the list holds, not their order, which follows the way
    the selection was built. What is stated below about the chart drawn
    from the selection is therefore stated for every list that
    [selectedItems()] may return: see [update_plot_with]. The dictionary
    and the texts of the list that [remove_selected_files] leaves do not
    depend on the order in which it visits the items. *)
Definition selectedItems (w : QListWidget) : list QListWidgetItem :=
  filter (λ it, item_selected it = true) (items w).

(** [findItems(text, Qt.MatchExactly)] *)
Definition findItems (text : string) (w : QListWidget) : list QListWidgetItem :=
  filter (λ it, item_text it = text) (items w).

(** [addItem(text)]: a new, unselected last row. *)
Definition addItem (text : string) (w : QListWidget) : QListWidget :=
  {| items := items w ++
       [{| item_id := next_id w; item_text := text; item_selected := false |}];
     next_id := S (next_id w) |}.

(** [row(item)]: the row of that very item, if it is in the list. *)
Definition row (item : QListWidgetItem) (w : QListWidget) : option nat :=
  fst <$> list_find (λ it, item_id it = item_id item) (items w).

(** [takeItem(row)]; a row that does not exist removes nothing. *)
Definition takeItem (r : option nat) (w : QListWidget) : QListWidget :=
  match r with
  | Some i => {| items := delete i (items w); next_id := next_id w |}
  | None => w
  end.

Definition mark_selected (id : nat) (w : QListWidget) : QListWidget :=
  {| items :=
       (λ it, if decide (item_id it = id)
              then {| item_id := item_id it; item_text := item_text it;
                      item_selected := true |}
              else it) <$> items w;
     next_id := next_id w |}.

(** *** [update_plot] *)

(** The loop of lines 318 to 323: the distortions of the selected items
    that are loaded, with their truncated names. A distortion object is
    truthy; [dict.get] of an absent key is [None]. *)
Definition collect_selected (file_data : gmap string ZernikeDistortion)
    (selected_items : list QListWidgetItem)
  : list ZernikeDistortion * list string :=
  foldl (λ acc item,
           let file_path := item_text item in
           match file_data !! file_path with
           | Some distortion =>
               (acc.1 ++ [distortion], acc.2 ++ [truncate_filename file_path 30])
           | None => acc
           end)
        ([], []) selected_items.

(** [self.canvas = plot_bar_chart(self.canvas, distortions, labels,
    mode=mode, absolute=use_abs)]. The canvas is mutated in place, so it
    keeps what the call did to it even when the call raises. *)
Definition call_plot_bar_chart (distortions : list ZernikeDistortion)
    (labels : list string) (mode : string) (use_abs : bool) (ui : UI) : UI :=
  let ui := emit (PlotBarChart distortions labels mode use_abs) ui in
  match plot_bar_chart (PyCanvas (canvas ui)) (PyList (PyZernike <$> distortions))
          (PyList (PyStr <$> labels)) (PyStr mode) use_abs with
  | Return cv => set_canvas cv ui
  | Raise e (PyCanvas cv) => emit (Unhandled e) (set_canvas cv ui)
  | Raise e _ => emit (Unhandled e) ui
  end.

Definition canvas_do (m : Plot unit) (ui : UI) : UI :=
  set_canvas (m (canvas ui)).2 ui.

(** [update_plot] from its second line on; [selected_items] is the list
    that [self.file_list.selectedItems()] returned on the first line. *)
Definition update_plot_with (selected_items : list QListWidgetItem) (ui : UI)
  : UI :=
  let ui := canvas_do axes_clear ui in
  match selected_items with
  | [] => canvas_do canvas_draw ui
  | _ =>
      let fig_choice := figure_selector ui in
      let use_abs := abs_checkbox ui in
      let '(distortions, labels) := collect_selected (file_data ui) selected_items in
      match distortions with
      | [] => canvas_do canvas_draw ui
      | _ =>
          if String.prefix "Figure 1" fig_choice then
            call_plot_bar_chart distortions labels "x" use_abs ui
          else if String.prefix "Figure 2" fig_choice then
            call_plot_bar_chart distortions labels "y" use_abs ui
          else ui
      end
  end.

(** [ZernikeDistortionVisualizerUI.update_plot] *)
Definition update_plot (ui : UI) : UI :=
  update_plot_with (selectedItems (file_list ui)) ui.

(** *** Selection changes
    [itemSelectionChanged] is connected to [update_plot], which therefore
    runs whenever a call changes the set of selected items. Which other
    items Qt selects or deselects on its own when the current item moves
    is not modelled; [user_select] below covers every selection the list
    can end up in. *)

(** [item.setSelected(True)] *)
Definition setSelected_True (item : QListWidgetItem) (ui : UI) : UI :=
  match list_find (λ it, item_id it = item_id item) (items (file_list ui)) with
  | Some (_, it) =>
      if item_selected it then ui
      else update_plot (set_file_list (mark_selected (item_id item) (file_list ui)) ui)
  | None => ui
  end.

(** [file_list.setCurrentItem(item)]: the item becomes current and
    selected. The current item is never read by the source. Whether Qt
    deselects other items on the way is part of what is not modelled;
    the selection loop of [open_files] runs after its loading loop, and
    what is stated about [open_files] concerns the dictionary, the rows,
    the reads and the items that the selection loop selects, none of
    which depends on it. *)
Definition setCurrentItem (item : QListWidgetItem) (ui : UI) : UI :=
  setSelected_True item ui.

(** [file_list.takeItem(file_list.row(item))]: the selection changes when
    the item taken out was selected. *)
Definition take_row (item : QListWidgetItem) (ui : UI) : UI :=
  let w := file_list ui in
  let r := row item w in
  let ui' := set_file_list (takeItem r w) ui in
  match r ≫= (λ i, items w !! i) with
  | Some it => if item_selected it then update_plot ui' else ui'
  | None => ui'
  end.

(** ** File management *)

Section file_management.
(** [pycvcam.read_transform(path, ZernikeDistortion)]: the distortion
    stored in the file, or the exception the read raises. *)
Context (read_transform : string → exn + ZernikeDistortion).

(** ["\n"] *)
Definition newline : string := String (Ascii.ascii_of_nat 10) EmptyString.

(** [str(e)] *)
Definition exn_str (e : exn) : string :=
  match e with ValueError m | IndexError m | Exception m => m end.

(** [QMessageBox.warning(self, "File Read Error",
    f"Unable to read {file_path}:\n{e}")] *)
Definition read_warning (file_path : string) (e : exn) : event :=
  WarningBox "File Read Error"
    ("Unable to read " +:+ file_path +:+ ":" +:+ newline +:+ exn_str e).

(** The [try] block shared by [dropEvent] and [open_files]; the result
    says whether the file was loaded. *)
Definition try_load (file_path : string) (ui : UI) : UI * bool :=
  let ui := emit (ReadTransform file_path) ui in
  match read_transform file_path with
  | inr distortion =>
      let ui := set_file_data (<[file_path := distortion]> (file_data ui)) ui in
      let ui := set_file_list (addItem file_path (file_list ui)) ui in
      (ui, true)
  | inl e =>
      (emit (read_warning file_path e) ui, false)
  end.

(** One iteration of the loading loop of [dropEvent]. *)
Definition drop_load_step (acc : UI * nat) (file_path : string) : UI * nat :=
  let '(ui, loaded_count) := acc in
  if bool_decide (file_path = "") || bool_decide (file_path ∈ dom (file_data ui))
  then (ui, loaded_count)
  else
    let '(ui, ok) := try_load file_path ui in
    (ui, if ok then S loaded_count else loaded_count).

(** One iteration of the selection loop of [dropEvent]. *)
Definition drop_select_step (ui : UI) (file_path : string) : UI :=
  if bool_decide (file_path = "") then ui
  else
    let items := findItems file_path (file_list ui) in
    foldl (λ ui item, setSelected_True item ui) ui items.

(** [DropWidget.dropEvent]. [urls] holds [qurl.toLocalFile()] for each
    URL the event carries, in order; a URL that is not a local file
    gives [""]. *)
Definition dropEvent (urls : list string) (ui : UI) : UI :=
  match urls with
  | [] => set_drop_label "Drag your files here" ui
  | _ =>
      let ui := set_drop_label "Drag your files here" ui in
      let '(ui, loaded_count) := foldl drop_load_step (ui, 0%nat) urls in
      let ui := foldl drop_select_step ui urls in
      set_statusbar (pretty loaded_count +:+ " file(s) loaded") ui
  end.

(** One iteration of the loading loop of [open_files]. *)
Definition open_load_step (ui : UI) (p : string) : UI :=
  if bool_decide (p ∈ dom (file_data ui)) then
    match findItems p (file_list ui) with
    | item :: _ => setCurrentItem item ui
    | [] => ui
    end
  else (try_load p ui).1.

(** One iteration of the selection loop of [open_files]. *)
Definition open_select_step (ui : UI) (p : string) : UI :=
  match findItems p (file_list ui) with
  | item :: _ => setSelected_True item ui
  | [] => ui
  end.

(** [ZernikeDistortionVisualizerUI.open_files]. [dialog] is [None] when
    the dialog is cancelled and the selected paths otherwise. *)
Definition open_files (dialog : option (list string)) (ui : UI) : UI :=
  match dialog with
  | None => ui
  | Some paths =>
      let ui := foldl open_load_step ui paths in
      let ui := foldl open_select_step ui paths in
      update_plot ui
  end.
End file_management.

(** One iteration of the loop of [remove_selected_files]. *)
Definition remove_step (ui : UI) (item : QListWidgetItem) : UI :=
  let file_path := item_text item in
  let ui :=
    if bool_decide (file_path ∈ dom (file_data ui))
    then set_file_data (delete file_path (file_data ui)) ui
    else ui in
  take_row item ui.

(** [ZernikeDistortionVisualizerUI.remove_selected_files] *)
Definition remove_selected_files (ui : UI) : UI :=
  let selected_items := selectedItems (file_list ui) in
  let ui := foldl remove_step ui selected_items in
  update_plot ui.

(** ** Vocabulary of the statements about the window *)

(** What an operation appended to the log. *)
Definition new_events (before after : UI) : list event :=
  drop (length (log before)) (log after).

(** Some call of [plot_bar_chart] with this [mode] is among the events. *)
Definition plots_with_mode (mode : string) (evs : list event) : Prop :=
  ∃ ds ls a, PlotBarChart ds ls mode a ∈ evs.

(** The distortions [update_plot] finds for the selected items. *)
Definition loaded_selection (ui : UI) : list ZernikeDistortion :=
  (collect_selected (file_data ui) (selectedItems (file_list ui))).1.

Definition is_Unhandled (ev : event) : Prop := ∃ e, ev = Unhandled e.

(** The distortions of the items of [selected_items] that are loaded, in
    the order of that list: what the loop of [update_plot] collects. *)
Definition loaded_among (fd : gmap string ZernikeDistortion)
    (selected_items : list QListWidgetItem) : list ZernikeDistortion :=
  omap (λ item, fd !! item_text item) selected_items.

(** The exception a call raised, as the event it leaves in the log. *)
Definition escaped (o : outcome) : list event :=
  match o with
  | Return _ => []
  | Raise e _ => [Unhandled e]
  end.

(** From [ui] to [ui'], one call
    [plot_bar_chart(self.canvas, distortions, labels, mode=mode,
    absolute=use_abs)] was made on the canvas [cv]: the canvas of [ui'] is
    the canvas object as that very call leaves it, and the log gained the
    call, followed by the exception if the call raised one. *)
Definition plotted (ui ui' : UI) (cv : MplCanvas)
    (distortions : list ZernikeDistortion) (labels : list string)
    (mode : string) (use_abs : bool) : Prop :=
  let call :=
    plot_bar_chart (PyCanvas cv) (PyList (PyZernike <$> distortions))
      (PyList (PyStr <$> labels)) (PyStr mode) use_abs in
  canvas_after call = Some (canvas ui') ∧
  new_events ui ui' =
    PlotBarChart distortions labels mode use_abs :: escaped call.

Definition is_plot_event (ev : event) : Prop :=
  match ev with
  | PlotBarChart _ _ _ _ | Unhandled _ => True
  | ReadTransform _ | WarningBox _ _ => False
  end.

(** The rows of the file list: which item, with which text. *)
Definition rows (w : QListWidget) : list (nat * string) :=
  (λ it, (item_id it, item_text it)) <$> items w.

(** The texts of the items of the file list, in row order. *)
Definition texts (ui : UI) : list string := item_text <$> items (file_list ui).

(** The file list shows exactly the loaded files, each once. *)
Definition consistent (ui : UI) : Prop :=
  dom (file_data ui) = list_to_set (texts ui) ∧ NoDup (texts ui).

(** Qt items are distinct objects, created in order. *)
Definition ids_wf (w : QListWidget) : Prop :=
  NoDup (item_id <$> items w) ∧
  Forall (λ it, (item_id it < next_id w)%nat) (items w).

(** From [ui] to [ui'] the dictionary and the rows stayed as they were,
    and nothing but plotting happened. *)
Definition only_plots (ui ui' : UI) : Prop :=
  file_data ui' = file_data ui ∧
  rows (file_list ui') = rows (file_list ui) ∧
  next_id (file_list ui') = next_id (file_list ui) ∧
  ∃ evs, log ui' = log ui ++ evs ∧ Forall is_plot_event evs.

Definition quiet (f : UI → UI) : Prop := ∀ ui, only_plots ui (f ui).

(** *** What the user does
    The three signals connected in [__init__] run [update_plot]. *)

(** The user changes the selection in the list: item [id] is selected
    afterwards exactly when [sel id] holds. *)
Definition user_select (sel : nat → bool) (ui : UI) : UI :=
  let w := file_list ui in
  update_plot
    (set_file_list
       {| items := (λ it, {| item_id := item_id it; item_text := item_text it;
                             item_selected := sel (item_id it) |}) <$> items w;
          next_id := next_id w |} ui).

(** The user picks an entry of the figure selector. *)
Definition user_pick_figure (text : string) (ui : UI) : UI :=
  update_plot
    {| file_data := file_data ui; file_list := file_list ui;
       figure_selector := text; abs_checkbox := abs_checkbox ui;
       canvas := canvas ui; statusbar := statusbar ui;
       drop_label := drop_label ui; log := log ui |}.

(** The user toggles the checkbox. *)
Definition user_toggle_abs (ui : UI) : UI :=
  update_plot
    {| file_data := file_data ui; file_list := file_list ui;
       figure_selector := figure_selector ui;
       abs_checkbox := negb (abs_checkbox ui);
       canvas := canvas ui; statusbar := statusbar ui;
       drop_label := drop_label ui; log := log ui |}.

(** The states of a running window: whatever the files contain at each
    read, and whatever the user does. *)
Inductive reachable : UI → Prop :=
  | reach_init : reachable init_UI
  | reach_drop read_transform urls ui :
      reachable ui → reachable (dropEvent read_transform urls ui)
  | reach_open read_transform dialog ui :
      reachable ui → reachable (open_files read_transform dialog ui)
  | reach_remove ui :
      reachable ui → reachable (remove_selected_files ui)
  | reach_select sel ui :
      reachable ui → reachable (user_select sel ui)
  | reach_pick_figure text ui :
      text ∈ ["Figure 1 : parameters (X)"; "Figure 2 : parameters (Y)"] →
      reachable ui → reachable (user_pick_figure text ui)
  | reach_toggle_abs ui :
      reachable ui → reachable (user_toggle_abs ui).

(** ** The effect of the loading loops
    Both loading loops visit the paths in order; a path is skipped when it
    is excluded ([excl], the empty path for [dropEvent]) or already a key
    of [file_data], and is read otherwise. *)
Section load_relation.
Context (read_transform : string → exn + ZernikeDistortion).
Context (excl : string → Prop).

Definition load_effect (ui : UI) (p : string) (ui' : UI) : Prop :=
  ((excl p ∨ p ∈ dom (file_data ui)) ∧ only_plots ui ui') ∨
  (¬ excl p ∧ (p ∉ dom (file_data ui)) ∧
   match read_transform p with
   | inr d =>
       file_data ui' = (<[p := d]> (file_data ui)) ∧
       rows (file_list ui') =
         rows (file_list ui) ++ [(next_id (file_list ui), p)] ∧
       next_id (file_list ui') = S (next_id (file_list ui)) ∧
       log ui' = log ui ++ [ReadTransform p]
   | inl e =>
       file_data ui' = file_data ui ∧
       rows (file_list ui') = rows (file_list ui) ∧
       next_id (file_list ui') = next_id (file_list ui) ∧
       log ui' = log ui ++ [ReadTransform p; read_warning p e]
   end).

Inductive load_run : list string → UI → UI → Prop :=
  | load_run_nil ui : load_run [] ui ui
  | load_run_cons p urls ui ui1 ui' :
      load_effect ui p ui1 → load_run urls ui1 ui' →
      load_run (p :: urls) ui ui'.
End load_relation.

(** A window whose list items are distinct objects and whose list shows
    exactly the loaded files. *)
Definition well_formed (ui : UI) : Prop :=
  ids_wf (file_list ui) ∧ consistent ui.

(** The same, on the dictionary, the rows and the next identity alone. *)
Definition core_ok (fd : gmap string ZernikeDistortion)
    (rs : list (nat * string)) (nx : nat) : Prop :=
  dom fd = list_to_set rs.*2 ∧ NoDup rs.*2 ∧ NoDup rs.*1 ∧
  Forall (λ r, (r.1 < nx)%nat) rs.

(** ** Sample data for the worked examples *)

(** An order-1 distortion: three coefficients per axis. *)
Definition sample_order1 : ZernikeDistortion :=
  {| Nzer := 1;
     parameters_x := [(1 # 2)%Q; (-1 # 3)%Q; 2%Q];
     parameters_y := [0%Q; 1%Q; (-5)%Q] |}.

(** An order-0 distortion: one coefficient per axis. *)
Definition sample_order0 : ZernikeDistortion :=
  {| Nzer := 0; parameters_x := [(-7 # 2)%Q]; parameters_y := [3%Q] |}.

(** An object that breaks the size discipline: order 0 with two
    coefficients. *)
Definition sample_oversized : ZernikeDistortion :=
  {| Nzer := 0; parameters_x := [1%Q; 2%Q]; parameters_y := [3%Q; 4%Q] |}.

(** A directory with two readable files and nothing else. *)
Definition sample_read_transform (path : string) : exn + ZernikeDistortion :=
  if String.eqb path "a.json" then inr sample_order1
  else if String.eqb path "b.json" then inr sample_order0
  else inl (Exception "bad file").

(** ** Vocabulary of the further properties *)

(** A drawing step whose result and axes depend on the axes it starts
    from, not on how often the canvas was drawn. *)
Definition axes_determined {A} (m : Plot A) : Prop :=
  ∀ cv1 cv2, axes cv1 = axes cv2 →
    (m cv1).1 = (m cv2).1 ∧ axes (m cv1).2 = axes (m cv2).2.

(** The selected items that are loaded, each with its distortion and its
    truncated name: what the loop of [update_plot] appends. *)
Definition selected_pairs (fd : gmap string ZernikeDistortion)
    (selected_items : list QListWidgetItem)
  : list (ZernikeDistortion * string) :=
  omap (λ item, (λ d, (d, truncate_filename (item_text item) 30))
                  <$> fd !! item_text item)
       selected_items.

(** Every character of [s] is an ASCII character. *)
Definition ascii_only (s : string) : Prop :=
  Forall (λ c, (nat_of_ascii c < 128)%nat) (String.list_ascii_of_string s).

(** From [w] to [w'] the list kept its items and no item lost its
    selection. *)
Definition selection_grows (w w' : QListWidget) : Prop :=
  Forall2 (λ it it',
             item_id it = item_id it' ∧ item_text it = item_text it' ∧
             (item_selected it = true → item_selected it' = true))
          (items w) (items w').

(** From [w] to [w'] the list kept its items, and an item is selected
    afterwards only if it was before or if [Q] holds of it. *)
Definition selection_within (Q : nat → string → Prop) (w w' : QListWidget)
  : Prop :=
  Forall2 (λ it it',
             item_id it = item_id it' ∧ item_text it = item_text it' ∧
             (item_selected it' = true →
              item_selected it = true ∨ Q (item_id it) (item_text it)))
          (items w) (items w').

(** ** The drag events of [DropWidget]
    [urls] is what [_extract_urls] returns for the event, as in
    [dropEvent]. The style sheet of the widget is not modelled. *)

(** [DropWidget.dragEnterEvent] *)
Definition dragEnterEvent (urls : list string) (ui : UI) : UI :=
  match urls with
  | [] => ui
  | _ =>
      let ui := set_drop_label "Release to drop" ui in
      set_statusbar (pretty (length urls) +:+ " file(s) detected") ui
  end.

(** [DropWidget.dragLeaveEvent]; [clearMessage] leaves the status bar
    with no message. *)
Definition dragLeaveEvent (ui : UI) : UI :=
  let ui := set_drop_label "Drag your files here" ui in
  set_statusbar "" ui.

(** ** [open_files] for any [setCurrentItem]
    In the extended selection mode of the list, what [setCurrentItem]
    does to the selection of the other items depends on how the selection
    was built. Here it is left open: [set_current item] is the whole
    effect of [setCurrentItem(item)] on the window. *)

(** One iteration of the loading loop of [open_files]. *)
Definition open_load_step_with (set_current : QListWidgetItem → UI → UI)
    (read_transform : string → exn + ZernikeDistortion)
    (ui : UI) (p : string) : UI :=
  if bool_decide (p ∈ dom (file_data ui)) then
    match findItems p (file_list ui) with
    | item :: _ => set_current item ui
    | [] => ui
    end
  else (try_load read_transform p ui).1.

(** [ZernikeDistortionVisualizerUI.open_files] *)
Definition open_files_with (set_current : QListWidgetItem → UI → UI)
    (read_transform : string → exn + ZernikeDistortion)
    (dialog : option (list string)) (ui : UI) : UI :=
  match dialog with
  | None => ui
  | Some paths =>
      let ui := foldl (open_load_step_with set_current read_transform) ui paths in
      let ui := foldl open_select_step ui paths in
      update_plot ui
  end.
(** * Proofs *)

Example ticklabels_x_2 :
  ticklabels "x" 2 =
  ["Cx(0, 0)"; "Cx(1, -1)"; "Cx(1, 1)"; "Cx(2, -2)"; "Cx(2, 0)"; "Cx(2, 2)"].
Proof. vm_compute. reflexivity. Qed.

Section list_facts.
Context {A B : Type}.

End list_facts.


(** The labels are the formatted index pairs, in the same order. *)
Lemma ticklabels_indices (mode : string) (N : Z) :
  ticklabels mode N = (λ p, fmt_ticklabel mode p.1 p.2) <$> tick_indices N.
Proof.
  unfold ticklabels, tick_indices.
  generalize (range 0 (N + 1)). intros l.
  induction l as [|n l IH]; [done|].
  rewrite !bind_cons, fmap_app, IH. f_equal.
  generalize (range (- n) (n + 1)). intros l'.
  induction l' as [|m l' IH']; [done|].
  rewrite !bind_cons, fmap_app, IH'. f_equal.
  by destruct (_ =? _).
Qed.



(** One order [n] contributes the [n + 1] values [-n, -n + 2, ..., n]. *)
Lemma length_same_parity {B : Type} (f : Z → B) (c : Z) (k : nat) (a : Z) :
  (c + a) `mod` 2 = 0 →
  length (seqZ a (2 * Z.of_nat k + 1) ≫=
            (λ m, if (c + m) `mod` 2 =? 0 then [f m] else [])) = S k.
Proof.
  revert a. induction k as [|k IH]; intros a Ha.
  - rewrite seqZ_cons, seqZ_nil, bind_cons by lia.
    apply Z.eqb_eq in Ha. by rewrite Ha.
  - rewrite seqZ_cons by lia. rewrite (seqZ_cons (Z.succ a)) by lia.
    rewrite !bind_cons.
    replace (Z.pred (Z.pred (2 * Z.of_nat (S k) + 1)))
      with (2 * Z.of_nat k + 1) by lia.
    rewrite !length_app, IH.
    + assert (((c + Z.succ a) `mod` 2 =? 0) = false) as ->.
      { apply Z.eqb_neq.
        replace (c + Z.succ a) with (c + a + 1) by lia.
        rewrite Z.add_mod, Ha by lia. done. }
      apply Z.eqb_eq in Ha. by rewrite Ha.
    + replace (c + Z.succ (Z.succ a)) with (c + a + 1 * 2) by lia.
      by rewrite Z.mod_add by lia.
Qed.

Lemma n_terms_succ (K : Z) : 0 ≤ K → n_terms K = n_terms (K - 1) + (K + 1).
Proof.
  intros HK. unfold n_terms.
  replace ((K + 1) * (K + 2)) with ((K - 1 + 1) * (K - 1 + 2) + (K + 1) * 2) by lia.
  by rewrite Z.div_add by lia.
Qed.

Lemma n_terms_nonneg (K : Z) : -1 ≤ K → 0 ≤ n_terms K.
Proof. intros HK. unfold n_terms. apply Z.div_pos; nia. Qed.

Lemma length_tick_indices_nat (K : nat) :
  length (tick_indices (Z.of_nat K - 1)) = Z.to_nat (n_terms (Z.of_nat K - 1)).
Proof.
  induction K as [|K IH]; [done|].
  unfold tick_indices, range in *.
  replace (Z.of_nat (S K) - 1 + 1 - 0) with (Z.of_nat (S K)) by lia.
  replace (Z.of_nat K - 1 + 1 - 0) with (Z.of_nat K) in IH by lia.
  rewrite seqZ_S, bind_app, length_app, IH, bind_singleton. simpl.
  replace (0 + Z.of_nat K + 1 - - (0 + Z.of_nat K))
    with (2 * Z.of_nat K + 1) by lia.
  rewrite length_same_parity.
  - replace (Z.of_nat (S K) - 1) with (Z.of_nat K) by lia.
    rewrite (n_terms_succ (Z.of_nat K)) by lia.
    pose proof (n_terms_nonneg (Z.of_nat K - 1)). lia.
  - replace (0 + Z.of_nat K + - (0 + Z.of_nat K)) with 0 by lia. done.
Qed.

Lemma length_tick_indices (N : Z) :
  -1 ≤ N → Z.of_nat (length (tick_indices N)) = n_terms N.
Proof.
  intros HN.
  replace N with (Z.of_nat (Z.to_nat (N + 1)) - 1) by lia.
  rewrite length_tick_indices_nat.
  pose proof (n_terms_nonneg (Z.of_nat (Z.to_nat (N + 1)) - 1)). lia.
Qed.

Lemma tick_indices_neg (N : Z) : N < 0 → tick_indices N = [].
Proof. intros HN. unfold tick_indices, range. by rewrite seqZ_nil by lia. Qed.

Lemma length_ticklabels (mode : string) (N : Z) :
  length (ticklabels mode N) = length (tick_indices N).
Proof. by rewrite ticklabels_indices, length_fmap. Qed.

(** More orders never mean fewer ticks. *)
Lemma length_tick_indices_mono (N1 N2 : Z) :
  N1 ≤ N2 → (length (tick_indices N1) ≤ length (tick_indices N2))%nat.
Proof.
  intros Hle.
  destruct (decide (N1 < 0)) as [Hneg|Hpos].
  { rewrite (tick_indices_neg N1) by done. simpl. lia. }
  unfold tick_indices, range.
  replace (N2 + 1 - 0) with ((N1 + 1) + (N2 - N1)) by lia.
  rewrite seqZ_app, bind_app, length_app by lia.
  replace (N1 + 1 - 0) with (N1 + 1) by lia. lia.
Qed.

Lemma add_bars_nil (cv : MplCanvas) : add_bars cv [] = cv.
Proof. destruct cv as [[] ?]. unfold add_bars. simpl. by rewrite app_nil_r. Qed.

Lemma add_bars_app (cv : MplCanvas) (b1 b2 : list BarContainer) :
  add_bars (add_bars cv b1) b2 = add_bars cv (b1 ++ b2).
Proof. unfold add_bars. simpl. by rewrite app_assoc. Qed.

Lemma foldl_max_le (z : Z) (l : list Z) :
  z ≤ foldl Z.max z l ∧ Forall (λ y, y ≤ foldl Z.max z l) l.
Proof.
  revert z. induction l as [|y l IH]; intros z; simpl.
  - split; [lia | constructor].
  - destruct (IH (Z.max z y)) as [H1 H2]. split; [lia|].
    constructor; [lia | done].
Qed.

Lemma max_Nzer_upper (d : ZernikeDistortion) (ds : list ZernikeDistortion) :
  Forall (λ d', Nzer d' ≤ max_Nzer d ds) (d :: ds).
Proof.
  unfold max_Nzer. destruct (foldl_max_le (Nzer d) (Nzer <$> ds)) as [H1 H2].
  constructor; [done|]. by rewrite Forall_fmap in H2.
Qed.


Lemma select_parameters_fits (mode : string) (d : ZernikeDistortion) :
  fits d → (length (select_parameters mode d) ≤ length (tick_indices (Nzer d)))%nat.
Proof. intros [Hx Hy]. unfold select_parameters. by destruct (String.eqb _ _). Qed.

Lemma plot_one_ok (k : nat) (tl : list string) (labels : list string)
    (mode : string) (absolute : bool) (i : nat) (d : ZernikeDistortion)
    (l : string) (cv : MplCanvas) :
  (length (select_parameters mode d) ≤ length tl)%nat →
  labels !! i = Some l →
  plot_one k tl (numpy_arange (length tl)) labels mode absolute i d cv =
  (inr tt, add_bars cv [chart_bar k (length tl) mode absolute i d l]).
Proof.
  intros Hlen Hl.
  unfold plot_one, plot_bind, plot_lift, py_index, numpy_zeros.
  fold (select_parameters mode d).
  rewrite Hl.
  destruct (_ <? 0) eqn:E; [apply Z.ltb_lt in E; lia|].
  unfold axes_bar, with_axes, add_bars, chart_bar. simpl.
  replace (Z.to_nat (Z.of_nat (length tl) -
                     Z.of_nat (length (select_parameters mode d))))
    with (length tl - length (select_parameters mode d))%nat by lia.
  done.
Qed.

Lemma for_enumerate_ok (k : nat) (tl : list string) (labels : list string)
    (mode : string) (absolute : bool) (ds : list ZernikeDistortion) :
  ∀ (i : nat) (cv : MplCanvas),
  Forall (λ d, (length (select_parameters mode d) ≤ length tl)%nat) ds →
  (i + length ds ≤ length labels)%nat →
  for_enumerate i ds
    (plot_one k tl (numpy_arange (length tl)) labels mode absolute) cv =
  (inr tt,
   add_bars cv
     (imap (λ j dl, chart_bar k (length tl) mode absolute (i + j) dl.1 dl.2)
           (zip ds (drop i labels)))).
Proof.
  induction ds as [|d ds IH]; intros i cv Hfit Hlen; simpl.
  - by rewrite add_bars_nil.
  - simpl in Hlen.
    destruct (lookup_lt_is_Some_2 labels i) as [l Hl]; [lia|].
    apply Forall_cons in Hfit as [Hd Hfit].
    unfold plot_bind at 1. rewrite (plot_one_ok _ _ _ _ _ _ _ l) by done.
    rewrite IH by (done || lia).
    rewrite add_bars_app. rewrite (drop_S _ _ _ Hl). simpl.
    rewrite Nat.add_0_r. do 3 f_equal.
    apply imap_ext. intros j [d' l'] _. simpl. do 2 f_equal. lia.
Qed.

Lemma fits_max (mode : string) (d : ZernikeDistortion)
    (ds : list ZernikeDistortion) :
  Forall fits (d :: ds) →
  Forall (λ d', (length (select_parameters mode d') ≤
                 length (ticklabels mode (max_Nzer d ds)))%nat) (d :: ds).
Proof.
  intros Hfit. pose proof (max_Nzer_upper d ds) as Hmax.
  rewrite Forall_forall in *. intros d' Hd'.
  rewrite length_ticklabels.
  etrans; [apply select_parameters_fits; auto|].
  apply length_tick_indices_mono. auto.
Qed.

Lemma render_ok (cv : MplCanvas) (d : ZernikeDistortion)
    (ds : list ZernikeDistortion) (labels : list string) (mode : string)
    (absolute : bool) :
  length labels = length (d :: ds) →
  Forall fits (d :: ds) →
  render (d :: ds) labels mode absolute cv =
  (inr tt, rendered cv d ds labels mode absolute).
Proof.
  intros Hlen Hfit. unfold render.
  unfold plot_bind at 1. unfold axes_clear, with_axes at 1.
  unfold plot_bind at 1. unfold plot_lift, py_max. rewrite fmap_cons.
  fold (max_Nzer d ds).
  unfold plot_bind at 1.
  rewrite for_enumerate_ok; [|by apply fits_max|lia].
  reflexivity.
Qed.

Lemma omap_as_zernike (ds : list ZernikeDistortion) :
  omap as_zernike (PyZernike <$> ds) = ds.
Proof.
  induction ds as [|d ds IH]; [done|].
  rewrite fmap_cons. cbn [omap list_omap as_zernike]. by rewrite IH.
Qed.

Lemma omap_as_str (ls : list string) : omap as_str (PyStr <$> ls) = ls.
Proof.
  induction ls as [|l ls IH]; [done|].
  rewrite fmap_cons. cbn [omap list_omap as_str]. by rewrite IH.
Qed.

Lemma forallb_is_zernike (ds : list ZernikeDistortion) :
  forallb is_zernike (PyZernike <$> ds) = true.
Proof. induction ds as [|d ds IH]; [done|]. done. Qed.

Lemma forallb_is_str (ls : list string) :
  forallb is_str (PyStr <$> ls) = true.
Proof. induction ls as [|l ls IH]; [done|]. done. Qed.

(** A well-typed, well-sized call returns the canvas [rendered]. *)
Lemma plot_bar_chart_typed (cv : MplCanvas) (d : ZernikeDistortion)
    (ds : list ZernikeDistortion) (labels : list string) (mode : string)
    (absolute : bool) :
  length labels = length (d :: ds) →
  mode = "x" ∨ mode = "y" →
  Forall fits (d :: ds) →
  plot_bar_chart (PyCanvas cv) (PyList (PyZernike <$> d :: ds))
    (PyList (PyStr <$> labels)) (PyStr mode) absolute =
  Return (rendered cv d ds labels mode absolute).
Proof.
  intros Hlen Hmode Hfit. unfold plot_bar_chart.
  cbn [is_canvas is_list elems negb orb].
  rewrite forallb_is_zernike, forallb_is_str. cbn [negb].
  rewrite !length_fmap.
  destruct labels as [|l labels]; [done|].
  cbn [length Nat.eqb]. simpl in Hlen.
  assert ((length labels =? length ds)%nat = true) as ->
    by (apply Nat.eqb_eq; lia).
  assert (mode_in_xy (PyStr mode) = true) as ->
    by (by destruct Hmode as [-> | ->]).
  cbn [negb].
  rewrite omap_as_zernike, omap_as_str.
  rewrite render_ok; [done|simpl; lia|done].
Qed.

(** Once the checks pass, the call is [render] on the canvas. *)
Lemma plot_bar_chart_valid_render (cv : MplCanvas)
    (ds : list ZernikeDistortion) (labels : list string) (mode : string)
    (absolute : bool) :
  ds ≠ [] →
  length labels = length ds →
  mode = "x" ∨ mode = "y" →
  plot_bar_chart (PyCanvas cv) (PyList (PyZernike <$> ds))
    (PyList (PyStr <$> labels)) (PyStr mode) absolute =
  match render ds labels mode absolute cv with
  | (inr _, cv') => Return cv'
  | (inl e, cv') => Raise e (PyCanvas cv')
  end.
Proof.
  intros Hne Hlen Hmode. unfold plot_bar_chart.
  cbn [is_canvas is_list elems negb orb].
  rewrite forallb_is_zernike, forallb_is_str. cbn [negb].
  rewrite !length_fmap.
  destruct ds as [|d ds]; [done|]. destruct labels as [|l labels]; [done|].
  cbn [length Nat.eqb]. simpl in Hlen.
  assert ((length labels =? length ds)%nat = true) as ->
    by (apply Nat.eqb_eq; lia).
  assert (mode_in_xy (PyStr mode) = true) as ->
    by (by destruct Hmode as [-> | ->]).
  cbn [negb]. by rewrite omap_as_zernike, omap_as_str.
Qed.

Lemma for_enumerate_app {A} (body : nat → A → Plot unit) (l1 l2 : list A) :
  ∀ (i : nat) (cv : MplCanvas),
  for_enumerate i (l1 ++ l2) body cv =
  match for_enumerate i l1 body cv with
  | (inr _, cv') => for_enumerate (i + length l1) l2 body cv'
  | (inl e, cv') => (inl e, cv')
  end.
Proof.
  induction l1 as [|x l1 IH]; intros i cv.
  - cbn. by rewrite Nat.add_0_r.
  - cbn [app for_enumerate length]. unfold plot_bind.
    destruct (body i x cv) as [[e|[]] cv1]; [done|].
    rewrite IH. by replace (S i + length l1)%nat with (i + S (length l1))%nat by lia.
Qed.

Lemma plot_one_oversized (k : nat) (tl : list string) (x : list Q)
    (labels : list string) (mode : string) (absolute : bool) (i : nat)
    (d : ZernikeDistortion) (cv : MplCanvas) :
  (length tl < length (select_parameters mode d))%nat →
  plot_one k tl x labels mode absolute i d cv =
  (inl (ValueError "negative dimensions are not allowed"), cv).
Proof.
  intros Hlen. unfold plot_one, plot_bind, plot_lift, numpy_zeros.
  fold (select_parameters mode d).
  destruct (_ <? 0) eqn:E; [done|]. apply Z.ltb_ge in E. lia.
Qed.

(** The layout condition, in the two forms the lemmas use. *)
Lemma fits_layout_ticklabels (mode : string) (N : Z) (d : ZernikeDistortion) :
  fits_layout mode N d ↔
  (length (select_parameters mode d) ≤ length (ticklabels mode N))%nat.
Proof. unfold fits_layout. by rewrite length_ticklabels. Qed.

(** Distortions that obey the size discipline of their class fit the
    layout of the largest order among them. *)
Lemma fits_fits_layout (mode : string) (d : ZernikeDistortion)
    (ds : list ZernikeDistortion) :
  Forall fits (d :: ds) → Forall (fits_layout mode (max_Nzer d ds)) (d :: ds).
Proof.
  intros Hfit. eapply Forall_impl; [by apply (fits_max mode)|].
  intros d'. apply fits_layout_ticklabels.
Qed.

(** A call that passes the checks on distortions that fit the layout
    returns the canvas [rendered]. *)
Lemma plot_bar_chart_returns (cv : MplCanvas) (d : ZernikeDistortion)
    (ds : list ZernikeDistortion) (labels : list string) (mode : string)
    (absolute : bool) :
  length labels = length (d :: ds) →
  mode = "x" ∨ mode = "y" →
  Forall (fits_layout mode (max_Nzer d ds)) (d :: ds) →
  plot_bar_chart (PyCanvas cv) (PyList (PyZernike <$> d :: ds))
    (PyList (PyStr <$> labels)) (PyStr mode) absolute =
  Return (rendered cv d ds labels mode absolute).
Proof.
  intros Hlen Hmode Hfit.
  rewrite plot_bar_chart_valid_render by done.
  unfold render.
  unfold plot_bind at 1. unfold axes_clear, with_axes at 1.
  unfold plot_bind at 1. unfold plot_lift, py_max. rewrite fmap_cons.
  fold (max_Nzer d ds).
  unfold plot_bind at 1.
  rewrite for_enumerate_ok; [done| |lia].
  eapply Forall_impl; [exact Hfit|]. intros d'. apply fits_layout_ticklabels.
Qed.



(** ** The tick labels of a chart *)

Lemma length_numpy_arange (n : nat) : length (numpy_arange n) = n.
Proof. unfold numpy_arange. rewrite length_fmap, length_seqZ. lia. Qed.

Lemma lookup_numpy_arange (n j : nat) :
  (j < n)%nat → numpy_arange n !! j = Some (inject_Z (Z.of_nat j)).
Proof.
  intros Hj. unfold numpy_arange.
  rewrite list_lookup_fmap, lookup_seqZ_lt by lia. done.
Qed.

Lemma length_chart_bar_height (k T : nat) (mode : string) (absolute : bool)
    (i : nat) (d : ZernikeDistortion) (l : string) :
  (length (select_parameters mode d) ≤ T)%nat →
  length (bar_height (chart_bar k T mode absolute i d l)) = T.
Proof.
  intros Hle. unfold chart_bar, numpy_abs. simpl.
  destruct absolute; rewrite ?length_fmap, length_app, length_replicate; lia.
Qed.

Lemma length_chart_bar_x (k T : nat) (mode : string) (absolute : bool)
    (i : nat) (d : ZernikeDistortion) (l : string) :
  length (bar_x (chart_bar k T mode absolute i d l)) = T.
Proof. unfold chart_bar. simpl. by rewrite length_fmap, length_numpy_arange. Qed.

(** The containers of [rendered], one per distortion. *)
Lemma rendered_bars_lookup (cv : MplCanvas) (d : ZernikeDistortion)
    (ds : list ZernikeDistortion) (labels : list string) (mode : string)
    (absolute : bool) (i : nat) (b : BarContainer) :
  length labels = length (d :: ds) →
  bars (axes (rendered cv d ds labels mode absolute)) !! i = Some b ↔
  ∃ d' l, (d :: ds) !! i = Some d' ∧ labels !! i = Some l ∧
    b = chart_bar (length (d :: ds))
          (length (ticklabels mode (max_Nzer d ds))) mode absolute i d' l.
Proof.
  intros Hlen. unfold rendered. cbn [axes bars].
  rewrite list_lookup_imap.
  destruct (zip (d :: ds) labels !! i) as [[d' l]|] eqn:E.
  - apply lookup_zip_with_Some in E as (d'' & l'' & Heq & Hd & Hl).
    simplify_eq. cbn. rewrite Hd, Hl. split.
    + intros [= <-]. eauto.
    + intros (? & ? & [= <-] & [= <-] & ->). done.
  - cbn. split; [done|]. intros (d' & l & Hd & Hl & _).
    assert (zip (d :: ds) labels !! i = Some (d', l)) as Hz.
    { apply lookup_zip_with_Some. eauto. }
    congruence.
Qed.



(** ** Chart geometry *)

Section geometry.
Local Open Scope Q_scope.

Lemma inject_nat_pos (k : nat) : (0 < k)%nat → 0 < inject_Z (Z.of_nat k).
Proof. intros Hk. unfold Qlt. simpl. lia. Qed.

Lemma inject_nat_le (i j : nat) :
  (i ≤ j)%nat → inject_Z (Z.of_nat i) <= inject_Z (Z.of_nat j).
Proof. intros Hij. rewrite <- Zle_Qle. lia. Qed.

Lemma inject_nat_S (i : nat) :
  inject_Z (Z.of_nat (S i)) == inject_Z (Z.of_nat i) + 1.
Proof. rewrite Nat2Z.inj_succ. unfold Z.succ. by rewrite inject_Z_plus. Qed.

Lemma x_width_spec (k : nat) :
  (0 < k)%nat → x_width k * inject_Z (Z.of_nat k) == 0.8 ∧ 0 < x_width k.
Proof.
  intros Hk. pose proof (inject_nat_pos k Hk) as HK. unfold x_width. split.
  - field. lra.
  - apply Qlt_shift_div_l; lra.
Qed.

(** The centre of bar [i] of [k] at tick position [x]. *)
Lemma bar_centre (k i : nat) (x : Q) :
  (0 < k)%nat →
  x + x_shift k + inject_Z (Z.of_nat i) * x_width k ==
  x - 0.4 + (2 * inject_Z (Z.of_nat i) + 1) * 0.4 / inject_Z (Z.of_nat k).
Proof.
  intros Hk. pose proof (inject_nat_pos k Hk) as HK.
  unfold x_shift, x_width. field. lra.
Qed.

Lemma bar_left_spec (k i : nat) (x : Q) :
  bar_left (x + x_shift k + inject_Z (Z.of_nat i) * x_width k) (x_width k) ==
  x - 0.4 + inject_Z (Z.of_nat i) * x_width k.
Proof. unfold bar_left, x_shift. lra. Qed.

Lemma bar_right_spec (k i : nat) (x : Q) :
  bar_right (x + x_shift k + inject_Z (Z.of_nat i) * x_width k) (x_width k) ==
  x - 0.4 + inject_Z (Z.of_nat (S i)) * x_width k.
Proof. rewrite inject_nat_S. unfold bar_right, x_shift. field. Qed.

Lemma scaled_le (k i j : nat) :
  (0 < k)%nat → (i ≤ j)%nat →
  inject_Z (Z.of_nat i) * x_width k <= inject_Z (Z.of_nat j) * x_width k.
Proof.
  intros Hk Hij. destruct (x_width_spec k Hk) as [_ Hw].
  apply Qmult_le_compat_r; [by apply inject_nat_le | lra].
Qed.
End geometry.

Lemma chart_bar_x_lookup (k T : nat) (mode : string) (absolute : bool)
    (i : nat) (d : ZernikeDistortion) (l : string) (j : nat) (c : Q) :
  bar_x (chart_bar k T mode absolute i d l) !! j = Some c ↔
  (j < T)%nat ∧
  c = (inject_Z (Z.of_nat j) + x_shift k + inject_Z (Z.of_nat i) * x_width k)%Q.
Proof.
  unfold chart_bar. cbn [bar_x]. rewrite list_lookup_fmap.
  destruct (decide (j < T)%nat) as [Hj|Hj].
  - rewrite lookup_numpy_arange by done. cbn.
    split; [by intros [= <-] | by intros [_ ->]].
  - rewrite (lookup_ge_None_2 (numpy_arange T) j)
      by (rewrite length_numpy_arange; lia).
    cbn. split; [done | intros [? _]; lia].
Qed.

(** C7. Take a valid call with [k] distortions: it passes the checks and
    its distortions fit the layout, which has [T] ticks. The chart has [k]
    containers and [T] tick positions, the positions [0, 1, ...]; every
    container has one bar at each tick, so that distortion [i] has a bar
    at tick [j] for all [i < k] and [j < T] (and [T] is positive when the
    largest order is not negative). Every bar has width [0.8 / k]; the bar
    of distortion [i] at tick position [x] is centred at
    [x - 0.4 + (2 i + 1) * 0.4 / k]; the bars of one tick lie inside
    [[x - 0.4, x + 0.4]], the first starts at [x - 0.4], the last ends at
    [x + 0.4], a bar ends where the next one starts and no later than any
    later bar starts. Stated over exact rationals. *)
Theorem plot_bar_chart_geometry (cv : MplCanvas) (d : ZernikeDistortion)
    (ds : list ZernikeDistortion) (labels : list string) (mode : string)
    (absolute : bool) :
  length labels = length (d :: ds) →
  mode = "x" ∨ mode = "y" →
  Forall (fits_layout mode (max_Nzer d ds)) (d :: ds) →
  let k := length (d :: ds) in
  let K := inject_Z (Z.of_nat k) in
  let T := length (tick_indices (max_Nzer d ds)) in
  ∃ cv',
    plot_bar_chart (PyCanvas cv) (PyList (PyZernike <$> d :: ds))
      (PyList (PyStr <$> labels)) (PyStr mode) absolute = Return cv' ∧
    length (bars (axes cv')) = k ∧
    length (xticks (axes cv')) = T ∧
    (0 ≤ max_Nzer d ds → (0 < T)%nat) ∧
    (∀ b, b ∈ bars (axes cv') →
          length (bar_x b) = T ∧ length (bar_height b) = T) ∧
    (∀ i j : nat, (i < k)%nat → (j < T)%nat →
       ∃ (b : BarContainer) (c : Q),
         bars (axes cv') !! i = Some b ∧ bar_x b !! j = Some c) ∧
    ∀ (i : nat) (b : BarContainer) (j : nat) (c : Q),
      bars (axes cv') !! i = Some b → bar_x b !! j = Some c →
      let x := inject_Z (Z.of_nat j) in
      let I := inject_Z (Z.of_nat i) in
      (xticks (axes cv') !! j = Some x ∧
       bar_width b == 0.8 / K ∧
       c == x - 0.4 + (2 * I + 1) * 0.4 / K ∧
       x - 0.4 <= bar_left c (bar_width b) ∧
       bar_right c (bar_width b) <= x + 0.4 ∧
       (i = 0%nat → bar_left c (bar_width b) == x - 0.4) ∧
       (S i = k → bar_right c (bar_width b) == x + 0.4) ∧
       ∀ (i' : nat) (b' : BarContainer) (c' : Q),
         bars (axes cv') !! i' = Some b' → bar_x b' !! j = Some c' →
         (i < i')%nat →
         bar_right c (bar_width b) <= bar_left c' (bar_width b') ∧
         (i' = S i → bar_right c (bar_width b) == bar_left c' (bar_width b')))%Q.
Proof.
  intros Hlen Hmode Hfit k K T.
  exists (rendered cv d ds labels mode absolute).
  split; [by apply plot_bar_chart_returns|].
  assert (length (bars (axes (rendered cv d ds labels mode absolute))) = k)
    as Hbars.
  { unfold rendered. cbn [axes bars]. rewrite length_imap, length_zip. lia. }
  assert (∀ b, b ∈ bars (axes (rendered cv d ds labels mode absolute)) →
               length (bar_x b) = T ∧ length (bar_height b) = T) as Hfull.
  { intros b Hb. apply list_elem_of_lookup in Hb as [i Hb].
    apply (rendered_bars_lookup cv) in Hb as (d' & l & Hd & Hl & ->); [|done].
    rewrite length_chart_bar_x, length_chart_bar_height.
    - by rewrite length_ticklabels.
    - rewrite Forall_forall in Hfit. apply fits_layout_ticklabels, Hfit.
      by apply list_elem_of_lookup_2 in Hd. }
  split; [exact Hbars|].
  split.
  { unfold rendered. cbn [axes xticks].
    by rewrite length_numpy_arange, length_ticklabels. }
  split.
  { intros HN. pose proof (length_tick_indices (max_Nzer d ds)) as HT.
    fold T in HT. unfold n_terms in HT.
    assert (1 ≤ ((max_Nzer d ds + 1) * (max_Nzer d ds + 2)) `div` 2).
    { apply Z.div_le_lower_bound; nia. }
    lia. }
  split; [exact Hfull|].
  split.
  { intros i j Hi Hj.
    destruct (lookup_lt_is_Some_2
                (bars (axes (rendered cv d ds labels mode absolute))) i)
      as [b Hb]; [lia|].
    destruct (Hfull b) as [Hbx _]; [by eapply list_elem_of_lookup_2|].
    destruct (lookup_lt_is_Some_2 (bar_x b) j) as [c Hc]; [lia|].
    eauto. }
  intros i b j c Hb Hc x I.
  apply (rendered_bars_lookup cv) in Hb as (d' & l & Hd & Hl & ->); [|done].
  apply chart_bar_x_lookup in Hc as [Hj ->].
  assert (0 < k)%nat as Hk by (unfold k; simpl; lia).
  assert (i < k)%nat as Hi by (by apply lookup_lt_Some in Hd).
  destruct (x_width_spec k Hk) as [HwK Hw].
  fold k. cbn [bar_width chart_bar].
  pose proof (scaled_le k 0 i Hk ltac:(lia)) as Hlo.
  change (inject_Z (Z.of_nat 0)) with 0%Q in Hlo.
  pose proof (scaled_le k (S i) k Hk ltac:(lia)) as Hhi.
  subst x I K.
  split; [unfold rendered; cbn [axes xticks]; by apply lookup_numpy_arange|].
  split; [reflexivity|].
  split; [by apply bar_centre|].
  split; [rewrite bar_left_spec; lra|].
  split; [rewrite bar_right_spec; lra|].
  split.
  { intros ->. rewrite bar_left_spec.
    change (inject_Z (Z.of_nat 0)) with 0%Q. lra. }
  split.
  { intros Heq. rewrite bar_right_spec, Heq. lra. }
  intros i' b' c' Hb' Hc' Hlt.
  apply (rendered_bars_lookup cv) in Hb' as (d2 & l2 & Hd2 & Hl2 & ->); [|done].
  apply chart_bar_x_lookup in Hc' as [_ ->].
  fold k. cbn [bar_width chart_bar].
  rewrite bar_left_spec, bar_right_spec. split.
  - pose proof (scaled_le k (S i) i' Hk ltac:(lia)). lra.
  - intros ->. reflexivity.
Qed.

(** ** Input validation *)










(** ** [update_plot] *)

Lemma call_plot_bar_chart_log (ds : list ZernikeDistortion) (ls : list string)
    (m : string) (a : bool) (ui : UI) :
  ∃ tail, Forall is_Unhandled tail ∧
    log (call_plot_bar_chart ds ls m a ui) =
    log ui ++ PlotBarChart ds ls m a :: tail.
Proof.
  unfold call_plot_bar_chart.
  destruct (plot_bar_chart _ _ _ _ _) as [cv'|e after].
  - exists []. split; [constructor|]. done.
  - exists [Unhandled e]. split; [repeat constructor; by exists e|].
    destruct after; cbn; by rewrite <- app_assoc.
Qed.

Lemma update_plot_log (ui : UI) :
  ∃ tail, Forall is_Unhandled tail ∧
    log (update_plot ui) = log ui ++
      match loaded_selection ui with
      | [] => []
      | _ :: _ =>
          let ls := (collect_selected (file_data ui)
                       (selectedItems (file_list ui))).2 in
          if String.prefix "Figure 1" (figure_selector ui) then
            PlotBarChart (loaded_selection ui) ls "x" (abs_checkbox ui) :: tail
          else if String.prefix "Figure 2" (figure_selector ui) then
            PlotBarChart (loaded_selection ui) ls "y" (abs_checkbox ui) :: tail
          else []
      end.
Proof.
  unfold update_plot, update_plot_with, loaded_selection.
  destruct (selectedItems (file_list ui)) as [|it sel] eqn:Esel.
  { exists []. split; [constructor|]. cbn. by rewrite app_nil_r. }
  cbn [canvas_do set_canvas file_data figure_selector abs_checkbox].
  destruct (collect_selected (file_data ui) (it :: sel)) as [ds ls] eqn:Ecol.
  cbn [fst snd].
  destruct ds as [|d ds].
  { exists []. split; [constructor|]. cbn. by rewrite app_nil_r. }
  destruct (String.prefix "Figure 1" (figure_selector ui)).
  { destruct (call_plot_bar_chart_log (d :: ds) ls "x" (abs_checkbox ui)
                (set_canvas (axes_clear (canvas ui)).2 ui)) as (tail & Ht & Hlog).
    exists tail. split; [done|]. exact Hlog. }
  destruct (String.prefix "Figure 2" (figure_selector ui)).
  { destruct (call_plot_bar_chart_log (d :: ds) ls "y" (abs_checkbox ui)
                (set_canvas (axes_clear (canvas ui)).2 ui)) as (tail & Ht & Hlog).
    exists tail. split; [done|]. exact Hlog. }
  exists []. split; [constructor|]. cbn. by rewrite app_nil_r.
Qed.

Lemma new_events_app (ui ui' : UI) (evs : list event) :
  log ui' = log ui ++ evs → new_events ui ui' = evs.
Proof. intros H. unfold new_events. by rewrite H, drop_app_length. Qed.

Lemma prefix_Figure_1_2 (s : string) :
  String.prefix "Figure 1" s = true → String.prefix "Figure 2" s = false.
Proof.
  do 7 (destruct s as [|[[] [] [] [] [] [] [] []] s]; try done).
  destruct s as [|[[] [] [] [] [] [] [] []] s]; done.
Qed.

Lemma collect_selected_pairs (fd : gmap string ZernikeDistortion)
    (sel : list QListWidgetItem) :
  collect_selected fd sel = ((selected_pairs fd sel).*1, (selected_pairs fd sel).*2).
Proof.
  unfold collect_selected, selected_pairs.
  assert (∀ acc : list ZernikeDistortion * list string,
    foldl (λ acc item,
             match fd !! item_text item with
             | Some distortion =>
                 (acc.1 ++ [distortion],
                  acc.2 ++ [truncate_filename (item_text item) 30])
             | None => acc
             end) acc sel =
    (acc.1 ++ (omap (λ item, (λ d, (d, truncate_filename (item_text item) 30))
                               <$> fd !! item_text item) sel).*1,
     acc.2 ++ (omap (λ item, (λ d, (d, truncate_filename (item_text item) 30))
                               <$> fd !! item_text item) sel).*2)) as H.
  { induction sel as [|it sel IH]; intros [a b].
    - cbn. by rewrite !app_nil_r.
    - cbn [foldl omap list_omap]. rewrite IH.
      destruct (fd !! item_text it) as [d|]; cbn; [|done].
      by rewrite <- !app_assoc. }
  apply (H ([], [])).
Qed.

Lemma selected_pairs_loaded (fd : gmap string ZernikeDistortion)
    (sel : list QListWidgetItem) :
  (selected_pairs fd sel).*1 = loaded_among fd sel.
Proof.
  unfold selected_pairs, loaded_among.
  induction sel as [|it sel IH]; [done|].
  cbn [omap list_omap]. destruct (fd !! item_text it) as [d|]; cbn; [|done].
  by rewrite IH.
Qed.

(** Whatever it is called with, [plot_bar_chart] hands the canvas object
    back, by returning it or with the exception. *)
Lemma plot_bar_chart_canvas_after (cv : MplCanvas)
    (distortions labels mode : pyval) (absolute : bool) :
  ∃ cv',
    canvas_after (plot_bar_chart (PyCanvas cv) distortions labels mode absolute)
    = Some cv' ∧
    match plot_bar_chart (PyCanvas cv) distortions labels mode absolute with
    | Return cv'' => cv'' = cv'
    | Raise _ after => after = PyCanvas cv'
    end.
Proof.
  unfold plot_bar_chart. cbn [is_canvas negb].
  repeat (match goal with
          | |- context [if ?b then _ else _] => destruct b
          end; [by exists cv|]).
  destruct mode; try by exists cv.
  destruct (render _ _ _ _ _) as [[e|[]] cv']; by exists cv'.
Qed.

(** The call line of [update_plot], in the vocabulary of [plotted]. *)
Lemma call_plot_bar_chart_plotted (ds : list ZernikeDistortion)
    (ls : list string) (m : string) (a : bool) (before ui : UI) :
  log ui = log before →
  plotted before (call_plot_bar_chart ds ls m a ui) (canvas ui) ds ls m a.
Proof.
  intros Hlog. unfold plotted, call_plot_bar_chart.
  cbn [canvas emit set_log].
  destruct (plot_bar_chart_canvas_after (canvas ui) (PyList (PyZernike <$> ds))
              (PyList (PyStr <$> ls)) (PyStr m) a) as (cv' & Hafter & Hcall).
  cbn zeta. rewrite Hafter.
  destruct (plot_bar_chart _ _ _ _ _) as [cv''|e after].
  - subst cv''. split; [done|].
    apply new_events_app. cbn. by rewrite Hlog.
  - subst after. split; [done|].
    apply new_events_app. cbn. by rewrite Hlog, <- app_assoc.
Qed.

Lemma escaped_Unhandled (o : outcome) : Forall is_Unhandled (escaped o).
Proof. destruct o as [cv|e after]; repeat constructor. by exists e. Qed.

(** [update_plot], case by case, for any list of selected items. *)
Lemma update_plot_with_cases (sel : list QListWidgetItem) (ui : UI) :
  let ds := loaded_among (file_data ui) sel in
  let cleared := {| axes := empty_axes; draws := draws (canvas ui) |} in
  let ui' := update_plot_with sel ui in
  (ds = [] ∧
   ui' = set_canvas {| axes := empty_axes; draws := S (draws (canvas ui)) |} ui)
  ∨
  (ds ≠ [] ∧ ∃ ls, length ls = length ds ∧
     ((String.prefix "Figure 1" (figure_selector ui) = true ∧
       plotted ui ui' cleared ds ls "x" (abs_checkbox ui)) ∨
      (String.prefix "Figure 1" (figure_selector ui) = false ∧
       String.prefix "Figure 2" (figure_selector ui) = true ∧
       plotted ui ui' cleared ds ls "y" (abs_checkbox ui)) ∨
      (String.prefix "Figure 1" (figure_selector ui) = false ∧
       String.prefix "Figure 2" (figure_selector ui) = false ∧
       ui' = set_canvas cleared ui))).
Proof.
  intros ds cleared ui'. subst ui'. unfold update_plot_with.
  pose proof (collect_selected_pairs (file_data ui) sel) as Hcol.
  pose proof (selected_pairs_loaded (file_data ui) sel) as Hload.
  fold ds in Hload.
  destruct sel as [|it sel]; [by left|].
  cbn [canvas_do set_canvas file_data figure_selector abs_checkbox].
  rewrite Hcol, Hload.
  destruct ds as [|d ds'] eqn:Eds; [by left|].
  right. split; [done|].
  exists (selected_pairs (file_data ui) (it :: sel)).*2.
  split; [by rewrite <- Hload, !length_fmap|].
  destruct (String.prefix "Figure 1" (figure_selector ui)) eqn:E1.
  { left. split; [done|].
    by apply (call_plot_bar_chart_plotted _ _ _ _ ui (set_canvas cleared ui)). }
  destruct (String.prefix "Figure 2" (figure_selector ui)) eqn:E2.
  { right. left. split; [done|]. split; [done|].
    by apply (call_plot_bar_chart_plotted _ _ _ _ ui (set_canvas cleared ui)). }
  right. right. done.
Qed.

Lemma new_events_set_canvas (cv : MplCanvas) (ui : UI) :
  new_events ui (set_canvas cv ui) = [].
Proof. unfold new_events. cbn. by rewrite drop_all. Qed.

(** Which calls [update_plot] makes, for any list of selected items: at
    most one, with the checkbox state, and the mode of the figure. *)
Lemma update_plot_with_calls (sel : list QListWidgetItem) (ui : UI)
    (ds : list ZernikeDistortion) (ls : list string) (m : string) (a : bool) :
  PlotBarChart ds ls m a ∈ new_events ui (update_plot_with sel ui) ↔
  ∃ tail, Forall is_Unhandled tail ∧
    new_events ui (update_plot_with sel ui) = PlotBarChart ds ls m a :: tail ∧
    ds = loaded_among (file_data ui) sel ∧ ds ≠ [] ∧
    a = abs_checkbox ui ∧
    ((m = "x" ∧ String.prefix "Figure 1" (figure_selector ui) = true) ∨
     (m = "y" ∧ String.prefix "Figure 2" (figure_selector ui) = true)).
Proof.
  split; [|intros (tail & _ & -> & _); left].
  assert (∀ tail ds' ls' m' a',
    Forall is_Unhandled tail →
    PlotBarChart ds ls m a ∈ PlotBarChart ds' ls' m' a' :: tail →
    ds = ds' ∧ ls = ls' ∧ m = m' ∧ a = a') as Hhead.
  { intros tail ds' ls' m' a' Htail [[= -> -> -> ->]|Hin]%elem_of_cons; [done|].
    rewrite Forall_forall in Htail. by destruct (Htail _ Hin) as [e ?]. }
  destruct (update_plot_with_cases sel ui)
    as [[_ ->]|(Hne & ls0 & _ &
                [(H1 & _ & ->)|[(H1 & H2 & _ & ->)|(_ & _ & ->)]])].
  - rewrite new_events_set_canvas. by intros ?%elem_of_nil.
  - intros Hin.
    destruct (Hhead _ _ _ _ _ (escaped_Unhandled _) Hin) as (-> & -> & -> & ->).
    eexists. split; [apply escaped_Unhandled|]. auto 10.
  - intros Hin.
    destruct (Hhead _ _ _ _ _ (escaped_Unhandled _) Hin) as (-> & -> & -> & ->).
    eexists. split; [apply escaped_Unhandled|]. auto 10.
  - rewrite new_events_set_canvas. by intros ?%elem_of_nil.
Qed.

(** ** Which coefficients are drawn, and how *)

Lemma chart_bar_height_lookup (k T : nat) (mode : string) (absolute : bool)
    (i : nat) (d : ZernikeDistortion) (l : string) (j : nat) :
  (j < T)%nat →
  bar_height (chart_bar k T mode absolute i d l) !! j =
  Some (let c := default 0%Q (select_parameters mode d !! j) in
        if absolute then Qabs c else c).
Proof.
  intros Hj. unfold chart_bar, numpy_abs. cbn [bar_height].
  assert ((select_parameters mode d ++
           replicate (T - length (select_parameters mode d)) 0%Q) !! j =
          Some (default 0%Q (select_parameters mode d !! j))) as Hpad.
  { destruct (select_parameters mode d !! j) as [c|] eqn:E.
    - by rewrite (lookup_app_l_Some _ _ _ _ E).
    - apply lookup_ge_None in E. rewrite lookup_app_r by done.
      rewrite lookup_replicate_2 by lia. done. }
  destruct absolute; [|done].
  by rewrite list_lookup_fmap, Hpad.
Qed.

(** The heights of the chart [rendered]: container [i] holds the
    coefficients of distortion [i] on the axis of the mode, padded with
    zeros to the number of ticks, in absolute value when asked. *)
Lemma rendered_heights (cv : MplCanvas) (d : ZernikeDistortion)
    (ds : list ZernikeDistortion) (labels : list string) (mode : string)
    (absolute : bool) :
  length labels = length (d :: ds) →
  let cv' := rendered cv d ds labels mode absolute in
  length (bars (axes cv')) = length (d :: ds) ∧
  ∀ (i : nat) (d' : ZernikeDistortion),
    (d :: ds) !! i = Some d' →
    ∃ b : BarContainer,
      bars (axes cv') !! i = Some b ∧
      (let p := select_parameters mode d' in
       let padded :=
         p ++ replicate (length (xticklabels (axes cv')) - length p) 0%Q in
       bar_height b = if absolute then Qabs <$> padded else padded) ∧
      ∀ j : nat, (j < length (xticklabels (axes cv')))%nat →
        let c := default 0%Q (select_parameters mode d' !! j) in
        bar_height b !! j = Some (if absolute then Qabs c else c).
Proof.
  intros Hlen cv'. split.
  { unfold cv', rendered. cbn [axes bars]. rewrite length_imap, length_zip. lia. }
  intros i d' Hd.
  destruct (lookup_lt_is_Some_2 labels i) as [l Hl].
  { apply lookup_lt_Some in Hd. lia. }
  exists (chart_bar (length (d :: ds))
            (length (ticklabels mode (max_Nzer d ds))) mode absolute i d' l).
  split; [apply rendered_bars_lookup; eauto|].
  split; [done|].
  intros j Hj. by apply chart_bar_height_lookup.
Qed.

(** When the loaded distortions obey the size discipline, the call
    [update_plot] makes returns, and the canvas holds its chart. *)
Lemma update_plot_with_chart (sel : list QListWidgetItem) (ui : UI)
    (m : string) :
  let loaded := loaded_among (file_data ui) sel in
  let ui' := update_plot_with sel ui in
  Forall fits loaded →
  loaded ≠ [] →
  (m = "x" ∧ String.prefix "Figure 1" (figure_selector ui) = true) ∨
  (m = "y" ∧ String.prefix "Figure 2" (figure_selector ui) = true) →
  ∃ d ds ls,
    loaded = d :: ds ∧ length ls = length loaded ∧
    canvas ui' = rendered (canvas ui) d ds ls m (abs_checkbox ui) ∧
    new_events ui ui' = [PlotBarChart loaded ls m (abs_checkbox ui)].
Proof.
  intros loaded ui' Hfit Hne Hm.
  assert (m = "x" ∨ m = "y") as Hxy by (destruct Hm as [[? _]|[? _]]; auto).
  assert (∃ ls, length ls = length loaded ∧
            plotted ui ui' {| axes := empty_axes; draws := draws (canvas ui) |}
              loaded ls m (abs_checkbox ui)) as (ls & Hls & Hpl).
  { destruct (update_plot_with_cases sel ui)
      as [[? _]|(_ & ls & Hls & [(E1 & Hpl)|[(E1 & E2 & Hpl)|(E1 & E2 & _)]])];
      [done| | |].
    - destruct Hm as [[-> _]|[_ Hp]]; [by exists ls|].
      by rewrite (prefix_Figure_1_2 _ E1) in Hp.
    - destruct Hm as [[_ Hp]|[-> _]]; [congruence | by exists ls].
    - destruct Hm as [[_ Hp]|[_ Hp]]; congruence. }
  destruct loaded as [|d ds] eqn:Eload; [done|].
  exists d, ds, ls. split; [done|]. split; [done|].
  unfold plotted in Hpl. cbn zeta in Hpl.
  rewrite plot_bar_chart_typed in Hpl by done.
  destruct Hpl as [Hafter Hev].
  cbn [canvas_after] in Hafter. injection Hafter as <-.
  split; [done|]. exact Hev.
Qed.

(** C3, as the code has it.
    - A valid call draws, for each distortion, one container whose
      heights are the zero-padded [parameters_x] when [mode] is ["x"] and
      the zero-padded [parameters_y] when [mode] is ["y"] (in absolute
      value when [absolute] is set).
    - In the window, [update_plot] runs [update_plot_with] on the list
      that [selectedItems()] returns, the selected items in some order;
      what follows holds for every list [sel]. Let [loaded] be the
      distortions of the items of [sel] that are loaded. When [loaded]
      is not empty and the selector text starts with ["Figure 1"], the
      canvas is what the call of [plot_bar_chart] on the cleared canvas
      with [loaded], as many labels, mode ["x"] and the checkbox state
      leaves; with ["Figure 2"], the same with mode ["y"]. When [loaded]
      is empty the window changes in nothing but its canvas, cleared and
      drawn once, and no call is made. When [loaded] is not empty and the
      text starts with neither, the axes are cleared and nothing else
      happens. Hence a call with mode ["x"] (with mode ["y"]) is made
      exactly when the text starts with ["Figure 1"] (["Figure 2"]) and
      some item of [sel] is loaded.
    - When moreover the loaded distortions obey the size discipline of
      their class, the canvas of the window then shows one container for
      each of them, in the order of [loaded], with the zero-padded
      [parameters_x] as heights under ["Figure 1"] and the zero-padded
      [parameters_y] under ["Figure 2"]. *)
Theorem plot_mode_selects_parameters (cv : MplCanvas) (d : ZernikeDistortion)
    (ds : list ZernikeDistortion) (labels : list string) (mode : string)
    (absolute : bool) (sel : list QListWidgetItem) (ui : UI) :
  length labels = length (d :: ds) →
  mode = "x" ∨ mode = "y" →
  Forall (fits_layout mode (max_Nzer d ds)) (d :: ds) →
  (∃ cv',
     plot_bar_chart (PyCanvas cv) (PyList (PyZernike <$> d :: ds))
       (PyList (PyStr <$> labels)) (PyStr mode) absolute = Return cv' ∧
     length (bars (axes cv')) = length (d :: ds) ∧
     ∀ (i : nat) (d' : ZernikeDistortion),
       (d :: ds) !! i = Some d' →
       ∃ (b : BarContainer) (p : list Q),
         bars (axes cv') !! i = Some b ∧
         (mode = "x" → p = parameters_x d') ∧
         (mode = "y" → p = parameters_y d') ∧
         let padded :=
           p ++ replicate (length (xticklabels (axes cv')) - length p) 0%Q in
         bar_height b = if absolute then Qabs <$> padded else padded) ∧
  (∃ sel0, sel0 ≡ₚ selectedItems (file_list ui) ∧
           update_plot ui = update_plot_with sel0 ui) ∧
  let ui' := update_plot_with sel ui in
  let loaded := loaded_among (file_data ui) sel in
  let cleared := {| axes := empty_axes; draws := draws (canvas ui) |} in
  (loaded ≠ [] → String.prefix "Figure 1" (figure_selector ui) = true →
   ∃ ls, length ls = length loaded ∧
         plotted ui ui' cleared loaded ls "x" (abs_checkbox ui)) ∧
  (loaded ≠ [] → String.prefix "Figure 2" (figure_selector ui) = true →
   ∃ ls, length ls = length loaded ∧
         plotted ui ui' cleared loaded ls "y" (abs_checkbox ui)) ∧
  (loaded = [] →
   ui' = set_canvas
           {| axes := empty_axes; draws := S (draws (canvas ui)) |} ui ∧
   new_events ui ui' = []) ∧
  (String.prefix "Figure 1" (figure_selector ui) = false →
   String.prefix "Figure 2" (figure_selector ui) = false →
   loaded ≠ [] → ui' = set_canvas cleared ui) ∧
  (plots_with_mode "x" (new_events ui ui') ↔
   String.prefix "Figure 1" (figure_selector ui) = true ∧ loaded ≠ []) ∧
  (plots_with_mode "y" (new_events ui ui') ↔
   String.prefix "Figure 2" (figure_selector ui) = true ∧ loaded ≠ []) ∧
  (Forall fits loaded → loaded ≠ [] →
   String.prefix "Figure 1" (figure_selector ui) = true ∨
   String.prefix "Figure 2" (figure_selector ui) = true →
   length (bars (axes (canvas ui'))) = length loaded ∧
   ∀ (i : nat) (d' : ZernikeDistortion),
     loaded !! i = Some d' →
     ∃ (b : BarContainer) (p : list Q),
       bars (axes (canvas ui')) !! i = Some b ∧
       (String.prefix "Figure 1" (figure_selector ui) = true →
        p = parameters_x d') ∧
       (String.prefix "Figure 2" (figure_selector ui) = true →
        p = parameters_y d') ∧
       let padded :=
         p ++ replicate
                (length (xticklabels (axes (canvas ui'))) - length p) 0%Q in
       bar_height b = if abs_checkbox ui then Qabs <$> padded else padded).
Proof.
  intros Hlen Hmode Hfit. split; [|split; [by eexists|]].
  { exists (rendered cv d ds labels mode absolute).
    split; [by apply plot_bar_chart_returns|].
    split.
    { unfold rendered. cbn [axes bars]. rewrite length_imap, length_zip. lia. }
    intros i d' Hd.
    destruct (lookup_lt_is_Some_2 labels i) as [l Hl].
    { apply lookup_lt_Some in Hd. lia. }
    exists (chart_bar (length (d :: ds))
              (length (ticklabels mode (max_Nzer d ds))) mode absolute i d' l),
           (select_parameters mode d').
    split; [apply rendered_bars_lookup; eauto|].
    split; [by intros ->|]. split; [by intros ->|]. done. }
  intros ui' loaded cleared.
  pose proof (update_plot_with_cases sel ui) as Hcases.
  fold ui' loaded cleared in Hcases.
  split; [|split; [|split; [|split; [|split; [|split]]]]].
  - intros Hne Hp.
    destruct Hcases as [[? _]|(_ & ls & Hls & [(_ & Hpl)|[(E1 & _)|(E1 & _)]])];
      [done| |congruence|congruence].
    by exists ls.
  - intros Hne Hp.
    destruct Hcases as [[? _]|(_ & ls & Hls & [(E1 & _)|[(_ & _ & Hpl)|(_ & E2 & _)]])];
      [done| | |congruence].
    + by rewrite (prefix_Figure_1_2 _ E1) in Hp.
    + by exists ls.
  - intros Hnone.
    destruct Hcases as [[_ Heq]|(Hne & _)]; [|done].
    split; [done|]. rewrite Heq. apply new_events_set_canvas.
  - intros E1 E2 Hne.
    destruct Hcases
      as [[? _]|(_ & ls & Hls & [(? & _)|[(_ & ? & _)|(_ & _ & Heq)]])];
      [done|congruence|congruence|exact Heq].
  - unfold plots_with_mode. split.
    + intros (ds' & ls' & a & Hin).
      apply update_plot_with_calls in Hin
        as (_ & _ & _ & -> & Hne & _ & [[_ H]|[? _]]); done.
    + intros [Hp Hne].
      destruct Hcases as [[? _]|(_ & ls & Hls & [(_ & _ & Hev)|[(E1 & _)|(E1 & _)]])];
        [done| |congruence|congruence].
      exists loaded, ls, (abs_checkbox ui). rewrite Hev. left.
  - unfold plots_with_mode. split.
    + intros (ds' & ls' & a & Hin).
      apply update_plot_with_calls in Hin
        as (_ & _ & _ & -> & Hne & _ & [[? _]|[_ H]]); done.
    + intros [Hp Hne].
      destruct Hcases as [[? _]|(_ & ls & Hls & [(E1 & _)|[(_ & _ & _ & Hev)|(_ & E2 & _)]])];
        [done| | |congruence].
      * by rewrite (prefix_Figure_1_2 _ E1) in Hp.
      * exists loaded, ls, (abs_checkbox ui). rewrite Hev. left.
  - intros Hfits Hne Hp.
    assert (∃ m, (m = "x" ∧
                  String.prefix "Figure 1" (figure_selector ui) = true ∧
                  String.prefix "Figure 2" (figure_selector ui) = false) ∨
                 (m = "y" ∧
                  String.prefix "Figure 1" (figure_selector ui) = false ∧
                  String.prefix "Figure 2" (figure_selector ui) = true))
      as (m & Hm).
    { destruct (String.prefix "Figure 1" (figure_selector ui)) eqn:E1.
      - exists "x". left. by rewrite (prefix_Figure_1_2 _ E1).
      - exists "y". right. destruct Hp; [done|auto]. }
    destruct (update_plot_with_chart sel ui m Hfits Hne)
      as (d0 & ds0 & ls & Hload & Hls & Hcv & _).
    { destruct Hm as [(-> & ? & _)|(-> & _ & ?)]; auto. }
    fold ui' in Hcv. fold loaded in Hload, Hls. rewrite Hcv, Hload.
    rewrite Hload in Hls.
    destruct (rendered_heights (canvas ui) d0 ds0 ls m (abs_checkbox ui) Hls)
      as [Hk Hbars].
    split; [exact Hk|].
    intros i d' Hd. destruct (Hbars i d' Hd) as (b & Hb & Hh & _).
    exists b, (select_parameters m d'). split; [exact Hb|].
    destruct Hm as [(-> & E1 & E2)|(-> & E1 & E2)].
    + split; [done|]. split; [congruence|]. exact Hh.
    + split; [congruence|]. split; [done|]. exact Hh.
Qed.

(** The startup window refutes C3 as worded: the selector text starts with
    ["Figure 1"], yet [update_plot] plots nothing, no file being selected. *)
Lemma update_plot_without_selection :
  String.prefix "Figure 1" (figure_selector init_UI) = true ∧
  ¬ plots_with_mode "x" (new_events init_UI (update_plot init_UI)).
Proof.
  split; [done|]. intros (ds & ls & a & Hin). vm_compute in Hin.
  by apply elem_of_nil in Hin.
Qed.

(** C4.
    - In a valid call, bar [j] of every distortion has the height of its
      zero-padded coefficient [j], in absolute value when [absolute] is
      set and unchanged otherwise.
    - In the window, [update_plot] runs [update_plot_with] on the list
      that [selectedItems()] returns, the selected items in some order;
      what follows holds for every list [sel]. Every call it makes has
      the state of the checkbox as [absolute]. When some item of [sel] is loaded and a figure is
      chosen, the canvas is what the call of [plot_bar_chart] on the
      cleared canvas with the loaded distortions, as many labels, the
      mode of the figure and the state of the checkbox as [absolute]
      leaves.
    - When moreover the loaded distortions obey the size discipline of
      their class, bar [j] of loaded distortion [i] on the canvas of the
      window has the height of its zero-padded coefficient [j], in
      absolute value when the checkbox is checked and unchanged when it
      is not. *)
Theorem plot_absolute_heights (cv : MplCanvas) (d : ZernikeDistortion)
    (ds : list ZernikeDistortion) (labels : list string) (mode : string)
    (absolute : bool) (sel : list QListWidgetItem) (ui : UI) :
  length labels = length (d :: ds) →
  mode = "x" ∨ mode = "y" →
  Forall (fits_layout mode (max_Nzer d ds)) (d :: ds) →
  (∃ cv',
     plot_bar_chart (PyCanvas cv) (PyList (PyZernike <$> d :: ds))
       (PyList (PyStr <$> labels)) (PyStr mode) absolute = Return cv' ∧
     length (bars (axes cv')) = length (d :: ds) ∧
     ∀ (i : nat) (d' : ZernikeDistortion) (j : nat),
       (d :: ds) !! i = Some d' →
       (j < length (xticklabels (axes cv')))%nat →
       ∃ b : BarContainer,
         bars (axes cv') !! i = Some b ∧
         let c := default 0%Q (select_parameters mode d' !! j) in
         bar_height b !! j = Some (if absolute then Qabs c else c)) ∧
  (∃ sel0, sel0 ≡ₚ selectedItems (file_list ui) ∧
           update_plot ui = update_plot_with sel0 ui) ∧
  let ui' := update_plot_with sel ui in
  let loaded := loaded_among (file_data ui) sel in
  let cleared := {| axes := empty_axes; draws := draws (canvas ui) |} in
  (∀ ds' ls' m a,
     PlotBarChart ds' ls' m a ∈ new_events ui ui' → a = abs_checkbox ui) ∧
  (loaded ≠ [] →
   String.prefix "Figure 1" (figure_selector ui) = true ∨
   String.prefix "Figure 2" (figure_selector ui) = true →
   ∃ ls m,
     length ls = length loaded ∧
     ((m = "x" ∧ String.prefix "Figure 1" (figure_selector ui) = true) ∨
      (m = "y" ∧ String.prefix "Figure 2" (figure_selector ui) = true)) ∧
     plotted ui ui' cleared loaded ls m (abs_checkbox ui)) ∧
  (Forall fits loaded → loaded ≠ [] →
   String.prefix "Figure 1" (figure_selector ui) = true ∨
   String.prefix "Figure 2" (figure_selector ui) = true →
   ∃ m,
     ((m = "x" ∧ String.prefix "Figure 1" (figure_selector ui) = true) ∨
      (m = "y" ∧ String.prefix "Figure 2" (figure_selector ui) = true)) ∧
     length (bars (axes (canvas ui'))) = length loaded ∧
     ∀ (i : nat) (d' : ZernikeDistortion) (j : nat),
       loaded !! i = Some d' →
       (j < length (xticklabels (axes (canvas ui'))))%nat →
       ∃ b : BarContainer,
         bars (axes (canvas ui')) !! i = Some b ∧
         let c := default 0%Q (select_parameters m d' !! j) in
         bar_height b !! j = Some (if abs_checkbox ui then Qabs c else c)).
Proof.
  intros Hlen Hmode Hfit. split; [|split; [by eexists|]].
  { exists (rendered cv d ds labels mode absolute).
    split; [by apply plot_bar_chart_returns|].
    split.
    { unfold rendered. cbn [axes bars]. rewrite length_imap, length_zip. lia. }
    intros i d' j Hd Hj.
    destruct (lookup_lt_is_Some_2 labels i) as [l Hl].
    { apply lookup_lt_Some in Hd. lia. }
    eexists. split; [apply rendered_bars_lookup; eauto|].
    by apply chart_bar_height_lookup. }
  intros ui' loaded cleared. split; [|split].
  - intros ds' ls' m a Hin.
    by apply update_plot_with_calls in Hin as (_ & _ & _ & _ & _ & -> & _).
  - intros Hne Hp.
    destruct (update_plot_with_cases sel ui)
      as [[? _]|(_ & ls & Hls & [(E1 & Hpl)|[(_ & E2 & Hpl)|(E1 & E2 & _)]])];
      [done| | |destruct Hp; congruence].
    + exists ls, "x". auto.
    + exists ls, "y". auto.
  - intros Hfits Hne Hp.
    assert (∃ m, (m = "x" ∧
                  String.prefix "Figure 1" (figure_selector ui) = true) ∨
                 (m = "y" ∧
                  String.prefix "Figure 2" (figure_selector ui) = true))
      as (m & Hm).
    { destruct Hp; [exists "x" | exists "y"]; auto. }
    destruct (update_plot_with_chart sel ui m Hfits Hne Hm)
      as (d0 & ds0 & ls & Hload & Hls & Hcv & _).
    fold ui' in Hcv. fold loaded in Hload, Hls. rewrite Hcv, Hload.
    rewrite Hload in Hls.
    destruct (rendered_heights (canvas ui) d0 ds0 ls m (abs_checkbox ui) Hls)
      as [Hk Hbars].
    exists m. split; [exact Hm|].
    split; [exact Hk|].
    intros i d' j Hd Hj. destruct (Hbars i d' Hd) as (b & Hb & _ & Hh).
    exists b. split; [exact Hb|]. by apply Hh.
Qed.

(** ** Operations that only plot *)

Lemma update_plot_file_data (ui : UI) :
  file_data (update_plot ui) = file_data ui ∧
  file_list (update_plot ui) = file_list ui ∧
  figure_selector (update_plot ui) = figure_selector ui ∧
  abs_checkbox (update_plot ui) = abs_checkbox ui ∧
  statusbar (update_plot ui) = statusbar ui ∧
  drop_label (update_plot ui) = drop_label ui.
Proof.
  unfold update_plot, update_plot_with.
  destruct (selectedItems (file_list ui)); [done|].
  destruct (collect_selected _ _) as [[|d ds] ls]; [done|].
  destruct (String.prefix "Figure 1" _).
  { unfold call_plot_bar_chart.
    destruct (plot_bar_chart _ _ _ _ _) as [?|? []]; done. }
  destruct (String.prefix "Figure 2" _); [|done].
  unfold call_plot_bar_chart.
  destruct (plot_bar_chart _ _ _ _ _) as [?|? []]; done.
Qed.

Lemma is_Unhandled_plot_event (evs : list event) :
  Forall is_Unhandled evs → Forall is_plot_event evs.
Proof. intros H. eapply Forall_impl; [exact H|]. by intros ev [e ->]. Qed.

Lemma quiet_update_plot : quiet update_plot.
Proof.
  intros ui. destruct (update_plot_file_data ui) as (Hd & Hl & _).
  unfold only_plots. rewrite Hd, Hl. do 3 (split; [done|]).
  destruct (update_plot_log ui) as (tail & Htail & Hlog).
  eexists. split; [exact Hlog|].
  apply is_Unhandled_plot_event in Htail.
  destruct (loaded_selection ui); [constructor|]. cbn zeta.
  repeat case_match; try constructor; done.
Qed.

Lemma quiet_id : quiet (λ ui, ui).
Proof.
  intros ui. unfold only_plots. do 3 (split; [done|]).
  exists []. by rewrite app_nil_r.
Qed.

Lemma quiet_compose (f g : UI → UI) : quiet f → quiet g → quiet (λ ui, g (f ui)).
Proof.
  intros Hf Hg ui.
  destruct (Hf ui) as (Hd1 & Hr1 & Hn1 & evs1 & Hl1 & He1).
  destruct (Hg (f ui)) as (Hd2 & Hr2 & Hn2 & evs2 & Hl2 & He2).
  split; [congruence|]. split; [congruence|]. split; [congruence|].
  exists (evs1 ++ evs2). split; [|by apply Forall_app].
  by rewrite Hl2, Hl1, app_assoc.
Qed.

Lemma quiet_foldl {A} (step : UI → A → UI) (l : list A) :
  (∀ x, quiet (λ ui, step ui x)) → quiet (λ ui, foldl step ui l).
Proof.
  intros Hstep. induction l as [|x l IH]; [apply quiet_id|].
  cbn [foldl]. apply (quiet_compose (λ ui, step ui x) (λ ui, foldl step ui l));
    [apply Hstep | exact IH].
Qed.

Lemma rows_mark_selected (id : nat) (w : QListWidget) :
  rows (mark_selected id w) = rows w.
Proof.
  unfold rows, mark_selected. cbn [items].
  rewrite <- list_fmap_compose. apply list_fmap_ext.
  intros i it _. cbn. by destruct (decide _).
Qed.

Lemma quiet_setSelected_True (item : QListWidgetItem) :
  quiet (setSelected_True item).
Proof.
  intros ui. unfold setSelected_True.
  destruct (list_find _ _) as [[i it]|]; [|apply quiet_id].
  destruct (item_selected it); [apply quiet_id|].
  destruct (quiet_update_plot
              (set_file_list (mark_selected (item_id item) (file_list ui)) ui))
    as (Hd & Hr & Hn & Hev).
  unfold only_plots.
  split; [exact Hd|]. split; [|split; [exact Hn | exact Hev]].
  rewrite Hr. cbn [file_list set_file_list]. apply rows_mark_selected.
Qed.

Lemma quiet_user_select (sel : nat → bool) : quiet (user_select sel).
Proof.
  intros ui. unfold user_select.
  match goal with |- context [update_plot ?u] =>
    destruct (quiet_update_plot u) as (Hd & Hr & Hn & Hev) end.
  unfold only_plots.
  split; [exact Hd|]. split; [|split; [exact Hn | exact Hev]].
  rewrite Hr. unfold rows. cbn [file_list set_file_list items].
  by rewrite <- list_fmap_compose.
Qed.

Lemma quiet_user_pick_figure (text : string) : quiet (user_pick_figure text).
Proof.
  intros ui. unfold user_pick_figure.
  match goal with |- context [update_plot ?u] =>
    destruct (quiet_update_plot u) as (Hd & Hr & Hn & Hev) end.
  done.
Qed.

Lemma quiet_user_toggle_abs : quiet user_toggle_abs.
Proof.
  intros ui. unfold user_toggle_abs.
  match goal with |- context [update_plot ?u] =>
    destruct (quiet_update_plot u) as (Hd & Hr & Hn & Hev) end.
  done.
Qed.

(** ** Well-formed windows *)

Lemma texts_rows (ui : UI) : texts ui = (rows (file_list ui)).*2.
Proof. unfold texts, rows. by rewrite <- list_fmap_compose. Qed.

Lemma ids_rows (w : QListWidget) : item_id <$> items w = (rows w).*1.
Proof. unfold rows. by rewrite <- list_fmap_compose. Qed.

Lemma ids_below_rows (w : QListWidget) (nx : nat) :
  Forall (λ it, (item_id it < nx)%nat) (items w) ↔
  Forall (λ r, (r.1 < nx)%nat) (rows w).
Proof. unfold rows. by rewrite Forall_fmap. Qed.

Lemma well_formed_core (ui : UI) :
  well_formed ui ↔
  core_ok (file_data ui) (rows (file_list ui)) (next_id (file_list ui)).
Proof.
  unfold well_formed, ids_wf, consistent, core_ok.
  rewrite texts_rows, ids_rows, ids_below_rows. tauto.
Qed.

Lemma only_plots_well_formed (ui ui' : UI) :
  only_plots ui ui' → well_formed ui → well_formed ui'.
Proof.
  intros (Hd & Hr & Hn & _). rewrite !well_formed_core.
  by rewrite Hd, Hr, Hn.
Qed.

Lemma only_plots_refl (ui : UI) : only_plots ui ui.
Proof. apply quiet_id. Qed.

Lemma only_plots_trans (ui1 ui2 ui3 : UI) :
  only_plots ui1 ui2 → only_plots ui2 ui3 → only_plots ui1 ui3.
Proof.
  intros (Hd1 & Hr1 & Hn1 & evs1 & Hl1 & He1)
         (Hd2 & Hr2 & Hn2 & evs2 & Hl2 & He2).
  split; [congruence|]. split; [congruence|]. split; [congruence|].
  exists (evs1 ++ evs2). split; [|by apply Forall_app].
  by rewrite Hl2, Hl1, app_assoc.
Qed.

Lemma core_ok_add (fd : gmap string ZernikeDistortion)
    (rs : list (nat * string)) (nx : nat) (p : string) (d : ZernikeDistortion) :
  p ∉ dom fd → core_ok fd rs nx →
  core_ok (<[p := d]> fd) (rs ++ [(nx, p)]) (S nx).
Proof.
  intros Hp (Hdom & Htexts & Hids & Hlt). unfold core_ok.
  rewrite !fmap_app, dom_insert_L, list_to_set_app_L, Hdom. cbn.
  split; [set_solver|]. split; [|split].
  - apply NoDup_app. split; [done|]. split; [|apply NoDup_singleton].
    intros q Hq ->%list_elem_of_singleton. apply Hp. rewrite Hdom.
    by apply elem_of_list_to_set.
  - apply NoDup_app. split; [done|]. split; [|apply NoDup_singleton].
    intros i Hi ->%list_elem_of_singleton.
    apply list_elem_of_fmap in Hi as ([i' q] & -> & Hi).
    rewrite Forall_forall in Hlt. specialize (Hlt _ Hi). cbn in Hlt. lia.
  - apply Forall_app. split.
    + eapply Forall_impl; [exact Hlt|]. cbn. lia.
    + constructor; [cbn; lia | constructor].
Qed.

Section loading.
Context (read_transform : string → exn + ZernikeDistortion).

Lemma rows_addItem (p : string) (w : QListWidget) :
  rows (addItem p w) = rows w ++ [(next_id w, p)].
Proof. unfold rows, addItem. cbn [items]. by rewrite fmap_app. Qed.

Lemma try_load_effect (excl : string → Prop) (p : string) (ui : UI) :
  ¬ excl p → p ∉ dom (file_data ui) →
  load_effect read_transform excl ui p (try_load read_transform p ui).1.
Proof.
  intros Hex Hp. right. split; [done|]. split; [done|].
  unfold try_load. destruct (read_transform p) as [e|d]; cbn.
  - by rewrite <- app_assoc.
  - unfold rows. cbn. by rewrite fmap_app.
Qed.

Lemma drop_load_step_effect (ui : UI) (n : nat) (p : string) :
  load_effect read_transform (λ q, q = "") ui p
    (drop_load_step read_transform (ui, n) p).1.
Proof.
  unfold drop_load_step.
  destruct (bool_decide (p = "")) eqn:E1.
  { apply bool_decide_eq_true in E1. left. split; [by left|].
    apply only_plots_refl. }
  destruct (bool_decide (p ∈ dom (file_data ui))) eqn:E2.
  { apply bool_decide_eq_true in E2. left. split; [by right|].
    apply only_plots_refl. }
  apply bool_decide_eq_false in E1, E2. cbn [orb].
  pose proof (try_load_effect (λ q, q = "") p ui E1 E2) as H.
  by destruct (try_load read_transform p ui).
Qed.

Lemma drop_load_run (urls : list string) :
  ∀ (ui : UI) (n : nat),
  load_run read_transform (λ q, q = "") urls ui
    (foldl (drop_load_step read_transform) (ui, n) urls).1.
Proof.
  induction urls as [|p urls IH]; intros ui n; [constructor|].
  cbn [foldl].
  pose proof (drop_load_step_effect ui n p) as Hstep.
  destruct (drop_load_step read_transform (ui, n) p) as [ui1 n1].
  econstructor; [exact Hstep | apply IH].
Qed.

Lemma open_load_step_effect (ui : UI) (p : string) :
  load_effect read_transform (λ _, False) ui p
    (open_load_step read_transform ui p).
Proof.
  unfold open_load_step.
  destruct (bool_decide (p ∈ dom (file_data ui))) eqn:E.
  - apply bool_decide_eq_true in E. left. split; [by right|].
    destruct (findItems p (file_list ui)) as [|item ?];
      [apply only_plots_refl | apply quiet_setSelected_True].
  - apply bool_decide_eq_false in E. apply try_load_effect; [tauto | done].
Qed.

Lemma open_load_run (paths : list string) :
  ∀ ui : UI,
  load_run read_transform (λ _, False) paths ui
    (foldl (open_load_step read_transform) ui paths).
Proof.
  induction paths as [|p paths IH]; intros ui; [constructor|].
  cbn [foldl]. econstructor; [apply open_load_step_effect | apply IH].
Qed.
End loading.

(** ** What a loading loop does *)

Section load_run_facts.
Context (read_transform : string → exn + ZernikeDistortion).
Context (excl : string → Prop).

(** One visit, case by case. *)
Lemma load_effect_cases (ui : UI) (p : string) (ui' : UI) :
  load_effect read_transform excl ui p ui' →
  ∃ evs, log ui' = log ui ++ evs ∧
    ((file_data ui' = file_data ui ∧
      rows (file_list ui') = rows (file_list ui) ∧
      next_id (file_list ui') = next_id (file_list ui) ∧
      ((excl p ∨ p ∈ dom (file_data ui)) ∧ Forall is_plot_event evs ∨
       ∃ e, ¬ excl p ∧ (p ∉ dom (file_data ui)) ∧ read_transform p = inl e ∧
            evs = [ReadTransform p; read_warning p e])) ∨
     (∃ d, ¬ excl p ∧ (p ∉ dom (file_data ui)) ∧ read_transform p = inr d ∧
           file_data ui' = <[p := d]> (file_data ui) ∧
           rows (file_list ui') =
             rows (file_list ui) ++ [(next_id (file_list ui), p)] ∧
           next_id (file_list ui') = S (next_id (file_list ui)) ∧
           evs = [ReadTransform p])).
Proof.
  intros [[Hskip (Hd & Hr & Hn & evs & Hlog & Hevs)]|(Hex & Hp & Hread)].
  - exists evs. split; [done|]. left. eauto 10.
  - destruct (read_transform p) as [e|d] eqn:E.
    + destruct Hread as (Hd & Hr & Hn & Hlog).
      eexists. split; [exact Hlog|]. left. eauto 12.
    + destruct Hread as (Hd & Hr & Hn & Hlog).
      eexists. split; [exact Hlog|]. right. eauto 12.
Qed.

Lemma load_effect_mono (ui : UI) (p : string) (ui' : UI) (q : string)
    (d : ZernikeDistortion) :
  load_effect read_transform excl ui p ui' →
  file_data ui !! q = Some d → file_data ui' !! q = Some d.
Proof.
  intros (evs & _ & [(Hd & _)|(d' & _ & Hp & _ & Hd & _)])%load_effect_cases Hq;
    rewrite Hd; [done|].
  rewrite lookup_insert_ne; [done|]. intros ->.
  apply Hp, elem_of_dom. eauto.
Qed.

Lemma load_effect_texts_mono (ui : UI) (p : string) (ui' : UI) (q : string) :
  load_effect read_transform excl ui p ui' →
  q ∈ (rows (file_list ui)).*2 → q ∈ (rows (file_list ui')).*2.
Proof.
  intros (evs & _ & [(_ & Hr & _)|(d' & _ & _ & _ & _ & Hr & _)])%load_effect_cases Hq;
    rewrite Hr; [done|].
  rewrite fmap_app. apply elem_of_app. by left.
Qed.

Lemma load_effect_well_formed (ui : UI) (p : string) (ui' : UI) :
  load_effect read_transform excl ui p ui' → well_formed ui → well_formed ui'.
Proof.
  intros (evs & _ & [(Hd & Hr & Hn & _)|(d' & _ & Hp & _ & Hd & Hr & Hn & _)])
           %load_effect_cases;
    rewrite !well_formed_core, Hd, Hr, Hn; [done|].
  by apply core_ok_add.
Qed.

Lemma load_run_mono (urls : list string) (ui ui' : UI) (q : string)
    (d : ZernikeDistortion) :
  load_run read_transform excl urls ui ui' →
  file_data ui !! q = Some d → file_data ui' !! q = Some d.
Proof.
  induction 1 as [|p urls ui ui1 ui' Hstep _ IH]; [done|].
  intros Hq. apply IH. by eapply load_effect_mono.
Qed.

Lemma load_run_texts_mono (urls : list string) (ui ui' : UI) (q : string) :
  load_run read_transform excl urls ui ui' →
  q ∈ (rows (file_list ui)).*2 → q ∈ (rows (file_list ui')).*2.
Proof.
  induction 1 as [|p urls ui ui1 ui' Hstep _ IH]; [done|].
  intros Hq. apply IH. by eapply load_effect_texts_mono.
Qed.

Lemma load_run_well_formed (urls : list string) (ui ui' : UI) :
  load_run read_transform excl urls ui ui' → well_formed ui → well_formed ui'.
Proof.
  induction 1 as [|p urls ui ui1 ui' Hstep _ IH]; [done|].
  intros Hwf. apply IH. by eapply load_effect_well_formed.
Qed.

(** A batch of paths that are all excluded or loaded only plots. *)
Lemma load_run_all_loaded (urls : list string) (ui ui' : UI) :
  load_run read_transform excl urls ui ui' →
  Forall (λ p, excl p ∨ p ∈ dom (file_data ui)) urls →
  only_plots ui ui'.
Proof.
  induction 1 as [ui|p urls ui ui1 ui' Hstep _ IH];
    [intros _; apply only_plots_refl|].
  intros [Hp Hall]%Forall_cons.
  destruct Hstep as [[_ Hplots]|(Hex & Hnp & _)]; [|tauto].
  apply (only_plots_trans _ ui1); [done|]. apply IH.
  destruct Hplots as (Hd & _). by rewrite Hd.
Qed.

(** Every path of the batch that is neither excluded nor loaded is
    read; it is loaded if the read succeeds and reported if not. *)
Lemma load_run_events (urls : list string) (ui ui' : UI) :
  load_run read_transform excl urls ui ui' →
  ∃ evs, log ui' = log ui ++ evs ∧
    ∀ q, q ∈ urls → ¬ excl q → q ∉ dom (file_data ui) →
      ReadTransform q ∈ evs ∧
      match read_transform q with
      | inr d => file_data ui' !! q = Some d ∧ q ∈ (rows (file_list ui')).*2
      | inl e => read_warning q e ∈ evs
      end.
Proof.
  induction 1 as [ui|p urls ui ui1 ui' Hstep Hrun IH].
  { exists []. split; [by rewrite app_nil_r|]. by intros q ?%elem_of_nil. }
  destruct IH as (evs1 & Hlog1 & IH).
  pose proof Hstep as (evs0 & Hlog0 & Hcases)%load_effect_cases.
  exists (evs0 ++ evs1). split; [by rewrite Hlog1, Hlog0, app_assoc|].
  intros q Hq Hex Hnq.
  destruct (decide (q = p)) as [->|Hne].
  - destruct Hcases as [(_ & _ & _ & [[[?|?] _]|(e & _ & _ & Hread & ->)])
                       |(d & _ & _ & Hread & Hd & Hr & _ & ->)];
      [done|done| |]; rewrite Hread.
    + split; apply elem_of_app; left; [left | right; left].
    + split; [apply elem_of_app; left; left|]. split.
      * eapply load_run_mono; [done|]. by rewrite Hd, lookup_insert_eq.
      * eapply load_run_texts_mono; [done|]. rewrite Hr, fmap_app.
        apply elem_of_app. right. cbn. left.
  - apply elem_of_cons in Hq as [?|Hq]; [done|].
    assert (q ∉ dom (file_data ui1)) as Hnq1.
    { destruct Hcases as [(Hd & _)|(d & _ & _ & _ & Hd & _)]; rewrite Hd;
        [done|]. rewrite dom_insert_L. set_solver. }
    destruct (IH q Hq Hex Hnq1) as [Hr Hres].
    split; [apply elem_of_app; by right|].
    destruct (read_transform q); [apply elem_of_app; by right | done].
Qed.

(** A path whose read fails is never added, whatever else the batch
    holds. *)
Lemma load_run_failed (urls : list string) (ui ui' : UI) (q : string)
    (e : exn) :
  load_run read_transform excl urls ui ui' →
  read_transform q = inl e →
  file_data ui' !! q = file_data ui !! q ∧
  (q ∈ (rows (file_list ui')).*2 ↔ q ∈ (rows (file_list ui)).*2).
Proof.
  intros Hrun Hread.
  induction Hrun as [ui|p urls ui ui1 ui' Hstep _ IH]; [done|].
  destruct IH as [IHd IHr]. rewrite IHd, IHr.
  apply load_effect_cases in Hstep
    as (evs & _ & [(Hd & Hr & _)|(d & _ & _ & Hp & Hd & Hr & _)]);
    rewrite Hd, Hr; [done|].
  assert (p ≠ q) as Hne by (intros ->; congruence).
  rewrite lookup_insert_ne by done. split; [done|].
  rewrite fmap_app, elem_of_app. cbn. rewrite list_elem_of_singleton.
  naive_solver.
Qed.
End load_run_facts.

Section load_run_shape.
Context (read_transform : string → exn + ZernikeDistortion).
Context (excl : string → Prop).

(** A loading loop only appends: events to the log, rows to the list; and
    what it reads or appends was not loaded before. *)
Lemma load_run_appends (urls : list string) (ui ui' : UI) :
  load_run read_transform excl urls ui ui' →
  ∃ evs new,
    log ui' = log ui ++ evs ∧
    rows (file_list ui') = rows (file_list ui) ++ new ∧
    dom (file_data ui) ⊆ dom (file_data ui') ∧
    ∀ q, ReadTransform q ∈ evs ∨ q ∈ new.*2 → q ∉ dom (file_data ui).
Proof.
  induction 1 as [ui|p urls ui ui1 ui' Hstep Hrun IH].
  { exists [], []. rewrite !app_nil_r. split; [done|]. split; [done|].
    split; [done|]. intros q [?%elem_of_nil|?%elem_of_nil]; done. }
  destruct IH as (evs1 & new1 & Hlog1 & Hrows1 & Hdom1 & IH).
  apply load_effect_cases in Hstep as (evs0 & Hlog0 & Hcases).
  destruct Hcases as [(Hd & Hr & _ & Hev)|(d & _ & Hp & _ & Hd & Hr & _ & ->)].
  - exists (evs0 ++ evs1), new1.
    split; [by rewrite Hlog1, Hlog0, app_assoc|].
    split; [by rewrite Hrows1, Hr|].
    split; [by rewrite <- Hd|].
    intros q [Hq|Hq]; [|rewrite <- Hd; apply IH; by right].
    apply elem_of_app in Hq as [Hq|Hq]; [|rewrite <- Hd; apply IH; by left].
    destruct Hev as [[_ Hplots]|(e & _ & Hp & _ & ->)].
    + rewrite Forall_forall in Hplots. by destruct (Hplots _ Hq).
    + apply elem_of_cons in Hq as [[= ->]|Hq]; [done|].
      by apply list_elem_of_singleton in Hq.
  - exists ([ReadTransform p] ++ evs1), ([(next_id (file_list ui), p)] ++ new1).
    split; [by rewrite Hlog1, Hlog0, app_assoc|].
    split; [by rewrite Hrows1, Hr, app_assoc|].
    assert (dom (file_data ui) ⊆ dom (file_data ui1)) as Hsub.
    { rewrite Hd, dom_insert_L. set_solver. }
    split; [set_solver|].
    intros q [Hq|Hq].
    + apply elem_of_app in Hq as [Hq|Hq].
      * by apply list_elem_of_singleton in Hq as [= ->].
      * intros Hin. apply (IH q); [by left | by apply Hsub].
    + rewrite fmap_app in Hq. apply elem_of_app in Hq as [Hq|Hq].
      * cbn in Hq. by apply list_elem_of_singleton in Hq as ->.
      * intros Hin. apply (IH q); [by right | by apply Hsub].
Qed.
End load_run_shape.

(** ** [dropEvent] and [open_files] as loading loops *)

Lemma only_plots_set_statusbar (msg : string) (ui : UI) :
  only_plots ui (set_statusbar msg ui).
Proof.
  unfold only_plots. cbn. do 3 (split; [done|]).
  exists []. by rewrite app_nil_r.
Qed.

Lemma only_plots_set_drop_label (msg : string) (ui : UI) :
  only_plots ui (set_drop_label msg ui).
Proof.
  unfold only_plots. cbn. do 3 (split; [done|]).
  exists []. by rewrite app_nil_r.
Qed.

Section file_operations.
Context (read_transform : string → exn + ZernikeDistortion).

Lemma quiet_drop_select_step (p : string) :
  quiet (λ ui, drop_select_step ui p).
Proof.
  intros ui. unfold drop_select_step.
  destruct (bool_decide (p = "")); [apply only_plots_refl|].
  generalize (findItems p (file_list ui)). intros its.
  apply (quiet_foldl (λ ui item, setSelected_True item ui)).
  intros item. apply quiet_setSelected_True.
Qed.

Lemma quiet_open_select_step (p : string) :
  quiet (λ ui, open_select_step ui p).
Proof.
  intros ui. unfold open_select_step.
  destruct (findItems p (file_list ui));
    [apply only_plots_refl | apply quiet_setSelected_True].
Qed.

Lemma dropEvent_run (urls : list string) (ui : UI) :
  ∃ mid,
    load_run read_transform (λ q, q = "") urls
      (set_drop_label "Drag your files here" ui) mid ∧
    only_plots mid (dropEvent read_transform urls ui).
Proof.
  destruct urls as [|p urls].
  { eexists. split; [constructor | apply only_plots_refl]. }
  unfold dropEvent. generalize (p :: urls). clear p urls. intros urls.
  pose proof (drop_load_run read_transform urls
                (set_drop_label "Drag your files here" ui) 0%nat) as Hrun.
  destruct (foldl _ _ urls) as [ui1 n] eqn:E. cbn [fst] in Hrun.
  exists ui1. split; [done|].
  eapply only_plots_trans; [|apply only_plots_set_statusbar].
  apply (quiet_foldl drop_select_step). apply quiet_drop_select_step.
Qed.

Lemma open_files_run (paths : list string) (ui : UI) :
  ∃ mid,
    load_run read_transform (λ _, False) paths ui mid ∧
    only_plots mid (open_files read_transform (Some paths) ui).
Proof.
  exists (foldl (open_load_step read_transform) ui paths).
  split; [apply open_load_run|].
  unfold open_files.
  eapply only_plots_trans; [|apply quiet_update_plot].
  apply (quiet_foldl open_select_step). apply quiet_open_select_step.
Qed.
End file_operations.

(** ** Loading a file again, and files that cannot be read *)

Section loading_claims.
Context (read_transform : string → exn + ZernikeDistortion).

(** What a batch does, seen from outside: it only appends events and
    rows, and the rest is the loading loop. *)
Lemma batch_summary (excl : string → Prop) (urls : list string)
    (ui start mid ui' : UI) :
  file_data start = file_data ui →
  file_list start = file_list ui →
  log start = log ui →
  load_run read_transform excl urls start mid →
  only_plots mid ui' →
  ∃ evs plots new,
    new_events ui ui' = evs ++ plots ∧
    Forall is_plot_event plots ∧
    log mid = log start ++ evs ∧
    file_data ui' = file_data mid ∧
    rows (file_list ui') = rows (file_list ui) ++ new ∧
    rows (file_list ui') = rows (file_list mid) ∧
    ∀ q, ReadTransform q ∈ evs ∨ q ∈ new.*2 → q ∉ dom (file_data ui).
Proof.
  intros Hd Hl Hlog Hrun (Hd' & Hr' & _ & plots & Hlog' & Hplots).
  destruct (load_run_appends _ _ _ _ _ Hrun)
    as (evs & new & Hlog1 & Hrows1 & _ & Hfresh).
  exists evs, plots, new.
  split.
  { apply new_events_app. by rewrite Hlog', Hlog1, Hlog, app_assoc. }
  split; [done|]. split; [done|]. split; [done|].
  split; [by rewrite Hr', Hrows1, Hl|]. split; [done|].
  intros q Hq. rewrite <- Hd. by apply Hfresh.
Qed.

Lemma not_plot_event_ReadTransform (q : string) (plots : list event) :
  Forall is_plot_event plots → ReadTransform q ∉ plots.
Proof.
  intros Hall Hin. rewrite Forall_forall in Hall. by destruct (Hall _ Hin).
Qed.

(** The part of C5 and C6 that the two handlers share. *)
Lemma batch_reload (excl : string → Prop) (urls : list string)
    (ui start mid ui' : UI) (p : string) :
  file_data start = file_data ui →
  file_list start = file_list ui →
  log start = log ui →
  load_run read_transform excl urls start mid →
  only_plots mid ui' →
  p ∈ dom (file_data ui) →
  file_data ui' !! p = file_data ui !! p ∧
  (ReadTransform p ∉ new_events ui ui') ∧
  (∃ new, rows (file_list ui') = rows (file_list ui) ++ new ∧ p ∉ new.*2) ∧
  (Forall (λ q, q ∈ dom (file_data ui)) urls →
   file_data ui' = file_data ui ∧
   rows (file_list ui') = rows (file_list ui) ∧
   texts ui' = texts ui ∧
   ∀ q, ReadTransform q ∉ new_events ui ui').
Proof.
  intros Hd Hl Hlog Hrun Hplots Hp.
  destruct (batch_summary excl urls ui start mid ui' Hd Hl Hlog Hrun Hplots)
    as (evs & plots & new & Hnew & Hpl & _ & Hd' & Hrows & _ & Hfresh).
  split; [|split; [|split]].
  - rewrite Hd'. apply elem_of_dom in Hp as [d Hp]. rewrite Hp.
    eapply load_run_mono; [done|]. by rewrite Hd.
  - rewrite Hnew. intros [Hin|Hin]%elem_of_app.
    + by apply (Hfresh p); [left|].
    + by apply (not_plot_event_ReadTransform p plots).
  - exists new. split; [done|]. intros Hin. by apply (Hfresh p); [right|].
  - intros Hall.
    assert (only_plots start mid) as Hquiet.
    { eapply load_run_all_loaded; [done|].
      eapply Forall_impl; [exact Hall|]. intros q Hq. right. by rewrite Hd. }
    pose proof (only_plots_trans _ _ _ Hquiet Hplots)
      as (Hd2 & Hr2 & _ & evs2 & Hlog2 & Hev2).
    assert (rows (file_list ui') = rows (file_list ui)) as Hr
      by (by rewrite Hr2, Hl).
    split; [by rewrite Hd2|]. split; [done|].
    split; [by rewrite !texts_rows, Hr|].
    intros q. rewrite (new_events_app ui ui' evs2) by (by rewrite Hlog2, Hlog).
    by apply not_plot_event_ReadTransform.
Qed.

(** C5. A path that is already a key of [file_data] is skipped when it is
    dropped or opened again, whatever else the batch holds: its entry
    stays, [read_transform] is not called for it, and the rows the list
    gains are for other paths. When every path of the batch is already
    loaded, [file_data] and the rows of the list are as before and no
    file is read at all. *)
Theorem reload_is_skipped (urls : list string) (p : string) (ui : UI) :
  p ∈ dom (file_data ui) →
  let dropped := dropEvent read_transform urls ui in
  let opened := open_files read_transform (Some urls) ui in
  (file_data dropped !! p = file_data ui !! p ∧
   (ReadTransform p ∉ new_events ui dropped) ∧
   (∃ new, rows (file_list dropped) = rows (file_list ui) ++ new ∧
           p ∉ new.*2) ∧
   (Forall (λ q, q ∈ dom (file_data ui)) urls →
    file_data dropped = file_data ui ∧
    rows (file_list dropped) = rows (file_list ui) ∧
    texts dropped = texts ui ∧
    ∀ q, ReadTransform q ∉ new_events ui dropped)) ∧
  (file_data opened !! p = file_data ui !! p ∧
   (ReadTransform p ∉ new_events ui opened) ∧
   (∃ new, rows (file_list opened) = rows (file_list ui) ++ new ∧
           p ∉ new.*2) ∧
   (Forall (λ q, q ∈ dom (file_data ui)) urls →
    file_data opened = file_data ui ∧
    rows (file_list opened) = rows (file_list ui) ∧
    texts opened = texts ui ∧
    ∀ q, ReadTransform q ∉ new_events ui opened)).
Proof.
  intros Hp dropped opened. split.
  - destruct (dropEvent_run read_transform urls ui) as (mid & Hrun & Hplots).
    by apply (batch_reload (λ q, q = "") urls ui
                (set_drop_label "Drag your files here" ui) mid).
  - destruct (open_files_run read_transform urls ui) as (mid & Hrun & Hplots).
    by apply (batch_reload (λ _, False) urls ui ui mid).
Qed.

End loading_claims.

(** ** Removing the selected files *)

Lemma core_ok_remove (fd : gmap string ZernikeDistortion)
    (a b : list (nat * string)) (nx id : nat) (text : string) :
  core_ok fd (a ++ (id, text) :: b) nx →
  core_ok (delete text fd) (a ++ b) nx.
Proof.
  intros (Hdom & Htexts & Hids & Hlt). unfold core_ok.
  rewrite fmap_app, fmap_cons in Htexts.
  rewrite fmap_app, fmap_cons in Hids.
  rewrite fmap_app, fmap_cons in Hdom. cbn in Htexts, Hids, Hdom.
  apply NoDup_app in Htexts as (Ha & Hab & [Hb1 Hb2]%NoDup_cons).
  apply NoDup_app in Hids as (Ha' & Hab' & [Hb1' Hb2']%NoDup_cons).
  rewrite !fmap_app, dom_delete_L, Hdom.
  rewrite !list_to_set_app_L, list_to_set_cons.
  split; [|split; [|split]].
  - assert (text ∉ a.*2) as Hna.
    { intros Hin. apply (Hab _ Hin). left. }
    apply set_eq. intros q.
    rewrite elem_of_difference, !elem_of_union, !elem_of_list_to_set,
      elem_of_singleton.
    split; [naive_solver|]. intros [Hq|Hq]; (split; [tauto|]); by intros ->.
  - apply NoDup_app. split; [done|]. split; [|done].
    intros q Hq Hq'. apply (Hab _ Hq). by right.
  - apply NoDup_app. split; [done|]. split; [|done].
    intros q Hq Hq'. apply (Hab' _ Hq). by right.
  - apply Forall_app in Hlt as [Hl1 [_ Hl2]%Forall_cons].
    by apply Forall_app.
Qed.

Lemma take_row_fields (item : QListWidgetItem) (ui : UI) :
  file_data (take_row item ui) = file_data ui ∧
  file_list (take_row item ui) =
    takeItem (row item (file_list ui)) (file_list ui).
Proof.
  unfold take_row.
  destruct (row item (file_list ui) ≫= _) as [it|]; [|done].
  destruct (item_selected it); [|done].
  match goal with |- context [update_plot ?u] =>
    destruct (update_plot_file_data u) as (Hd & Hl & _) end.
  by rewrite Hd, Hl.
Qed.

(** Taking a listed item out of a list of distinct items removes exactly
    its row. *)
Lemma rows_takeItem (w : QListWidget) (item : QListWidgetItem) :
  NoDup (rows w).*1 →
  (item_id item, item_text item) ∈ rows w →
  ∃ a b,
    rows w = a ++ (item_id item, item_text item) :: b ∧
    rows (takeItem (row item w) w) = a ++ b.
Proof.
  intros Hnd Hin.
  apply list_elem_of_lookup in Hin as [j Hj].
  pose proof Hj as Hj'. unfold rows in Hj'.
  apply list_lookup_fmap_Some in Hj' as (it0 & Heq & Hit0).
  injection Heq as Hid Htext.
  destruct (list_find_elem_of (λ it, item_id it = item_id item) (items w) it0)
    as [[i it1] Hfind]; [by eapply list_elem_of_lookup_2 | done |].
  pose proof Hfind as (Hi & Hp & _)%list_find_Some.
  assert (i = j) as ->.
  { apply (NoDup_lookup _ _ _ (item_id item) Hnd).
    - rewrite list_lookup_fmap. unfold rows. rewrite list_lookup_fmap, Hi.
      cbn. by rewrite Hp.
    - by rewrite list_lookup_fmap, Hj. }
  exists (take j (rows w)), (drop (S j) (rows w)).
  split; [by rewrite take_drop_middle|].
  unfold row. rewrite Hfind. cbn [fmap option_fmap option_map fst takeItem].
  unfold rows at 1. cbn [items].
  by rewrite list_fmap_delete, delete_take_drop.
Qed.

Lemma remove_step_effect (ui : UI) (item : QListWidgetItem) :
  well_formed ui →
  (item_id item, item_text item) ∈ rows (file_list ui) →
  ∃ a b,
    rows (file_list ui) = a ++ (item_id item, item_text item) :: b ∧
    rows (file_list (remove_step ui item)) = a ++ b ∧
    file_data (remove_step ui item) = delete (item_text item) (file_data ui) ∧
    next_id (file_list (remove_step ui item)) = next_id (file_list ui).
Proof.
  intros Hwf Hin. apply well_formed_core in Hwf as (_ & _ & Hids & _).
  unfold remove_step.
  match goal with |- context [take_row item ?u] =>
    destruct (take_row_fields item u) as [Hd Hl];
    assert (file_list u = file_list ui) as Hl0 by (by case_bool_decide);
    assert (file_data u = delete (item_text item) (file_data ui)) as Hd0
  end.
  { case_bool_decide as Hdec; [done|]. cbn.
    symmetry. apply delete_id. by apply not_elem_of_dom. }
  rewrite Hd, Hl, Hl0, Hd0.
  destruct (rows_takeItem (file_list ui) item Hids Hin) as (a & b & Hab & Hab').
  exists a, b. repeat split; try done.
  by destruct (row item (file_list ui)).
Qed.

Lemma remove_step_well_formed (ui : UI) (item : QListWidgetItem) :
  well_formed ui →
  (item_id item, item_text item) ∈ rows (file_list ui) →
  well_formed (remove_step ui item).
Proof.
  intros Hwf Hin.
  destruct (remove_step_effect ui item Hwf Hin) as (a & b & Hab & Hab' & Hd & Hn).
  apply well_formed_core in Hwf. apply well_formed_core.
  rewrite Hab', Hd, Hn. rewrite Hab in Hwf. by eapply core_ok_remove.
Qed.

Lemma remove_loop_well_formed (sel : list QListWidgetItem) :
  ∀ ui : UI,
  well_formed ui →
  NoDup (item_id <$> sel) →
  Forall (λ it, (item_id it, item_text it) ∈ rows (file_list ui)) sel →
  well_formed (foldl remove_step ui sel).
Proof.
  induction sel as [|item sel IH]; intros ui Hwf Hnd Hall; [done|].
  rewrite fmap_cons in Hnd. apply NoDup_cons in Hnd as [Hfresh Hnd].
  apply Forall_cons in Hall as [Hin Hall].
  cbn [foldl]. apply IH; [by apply remove_step_well_formed | done |].
  destruct (remove_step_effect ui item Hwf Hin) as (a & b & Hab & Hab' & _).
  rewrite Forall_forall in Hall. apply Forall_forall. intros it Hit.
  specialize (Hall it Hit). rewrite Hab in Hall. rewrite Hab'.
  apply elem_of_app in Hall as [Ha|Hb]; [apply elem_of_app; by left|].
  apply elem_of_cons in Hb as [Heq|Hb]; [|apply elem_of_app; by right].
  exfalso. apply Hfresh. injection Heq as <- _.
  apply list_elem_of_fmap. by exists it.
Qed.

Lemma remove_selected_files_well_formed (ui : UI) :
  well_formed ui → well_formed (remove_selected_files ui).
Proof.
  intros Hwf. unfold remove_selected_files.
  eapply only_plots_well_formed; [apply quiet_update_plot|].
  apply remove_loop_well_formed; [done| |].
  - destruct Hwf as [[Hnd _] _]. unfold selectedItems.
    eapply sublist_NoDup; [exact Hnd | apply fmap_sublist, sublist_filter].
  - apply Forall_forall. intros it [_ Hit]%list_elem_of_filter.
    unfold rows. apply list_elem_of_fmap. by exists it.
Qed.

(** ** The invariant of the running window *)

Lemma init_UI_well_formed : well_formed init_UI.
Proof.
  split; [split|split]; cbn.
  - constructor.
  - constructor.
  - by rewrite dom_empty_L.
  - constructor.
Qed.

Lemma dropEvent_well_formed (read_transform : string → exn + ZernikeDistortion)
    (urls : list string) (ui : UI) :
  well_formed ui → well_formed (dropEvent read_transform urls ui).
Proof.
  intros Hwf.
  destruct (dropEvent_run read_transform urls ui) as (mid & Hrun & Hplots).
  eapply only_plots_well_formed; [exact Hplots|].
  eapply load_run_well_formed; [exact Hrun|]. exact Hwf.
Qed.

Lemma open_files_well_formed (read_transform : string → exn + ZernikeDistortion)
    (dialog : option (list string)) (ui : UI) :
  well_formed ui → well_formed (open_files read_transform dialog ui).
Proof.
  intros Hwf. destruct dialog as [paths|]; [|done].
  destruct (open_files_run read_transform paths ui) as (mid & Hrun & Hplots).
  eapply only_plots_well_formed; [exact Hplots|].
  eapply load_run_well_formed; [exact Hrun|]. exact Hwf.
Qed.

Lemma reachable_well_formed (ui : UI) : reachable ui → well_formed ui.
Proof.
  induction 1 as [|rt urls ui _ IH|rt dialog ui _ IH|ui _ IH|sel ui _ IH
                 |text ui _ _ IH|ui _ IH].
  - apply init_UI_well_formed.
  - by apply dropEvent_well_formed.
  - by apply open_files_well_formed.
  - by apply remove_selected_files_well_formed.
  - eapply only_plots_well_formed; [apply quiet_user_select | done].
  - eapply only_plots_well_formed; [apply quiet_user_pick_figure | done].
  - eapply only_plots_well_formed; [apply quiet_user_toggle_abs | done].
Qed.

(** C8. In every state the window can reach, and so after each
    [dropEvent], [open_files] and [remove_selected_files] that runs from
    such a state, the keys of [file_data] are exactly the texts of the
    items of the file list, and no two items have the same text. *)
Theorem file_list_mirrors_file_data (ui : UI) :
  reachable ui →
  (dom (file_data ui) = list_to_set (texts ui) ∧ NoDup (texts ui)) ∧
  (∀ read_transform urls,
     let ui' := dropEvent read_transform urls ui in
     dom (file_data ui') = list_to_set (texts ui') ∧ NoDup (texts ui')) ∧
  (∀ read_transform dialog,
     let ui' := open_files read_transform dialog ui in
     dom (file_data ui') = list_to_set (texts ui') ∧ NoDup (texts ui')) ∧
  (let ui' := remove_selected_files ui in
   dom (file_data ui') = list_to_set (texts ui') ∧ NoDup (texts ui')).
Proof.
  intros Hreach.
  split; [apply (reachable_well_formed ui Hreach)|].
  split; [|split].
  - intros rt urls. apply (reachable_well_formed _ (reach_drop rt urls ui Hreach)).
  - intros rt dialog.
    apply (reachable_well_formed _ (reach_open rt dialog ui Hreach)).
  - apply (reachable_well_formed _ (reach_remove ui Hreach)).
Qed.

(** Preservation from any well-formed window, reachable or not. *)
Lemma file_operations_preserve_well_formed (ui : UI) :
  well_formed ui →
  (∀ read_transform urls, well_formed (dropEvent read_transform urls ui)) ∧
  (∀ read_transform dialog, well_formed (open_files read_transform dialog ui)) ∧
  well_formed (remove_selected_files ui).
Proof.
  intros Hwf. split; [|split].
  - intros rt urls. by apply dropEvent_well_formed.
  - intros rt dialog. by apply open_files_well_formed.
  - by apply remove_selected_files_well_formed.
Qed.

(** ** Loading twice *)

Section load_twice.
Context (read_transform : string → exn + ZernikeDistortion).

Lemma batch_all_loaded_after (excl : string → Prop) (urls : list string)
    (ui start mid ui' : UI) :
  file_data start = file_data ui →
  load_run read_transform excl urls start mid →
  only_plots mid ui' →
  Forall (λ p, ¬ excl p ∧
               (p ∈ dom (file_data ui) ∨ ∃ d, read_transform p = inr d)) urls →
  Forall (λ p, p ∈ dom (file_data ui')) urls.
Proof.
  intros Hd Hrun (Hd' & _) Hall.
  destruct (load_run_events _ _ _ _ _ Hrun) as (evs & _ & Hev).
  rewrite Forall_forall in Hall. apply Forall_forall. intros p Hp.
  destruct (Hall p Hp) as [Hex Hcase]. rewrite Hd'.
  destruct (decide (p ∈ dom (file_data ui))) as [Hin|Hnin].
  - apply elem_of_dom in Hin as [d Hin]. apply elem_of_dom. exists d.
    eapply load_run_mono; [done|]. by rewrite Hd.
  - destruct Hcase as [?|[d Hread]]; [done|].
    destruct (Hev p Hp Hex) as [_ Hres]; [by rewrite Hd|].
    rewrite Hread in Hres. apply elem_of_dom. exists d. tauto.
Qed.

(** Dropping or opening a batch of readable files a second time changes
    neither [file_data] nor the rows of the list, and reads nothing. *)
Lemma load_twice_is_load_once (urls : list string) (ui : UI) :
  Forall (λ p, p ≠ "" ∧
               (p ∈ dom (file_data ui) ∨ ∃ d, read_transform p = inr d)) urls →
  (let once := dropEvent read_transform urls ui in
   let twice := dropEvent read_transform urls once in
   file_data twice = file_data once ∧
   rows (file_list twice) = rows (file_list once) ∧
   ∀ q, ReadTransform q ∉ new_events once twice) ∧
  (let once := open_files read_transform (Some urls) ui in
   let twice := open_files read_transform (Some urls) once in
   file_data twice = file_data once ∧
   rows (file_list twice) = rows (file_list once) ∧
   ∀ q, ReadTransform q ∉ new_events once twice).
Proof.
  intros Hall. split.
  - intros once twice.
    assert (Forall (λ p, p ∈ dom (file_data once)) urls) as Hloaded.
    { destruct (dropEvent_run read_transform urls ui) as (mid & Hrun & Hplots).
      by eapply (batch_all_loaded_after (λ q, q = "")). }
    destruct urls as [|p urls].
    { cbn. split; [done|]. split; [done|]. intros q. unfold new_events.
      cbn. rewrite drop_all. apply not_elem_of_nil. }
    apply Forall_cons in Hloaded as Hp. destruct Hp as [Hp _].
    destruct (dropEvent_run read_transform (p :: urls) once)
      as (mid & Hrun & Hplots).
    destruct (batch_reload read_transform (λ q, q = "") (p :: urls) once
                (set_drop_label "Drag your files here" once) mid twice p)
      as (_ & _ & _ & H); try done.
    destruct (H Hloaded) as (? & ? & _ & ?). done.
  - intros once twice.
    assert (Forall (λ p, p ∈ dom (file_data once)) urls) as Hloaded.
    { destruct (open_files_run read_transform urls ui) as (mid & Hrun & Hplots).
      eapply (batch_all_loaded_after (λ _, False)); [done..|].
      eapply Forall_impl; [exact Hall|]. intros q [_ ?]. tauto. }
    destruct (open_files_run read_transform urls once) as (mid & Hrun & Hplots).
    assert (only_plots once mid) as Hq.
    { eapply load_run_all_loaded; [done|].
      eapply Forall_impl; [exact Hloaded|]. intros q ?. by right. }
    pose proof (only_plots_trans _ _ _ Hq Hplots)
      as (Hd2 & Hr2 & _ & evs2 & Hlog2 & Hev2).
    split; [done|]. split; [done|]. intros q.
    rewrite (new_events_app once twice evs2) by done.
    by apply not_plot_event_ReadTransform.
Qed.
End load_twice.

(** ** Worked examples *)

Example ticklabels_y_3 :
  ticklabels "y" 3 =
  ["Cy(0, 0)"; "Cy(1, -1)"; "Cy(1, 1)"; "Cy(2, -2)"; "Cy(2, 0)"; "Cy(2, 2)";
   "Cy(3, -3)"; "Cy(3, -1)"; "Cy(3, 1)"; "Cy(3, 3)"].
Proof. vm_compute. reflexivity. Qed.

Lemma sample_order1_fits : fits sample_order1.
Proof. split; vm_compute; lia. Qed.

Lemma sample_order0_fits : fits sample_order0.
Proof. split; vm_compute; lia. Qed.

Lemma sample_pair_fits : Forall fits [sample_order1; sample_order0].
Proof.
  constructor; [apply sample_order1_fits|].
  constructor; [apply sample_order0_fits | constructor].
Qed.

(** Two distortions of different orders on one chart: the shorter vector
    is padded with zeros. *)
Example plot_two_distortions :
  ∃ cv, plot_bar_chart (PyCanvas new_canvas)
          (PyList [PyZernike sample_order1; PyZernike sample_order0])
          (PyList [PyStr "a.json"; PyStr "b.json"]) (PyStr "y") true
        = Return cv ∧
        bar_height <$> bars (axes cv) = [[0; 1; 5]; [3; 0; 0]]%Q ∧
        xticklabels (axes cv) = ["Cy(0, 0)"; "Cy(1, -1)"; "Cy(1, 1)"].
Proof. eexists. split; [vm_compute; reflexivity|]. split; reflexivity. Qed.

(** The size discipline matters: an object that breaks it makes
    [numpy.zeros] raise after the axes were cleared. *)
Example oversized_distortion_raises :
  plot_bar_chart
    (PyCanvas {| axes := axes (rendered new_canvas sample_order0 []
                                 ["b.json"] "x" false);
                 draws := 1 |})
    (PyList [PyZernike sample_oversized]) (PyList [PyStr "c.json"])
    (PyStr "x") false
  = Raise (ValueError "negative dimensions are not allowed")
      (PyCanvas {| axes := empty_axes; draws := 1 |}).
Proof. vm_compute. reflexivity. Qed.

(** A drop of three paths, one of them unreadable. *)
Example drop_three_files :
  let ui := dropEvent sample_read_transform
              ["a.json"; "c.json"; "b.json"] init_UI in
  texts ui = ["a.json"; "b.json"] ∧
  statusbar ui = "2 file(s) loaded" ∧
  firstn 4 (log ui) =
    [ReadTransform "a.json"; ReadTransform "c.json";
     read_warning "c.json" (Exception "bad file"); ReadTransform "b.json"].
Proof. vm_compute. repeat split; reflexivity. Qed.

(** * Further properties of the source *)

(** ** Strings as lists of characters *)

Lemma chars_append (s1 s2 : string) :
  String.list_ascii_of_string (s1 +:+ s2) =
  String.list_ascii_of_string s1 ++ String.list_ascii_of_string s2.
Proof.
  induction s1 as [|c s1 IH]; [done|].
  change (String c s1 +:+ s2) with (String c (s1 +:+ s2)).
  cbn [String.list_ascii_of_string]. by rewrite IH.
Qed.

Lemma chars_length (s : string) :
  String.length s = length (String.list_ascii_of_string s).
Proof. induction s as [|c s IH]; [done|]. cbn. by rewrite IH. Qed.

Lemma chars_substring (n m : nat) (s : string) :
  String.list_ascii_of_string (String.substring n m s) =
  take m (drop n (String.list_ascii_of_string s)).
Proof.
  revert n m. induction s as [|c s IH]; intros n m.
  - destruct n, m; done.
  - destruct n as [|n].
    + destruct m as [|m]; [done|]. cbn. by rewrite (IH 0%nat m), drop_0.
    + cbn. apply IH.
Qed.

Lemma chars_inj (s1 s2 : string) :
  String.list_ascii_of_string s1 = String.list_ascii_of_string s2 → s1 = s2.
Proof.
  intros H. rewrite <- (String.string_of_list_ascii_of_string s1),
    <- (String.string_of_list_ascii_of_string s2). by rewrite H.
Qed.

Lemma string_append_assoc (s1 s2 s3 : string) :
  (s1 +:+ s2) +:+ s3 = s1 +:+ s2 +:+ s3.
Proof. apply chars_inj. by rewrite !chars_append, app_assoc. Qed.

(** ** [os.path.basename] *)

Lemma basename_from_no_slash (acc p : string) :
  "/"%char ∉ String.list_ascii_of_string p → basename_from acc p = acc.
Proof.
  induction p as [|c p IH]; intros Hp; [done|]. cbn in *.
  destruct (Ascii.eqb_spec c "/"%char) as [->|Hc].
  - exfalso. apply Hp. left.
  - apply IH. intros Hin. apply Hp. by right.
Qed.

Lemma basename_from_join (acc dir name : string) :
  "/"%char ∉ String.list_ascii_of_string name →
  basename_from acc (dir +:+ "/" +:+ name) = name.
Proof.
  intros Hname. revert acc. induction dir as [|c dir IH]; intros acc.
  - change ("" +:+ "/" +:+ name) with (String "/"%char name).
    cbn. by apply basename_from_no_slash.
  - change (String c dir +:+ "/" +:+ name)
      with (String c (dir +:+ "/" +:+ name)).
    cbn [basename_from]. destruct (Ascii.eqb c "/"%char); apply IH.
Qed.

Lemma string_cons_append (c : Ascii.ascii) (s1 s2 : string) :
  String c s1 +:+ s2 = String c (s1 +:+ s2).
Proof. done. Qed.

Lemma basename_from_cases (acc p : string) :
  (("/"%char ∉ String.list_ascii_of_string p) ∧ basename_from acc p = acc) ∨
  (∃ dir, p = dir +:+ "/" +:+ basename_from acc p ∧
          "/"%char ∉ String.list_ascii_of_string (basename_from acc p)).
Proof.
  revert acc. induction p as [|c p IH]; intros acc.
  - left. split; [apply not_elem_of_nil | done].
  - cbn [basename_from]. destruct (Ascii.eqb_spec c "/"%char) as [->|Hc].
    + right. destruct (IH p) as [[Hno Heq]|(dir & Heq & Hno)].
      * exists "". rewrite Heq. done.
      * exists (String "/"%char dir). split; [|done].
        rewrite string_cons_append. by f_equal.
    + destruct (IH acc) as [[Hno Heq]|(dir & Heq & Hno)].
      * left. split; [|done]. cbn. intros [?|?]%elem_of_cons; done.
      * right. exists (String c dir). split; [|done].
        rewrite string_cons_append. by f_equal.
Qed.

(** X1. The base name of a path never contains a separator; it is the
    whole path when the path has none, and otherwise the path is some
    directory part, a separator and the base name. *)
Theorem basename_spec (p : string) :
  ("/"%char ∉ String.list_ascii_of_string (basename p)) ∧
  ((("/"%char ∉ String.list_ascii_of_string p) ∧ basename p = p) ∨
   ∃ dir, p = dir +:+ "/" +:+ basename p).
Proof.
  unfold basename. destruct (basename_from_cases p p) as [[Hno Heq]|(dir & Heq & Hno)].
  - rewrite Heq. split; [done|]. by left.
  - split; [done|]. right. by exists dir.
Qed.

(** X2. Joining a directory and a file name with a separator and taking
    the base name gives the file name back, for a name without
    separator. *)
Theorem basename_join (dir name : string) :
  "/"%char ∉ String.list_ascii_of_string name →
  basename (dir +:+ "/" +:+ name) = name.
Proof. intros Hname. by apply basename_from_join. Qed.

(** ** [truncate_filename] *)

Lemma chars_slice_to (s : string) (stop : Z) :
  0 ≤ stop →
  String.list_ascii_of_string (slice_to s stop) =
  take (Z.to_nat stop) (String.list_ascii_of_string s).
Proof.
  intros Hstop. unfold slice_to.
  destruct (stop <? 0) eqn:E; [apply Z.ltb_lt in E; lia|].
  rewrite chars_substring, drop_0, chars_length.
  destruct (Z.min_spec (Z.of_nat (length (String.list_ascii_of_string s))) stop)
    as [[Hlt ->]|[Hle ->]]; [|done].
  rewrite Nat2Z.id, firstn_all. symmetry. apply take_ge. lia.
Qed.

Lemma chars_slice_from_last (s : string) (k : Z) :
  0 < k ≤ Z.of_nat (String.length s) →
  String.list_ascii_of_string (slice_from s (- k)) =
  drop (String.length s - Z.to_nat k) (String.list_ascii_of_string s).
Proof.
  intros Hk. unfold slice_from.
  destruct (- k <? 0) eqn:E; [|apply Z.ltb_ge in E; lia].
  rewrite chars_substring.
  replace (Z.to_nat (Z.max 0 (Z.of_nat (String.length s) + - k)))
    with (String.length s - Z.to_nat k)%nat by lia.
  apply take_ge. rewrite length_drop, <- chars_length. lia.
Qed.

Lemma slice_from_zero (s : string) : slice_from s (- 0) = s.
Proof.
  apply chars_inj. unfold slice_from. cbn [Z.opp Z.ltb Z.compare].
  rewrite chars_substring, Z.min_r by lia. cbn [Z.to_nat drop].
  rewrite Z.sub_0_r, Nat2Z.id, chars_length. apply firstn_all.
Qed.

(** A name longer than [max_len] becomes its first and last
    [(max_len - 3) // 2] characters around three dots. *)
Lemma truncate_filename_long (file_path : string) (max_len : Z) :
  5 ≤ max_len < Z.of_nat (String.length (basename file_path)) →
  let cs := String.list_ascii_of_string (basename file_path) in
  let p := Z.to_nat ((max_len - 3) `div` 2) in
  String.list_ascii_of_string (truncate_filename file_path max_len) =
  take p cs ++ String.list_ascii_of_string "..." ++ drop (length cs - p) cs.
Proof.
  intros Hlen cs p. unfold truncate_filename.
  destruct (_ <=? max_len) eqn:E; [apply Z.leb_le in E; lia|].
  assert (1 ≤ (max_len - 3) `div` 2) as Hp1.
  { apply Z.div_le_lower_bound; lia. }
  assert ((max_len - 3) `div` 2 ≤ max_len - 3) as Hp2.
  { apply Z.div_le_upper_bound; lia. }
  rewrite !chars_append, chars_slice_to, chars_slice_from_last by lia.
  by rewrite chars_length.
Qed.

(** X3. For [max_len] of at least 5, and so for the default 30, the
    result is never longer than [max_len]. *)
Theorem truncate_filename_length (file_path : string) (max_len : Z) :
  5 ≤ max_len →
  Z.of_nat (String.length (truncate_filename file_path max_len)) ≤ max_len.
Proof.
  intros Hmax.
  destruct (decide (Z.of_nat (String.length (basename file_path)) ≤ max_len))
    as [Hshort|Hlong].
  - unfold truncate_filename. apply Z.leb_le in Hshort as E. rewrite E.
    by apply Z.leb_le.
  - rewrite chars_length, truncate_filename_long by lia.
    rewrite chars_length in Hlong.
    rewrite !length_app, length_take, length_drop.
    replace (length (String.list_ascii_of_string "...")) with 3%nat by done.
    assert (2 * ((max_len - 3) `div` 2) ≤ max_len - 3) as Hp.
    { apply Z.mul_div_le. lia. }
    assert (0 ≤ (max_len - 3) `div` 2) by (apply Z.div_pos; lia).
    lia.
Qed.

(** X4. The extension survives: whatever ends the base name ends the
    result too, as long as it is no longer than [(max_len - 3) // 2]
    characters (13 for the default). *)
Theorem truncate_filename_keeps_extension (file_path stem ext : string)
    (max_len : Z) :
  5 ≤ max_len →
  basename file_path = stem +:+ ext →
  Z.of_nat (String.length ext) ≤ (max_len - 3) `div` 2 →
  ∃ head, truncate_filename file_path max_len = head +:+ ext.
Proof.
  intros Hmax Hname Hext.
  destruct (decide (Z.of_nat (String.length (basename file_path)) ≤ max_len))
    as [Hshort|Hlong].
  - exists stem. unfold truncate_filename. apply Z.leb_le in Hshort as E.
    by rewrite E.
  - pose proof (truncate_filename_long file_path max_len ltac:(lia)) as Hcs.
    cbn zeta in Hcs. rewrite Hname, chars_append in Hcs.
    set (p := Z.to_nat ((max_len - 3) `div` 2)) in *.
    set (s := String.list_ascii_of_string stem) in *.
    set (e := String.list_ascii_of_string ext) in *.
    assert (length e ≤ p)%nat as He by (unfold e; rewrite <- chars_length; lia).
    rewrite length_app, drop_app in Hcs.
    replace (length s + length e - p - length s)%nat with 0%nat in Hcs by lia.
    rewrite drop_0 in Hcs.
    exists (String.string_of_list_ascii
              (take p (s ++ e) ++ String.list_ascii_of_string "..." ++
               drop (length s + length e - p) s)).
    apply chars_inj.
    rewrite Hcs, chars_append, String.list_ascii_of_string_of_list_ascii.
    fold e. by rewrite <- !app_assoc.
Qed.

(** X5. With [max_len] 3 or 4 the slice [name[-0:]] is the whole name: a
    name that is too long is not shortened but prefixed with three
    dots. *)
Theorem truncate_filename_tiny_max_len (file_path : string) (max_len : Z) :
  3 ≤ max_len ≤ 4 →
  max_len < Z.of_nat (String.length (basename file_path)) →
  truncate_filename file_path max_len = "..." +:+ basename file_path.
Proof.
  intros Hmax Hlong. unfold truncate_filename.
  destruct (_ <=? max_len) eqn:E; [apply Z.leb_le in E; lia|].
  assert ((max_len - 3) `div` 2 = 0) as ->.
  { apply Z.div_small. lia. }
  rewrite slice_from_zero. apply chars_inj.
  by rewrite !chars_append, chars_slice_to.
Qed.

(** ** More on [plot_bar_chart] *)

(** X6. A successful call erases what the axes held: the chart is the
    same on any two canvases, carries the title of the mode, a legend and
    a grid, and the canvas is drawn exactly once. *)
Theorem plot_bar_chart_replaces_axes (cv1 cv2 : MplCanvas)
    (d : ZernikeDistortion) (ds : list ZernikeDistortion)
    (labels : list string) (mode : string) (absolute : bool) :
  length labels = length (d :: ds) →
  mode = "x" ∨ mode = "y" →
  Forall fits (d :: ds) →
  ∃ cv1' cv2',
    plot_bar_chart (PyCanvas cv1) (PyList (PyZernike <$> d :: ds))
      (PyList (PyStr <$> labels)) (PyStr mode) absolute = Return cv1' ∧
    plot_bar_chart (PyCanvas cv2) (PyList (PyZernike <$> d :: ds))
      (PyList (PyStr <$> labels)) (PyStr mode) absolute = Return cv2' ∧
    axes cv1' = axes cv2' ∧
    draws cv1' = S (draws cv1) ∧
    title (axes cv1') = "Zernike Coefficients [" +:+ mode +:+ "-axis]" ∧
    legend (axes cv1') = true ∧
    grid (axes cv1') = true ∧
    xtick_rotation (axes cv1') = 75.
Proof.
  intros Hlen Hmode Hfit.
  exists (rendered cv1 d ds labels mode absolute),
         (rendered cv2 d ds labels mode absolute).
  split; [by apply plot_bar_chart_typed|].
  split; [by apply plot_bar_chart_typed|]. done.
Qed.

(** X7. The legend entries are the labels in the order given, and the
    colour arguments [i / k] increase strictly from 0 and stay below 1, so
    no two distortions of one chart share a colour. *)
Theorem plot_bar_chart_labels_colours (cv : MplCanvas) (d : ZernikeDistortion)
    (ds : list ZernikeDistortion) (labels : list string) (mode : string)
    (absolute : bool) :
  length labels = length (d :: ds) →
  mode = "x" ∨ mode = "y" →
  Forall fits (d :: ds) →
  ∃ cv',
    plot_bar_chart (PyCanvas cv) (PyList (PyZernike <$> d :: ds))
      (PyList (PyStr <$> labels)) (PyStr mode) absolute = Return cv' ∧
    bar_label <$> bars (axes cv') = labels ∧
    ∀ (i : nat) (b : BarContainer),
      bars (axes cv') !! i = Some b →
      (0 <= bar_color b ∧ bar_color b < 1 ∧
       (i = 0%nat → bar_color b == 0) ∧
       ∀ (j : nat) (b' : BarContainer),
         bars (axes cv') !! j = Some b' → (i < j)%nat →
         bar_color b < bar_color b')%Q.
Proof.
  intros Hlen Hmode Hfit.
  exists (rendered cv d ds labels mode absolute).
  split; [by apply plot_bar_chart_typed|]. split.
  - apply list_eq. intros i. rewrite list_lookup_fmap.
    destruct (labels !! i) as [l|] eqn:El.
    + destruct (lookup_lt_is_Some_2 (d :: ds) i) as [d' Hd'].
      { apply lookup_lt_Some in El. lia. }
      assert (bars (axes (rendered cv d ds labels mode absolute)) !! i =
              Some (chart_bar (length (d :: ds))
                      (length (ticklabels mode (max_Nzer d ds)))
                      mode absolute i d' l)) as ->; [|done].
      apply rendered_bars_lookup; eauto.
    + destruct (bars (axes (rendered cv d ds labels mode absolute)) !! i)
        as [b|] eqn:Eb; [|done].
      apply rendered_bars_lookup in Eb as (? & ? & _ & ? & _); [|done].
      congruence.
  - intros i b Hb.
    apply (rendered_bars_lookup cv) in Hb as (d' & l & Hd & Hl & ->); [|done].
    cbn [bar_color chart_bar].
    assert (i < length (d :: ds))%nat as Hi by (by apply lookup_lt_Some in Hd).
    set (k := length (d :: ds)) in *.
    assert (0 < k)%nat as Hk by lia.
    pose proof (inject_nat_pos k Hk) as HK.
    split; [|split; [|split]].
    + apply Qle_shift_div_l; [done|]. rewrite Qmult_0_l.
      change 0%Q with (inject_Z (Z.of_nat 0)). apply inject_nat_le. lia.
    + apply Qlt_shift_div_r; [done|]. rewrite Qmult_1_l.
      rewrite <- Zlt_Qlt. lia.
    + intros ->. unfold Qdiv. by rewrite Qmult_0_l.
    + intros j b' Hb' Hij.
      apply (rendered_bars_lookup cv) in Hb' as (d2 & l2 & _ & _ & ->); [|done].
      cbn [bar_color chart_bar]. fold k.
      apply Qmult_lt_compat_r; [by apply Qinv_lt_0_compat|].
      rewrite <- Zlt_Qlt. lia.
Qed.

(** X8. When the coefficient vector of some distortion is longer than
    the tick layout, [numpy.zeros] raises [ValueError]: the axes then
    hold nothing but the bars of the distortions before it, and the
    canvas is not drawn. *)
Theorem plot_bar_chart_oversized (cv : MplCanvas)
    (pre : list ZernikeDistortion) (bad : ZernikeDistortion)
    (post : list ZernikeDistortion) (labels : list string) (mode : string)
    (absolute : bool) (N : Z) :
  length labels = length (pre ++ bad :: post) →
  mode = "x" ∨ mode = "y" →
  py_max (Nzer <$> pre ++ bad :: post) = inr N →
  let tl := ticklabels mode N in
  Forall (λ d, (length (select_parameters mode d) ≤ length tl)%nat) pre →
  (length tl < length (select_parameters mode bad))%nat →
  plot_bar_chart (PyCanvas cv) (PyList (PyZernike <$> pre ++ bad :: post))
    (PyList (PyStr <$> labels)) (PyStr mode) absolute =
  Raise (ValueError "negative dimensions are not allowed")
    (PyCanvas
       (add_bars {| axes := empty_axes; draws := draws cv |}
          (imap (λ i dl, chart_bar (length (pre ++ bad :: post)) (length tl)
                           mode absolute i dl.1 dl.2)
                (zip pre labels)))).
Proof.
  intros Hlen Hmode Hmax tl Hpre Hbad.
  rewrite plot_bar_chart_valid_render; [|by destruct pre|done|done].
  unfold render. unfold plot_bind at 1. unfold axes_clear, with_axes at 1.
  unfold plot_bind at 1. unfold plot_lift at 1. rewrite Hmax.
  fold tl. unfold plot_bind at 1.
  rewrite for_enumerate_app, for_enumerate_ok;
    [|done|rewrite length_app in Hlen; cbn in Hlen; cbn; lia].
  cbn [for_enumerate]. unfold plot_bind at 1.
  rewrite plot_one_oversized by done. by rewrite drop_0.
Qed.

(** ** More on [update_plot] *)

(** X9. [update_plot] only redraws: the dictionary, the file list and its
    selection, the figure selector, the checkbox, the status bar and the
    drop label are as before, and it neither reads a file nor shows a
    message box. *)
Theorem update_plot_only_redraws (ui : UI) :
  file_data (update_plot ui) = file_data ui ∧
  file_list (update_plot ui) = file_list ui ∧
  figure_selector (update_plot ui) = figure_selector ui ∧
  abs_checkbox (update_plot ui) = abs_checkbox ui ∧
  statusbar (update_plot ui) = statusbar ui ∧
  drop_label (update_plot ui) = drop_label ui ∧
  ∃ evs, log (update_plot ui) = log ui ++ evs ∧ Forall is_plot_event evs.
Proof.
  destruct (update_plot_file_data ui) as (H1 & H2 & H3 & H4 & H5 & H6).
  do 6 (split; [done|]).
  by destruct (quiet_update_plot ui) as (_ & _ & _ & Hev).
Qed.

(** X10. With no item selected, or none of the selected items loaded,
    [update_plot] leaves an empty chart, drawn once, and calls nothing. *)
Theorem update_plot_nothing_to_plot (ui : UI) :
  loaded_selection ui = [] →
  canvas (update_plot ui) =
    {| axes := empty_axes; draws := S (draws (canvas ui)) |} ∧
  log (update_plot ui) = log ui.
Proof.
  unfold loaded_selection, update_plot, update_plot_with. intros Hnone.
  destruct (selectedItems (file_list ui)) as [|it sel]; [done|].
  cbn [canvas_do set_canvas file_data].
  destruct (collect_selected (file_data ui) (it :: sel)) as [ds ls].
  cbn in Hnone. by subst ds.
Qed.

Lemma rendered_cleared (cv : MplCanvas) (d : ZernikeDistortion)
    (ds : list ZernikeDistortion) (labels : list string) (mode : string)
    (absolute : bool) :
  rendered (axes_clear cv).2 d ds labels mode absolute =
  rendered cv d ds labels mode absolute.
Proof. done. Qed.

(** X11. [update_plot] always passes well-formed arguments, whatever the
    order in which [selectedItems()] lists the selected items:
    [update_plot] runs [update_plot_with] on that list. Let [sel] be any
    list of items with file names of ASCII characters. When the loaded
    distortions obey the size discipline, some item of [sel] is loaded and
    a figure is chosen, [update_plot] makes exactly one call of
    [plot_bar_chart]: with the distortions of the loaded items of [sel] in
    the order of [sel], their file names truncated to 30 characters as
    labels, the mode of the figure and the state of the checkbox. No
    exception escapes, and the canvas holds the chart of that call. *)
Theorem update_plot_draws_chart (sel : list QListWidgetItem) (ui : UI)
    (mode : string) :
  map_Forall (λ _ d, fits d) (file_data ui) →
  Forall (λ item, ascii_only (item_text item)) sel →
  loaded_among (file_data ui) sel ≠ [] →
  (mode = "x" ∧ String.prefix "Figure 1" (figure_selector ui) = true) ∨
  (mode = "y" ∧ String.prefix "Figure 2" (figure_selector ui) = true) →
  let pairs := selected_pairs (file_data ui) sel in
  let ui' := update_plot_with sel ui in
  (∃ sel0, sel0 ≡ₚ selectedItems (file_list ui) ∧
           update_plot ui = update_plot_with sel0 ui) ∧
  pairs.*1 = loaded_among (file_data ui) sel ∧
  new_events ui ui' = [PlotBarChart pairs.*1 pairs.*2 mode (abs_checkbox ui)] ∧
  ∃ d ds,
    pairs.*1 = d :: ds ∧
    canvas ui' = rendered (canvas ui) d ds pairs.*2 mode (abs_checkbox ui).
Proof.
  intros Hfits _ Hne Hmode pairs ui'.
  split; [by eexists|]. split; [apply selected_pairs_loaded|].
  rewrite <- selected_pairs_loaded in Hne. fold pairs in Hne.
  destruct (pairs.*1) as [|d ds] eqn:Eds; [done|].
  assert (Forall fits (d :: ds)) as Hfit.
  { rewrite <- Eds. apply Forall_fmap, Forall_forall. intros [d' l'] Hin.
    unfold pairs, selected_pairs in Hin.
    apply list_elem_of_omap in Hin as (it & _ & Hit).
    destruct (file_data ui !! item_text it) as [d2|] eqn:E; [|done].
    cbn in Hit. injection Hit as <- _. cbn. by apply (Hfits _ _ E). }
  assert (length pairs.*2 = length (d :: ds)) as Hlen.
  { by rewrite <- Eds, !length_fmap. }
  assert (ui' =
          call_plot_bar_chart (d :: ds) pairs.*2 mode (abs_checkbox ui)
            (canvas_do axes_clear ui)) as ->.
  { unfold ui', update_plot_with.
    destruct sel as [|it sel'] eqn:Esel; [by subst pairs|].
    cbn [canvas_do set_canvas file_data figure_selector abs_checkbox].
    rewrite collect_selected_pairs. fold pairs. rewrite Eds.
    destruct Hmode as [[-> Hp]|[-> Hp]].
    - by rewrite Hp.
    - destruct (String.prefix "Figure 1" (figure_selector ui)) eqn:E1;
        [by rewrite (prefix_Figure_1_2 _ E1) in Hp|]. by rewrite Hp. }
  assert (mode = "x" ∨ mode = "y") as Hm by (destruct Hmode as [[? _]|[? _]]; auto).
  unfold call_plot_bar_chart.
  cbn [canvas emit set_log canvas_do set_canvas].
  rewrite plot_bar_chart_typed by done.
  split.
  - apply new_events_app. done.
  - exists d, ds. split; [done|]. cbn [canvas set_canvas].
    apply rendered_cleared.
Qed.

Lemma omap_total {A B} (f : A → option B) (l : list A) :
  Forall (λ x, is_Some (f x)) l →
  Forall2 (λ x y, f x = Some y) l (omap f l).
Proof.
  induction 1 as [|x l [y Hy] _ IH]; [constructor|].
  cbn [omap list_omap]. rewrite Hy. by constructor.
Qed.

(** X12. In a running window every selected item is loaded: [update_plot]
    finds one distortion per selected item, in the order of the items,
    and it is the distortion stored under the text of the item. *)
Theorem selected_items_are_loaded (ui : UI) :
  reachable ui →
  Forall2 (λ item d, file_data ui !! item_text item = Some d)
    (selectedItems (file_list ui)) (loaded_selection ui) ∧
  length (loaded_selection ui) = length (selectedItems (file_list ui)).
Proof.
  intros [_ [Hdom _]]%reachable_well_formed.
  assert (Forall2 (λ item d, file_data ui !! item_text item = Some d)
            (selectedItems (file_list ui)) (loaded_selection ui)) as H.
  { unfold loaded_selection. rewrite collect_selected_pairs. cbn [fst].
    unfold selected_pairs.
    set (sel := selectedItems (file_list ui)).
    assert (Forall (λ it, is_Some (file_data ui !! item_text it)) sel) as Hall.
    { apply Forall_forall. intros it [_ Hit]%list_elem_of_filter.
      apply elem_of_dom. rewrite Hdom. apply elem_of_list_to_set.
      unfold texts. apply list_elem_of_fmap. eauto. }
    clear Hdom. induction Hall as [|it sel' [d Hd] _ IH]; [constructor|].
    cbn [omap list_omap]. rewrite Hd. cbn. by constructor. }
  split; [exact H|]. symmetry. by eapply Forall2_length.
Qed.

(** *** Redrawing *)

Lemma axes_determined_ret {A} (a : A) : axes_determined (plot_ret a).
Proof. by intros cv1 cv2 H. Qed.

Lemma axes_determined_lift {A} (r : exn + A) : axes_determined (plot_lift r).
Proof. by intros cv1 cv2 H. Qed.

Lemma axes_determined_with_axes (f : Axes → Axes) :
  axes_determined (with_axes f).
Proof. intros cv1 cv2 H. unfold with_axes. cbn. by rewrite H. Qed.

Lemma axes_determined_draw : axes_determined canvas_draw.
Proof. by intros cv1 cv2 H. Qed.

Lemma axes_determined_bind {A B} (m : Plot A) (k : A → Plot B) :
  axes_determined m → (∀ a, axes_determined (k a)) →
  axes_determined (plot_bind m k).
Proof.
  intros Hm Hk cv1 cv2 H. unfold plot_bind.
  destruct (Hm cv1 cv2 H) as [Hr Hax].
  destruct (m cv1) as [[e1|a1] c1], (m cv2) as [[e2|a2] c2];
    cbn in Hr, Hax; simplify_eq; [done|]. by apply Hk.
Qed.

Lemma axes_determined_plot_one (k : nat) (tl : list string) (x : list Q)
    (labels : list string) (mode : string) (absolute : bool) (i : nat)
    (d : ZernikeDistortion) :
  axes_determined (plot_one k tl x labels mode absolute i d).
Proof.
  unfold plot_one.
  apply axes_determined_bind; [apply axes_determined_lift|]. intros pad.
  apply axes_determined_bind; [apply axes_determined_lift|]. intros l.
  apply axes_determined_with_axes.
Qed.

Lemma axes_determined_for_enumerate {A} (body : nat → A → Plot unit)
    (xs : list A) :
  (∀ i x, axes_determined (body i x)) →
  ∀ i, axes_determined (for_enumerate i xs body).
Proof.
  intros Hbody. induction xs as [|x xs IH]; intros i.
  - apply axes_determined_ret.
  - cbn [for_enumerate]. apply axes_determined_bind; [apply Hbody|].
    intros _. apply IH.
Qed.

Lemma axes_determined_render (ds : list ZernikeDistortion)
    (labels : list string) (mode : string) (absolute : bool) :
  axes_determined (render ds labels mode absolute).
Proof.
  unfold render.
  apply axes_determined_bind; [apply axes_determined_with_axes|]. intros _.
  apply axes_determined_bind; [apply axes_determined_lift|]. intros N.
  apply axes_determined_bind.
  { apply axes_determined_for_enumerate. intros i d.
    apply axes_determined_plot_one. }
  intros _.
  repeat (apply axes_determined_bind; [apply axes_determined_with_axes|];
          intros _).
  apply axes_determined_draw.
Qed.

(** What [call_plot_bar_chart] logs and draws depends on the axes it
    finds, not on the rest of the canvas or of the log. *)
Lemma call_plot_bar_chart_determined (ds : list ZernikeDistortion)
    (ls : list string) (m : string) (a : bool) (ui1 ui2 : UI) :
  axes (canvas ui1) = axes (canvas ui2) →
  axes (canvas (call_plot_bar_chart ds ls m a ui1)) =
  axes (canvas (call_plot_bar_chart ds ls m a ui2)) ∧
  new_events ui1 (call_plot_bar_chart ds ls m a ui1) =
  new_events ui2 (call_plot_bar_chart ds ls m a ui2).
Proof.
  intros Hax. unfold call_plot_bar_chart, plot_bar_chart.
  cbn [canvas emit set_log is_canvas negb].
  repeat (match goal with
          | |- context [if ?c then _ else _] => destruct c eqn:?
          end;
          [split; [done|];
           by rewrite !(new_events_app _ _ [_; _]) by (cbn; by rewrite <- app_assoc)|]).
  match goal with |- context [render ?d ?l m a (canvas ui1)] =>
    destruct (axes_determined_render d l m a _ _ Hax) as [Hr Hc];
    destruct (render d l m a (canvas ui1)) as [[e1|[]] c1],
             (render d l m a (canvas ui2)) as [[e2|[]] c2]
  end; cbn in Hr, Hc; simplify_eq.
  - split; [done|].
    by rewrite !(new_events_app _ _ [PlotBarChart ds ls m a; Unhandled e2])
      by (cbn; by rewrite <- app_assoc).
  - split; [done|].
    by rewrite !(new_events_app _ _ [PlotBarChart ds ls m a]).
Qed.

Lemma update_plot_determined (ui1 ui2 : UI) :
  file_data ui1 = file_data ui2 →
  file_list ui1 = file_list ui2 →
  figure_selector ui1 = figure_selector ui2 →
  abs_checkbox ui1 = abs_checkbox ui2 →
  axes (canvas (update_plot ui1)) = axes (canvas (update_plot ui2)) ∧
  new_events ui1 (update_plot ui1) = new_events ui2 (update_plot ui2).
Proof.
  intros Hd Hl Hf Ha. unfold update_plot, update_plot_with. rewrite Hl.
  destruct (selectedItems (file_list ui2)) as [|it sel].
  { split; [done|]. unfold new_events. cbn. by rewrite !drop_all. }
  cbn [canvas_do set_canvas file_data figure_selector abs_checkbox].
  rewrite Hd, Hf, Ha.
  destruct (collect_selected (file_data ui2) (it :: sel)) as [[|d ds] ls].
  { split; [done|]. unfold new_events. cbn. by rewrite !drop_all. }
  destruct (String.prefix "Figure 1" (figure_selector ui2)).
  { exact (call_plot_bar_chart_determined (d :: ds) ls "x" (abs_checkbox ui2)
             (canvas_do axes_clear ui1) (canvas_do axes_clear ui2) eq_refl). }
  destruct (String.prefix "Figure 2" (figure_selector ui2)).
  { exact (call_plot_bar_chart_determined (d :: ds) ls "y" (abs_checkbox ui2)
             (canvas_do axes_clear ui1) (canvas_do axes_clear ui2) eq_refl). }
  split; [done|]. unfold new_events. cbn. by rewrite !drop_all.
Qed.

(** X13. Redrawing is idempotent: running [update_plot] a second time,
    with nothing changed in between, makes the same calls and leaves the
    same chart on the axes. *)
Theorem update_plot_idempotent (ui : UI) :
  let once := update_plot ui in
  let twice := update_plot once in
  axes (canvas twice) = axes (canvas once) ∧
  new_events once twice = new_events ui once.
Proof.
  intros once twice.
  destruct (update_plot_file_data ui) as (H1 & H2 & H3 & H4 & _).
  by apply update_plot_determined.
Qed.


(** ** More on [remove_selected_files] *)

Lemma filter_all {A} (P : A → Prop) `{∀ x, Decision (P x)} (l : list A) :
  Forall P l → filter P l = l.
Proof.
  induction 1 as [|x l Hx _ IH]; [done|].
  by rewrite filter_cons_True, IH.
Qed.

Lemma filter_out_middle {A} `{EqDecision A} (a b : list A) (x : A) :
  NoDup (a ++ x :: b) → filter (λ y, y ≠ x) (a ++ x :: b) = a ++ b.
Proof.
  intros (Ha & Hab & [Hxb Hb]%NoDup_cons)%NoDup_app.
  rewrite filter_app, filter_cons_False by (intros ?; done).
  rewrite !filter_all; [done| |].
  - apply Forall_forall. by intros y Hy ->.
  - apply Forall_forall. intros y Hy ->. apply (Hab _ Hy). left.
Qed.

Lemma filter_filter_not_in {A} `{EqDecision A} (x : A) (xs l : list A) :
  filter (λ y, y ∉ xs) (filter (λ y, y ≠ x) l) = filter (λ y, y ∉ x :: xs) l.
Proof.
  induction l as [|y l IH]; [done|].
  destruct (decide (y = x)) as [->|Hne].
  - rewrite (filter_cons_False (λ y, y ≠ x)) by (intros ?; done).
    rewrite (filter_cons_False (λ y, y ∉ x :: xs)); [done|].
    intros Hn. apply Hn. left.
  - rewrite (filter_cons_True (λ y, y ≠ x)) by done.
    destruct (decide (y ∈ xs)) as [Hin|Hnin].
    + rewrite !filter_cons_False; [done| |]; intros Hn; apply Hn;
        [by right | done].
    + rewrite !filter_cons_True; [by rewrite IH| |done].
      by intros [?|?]%elem_of_cons.
Qed.

Lemma remove_loop_effect (sel : list QListWidgetItem) :
  ∀ ui : UI,
  well_formed ui →
  NoDup (item_id <$> sel) →
  Forall (λ it, (item_id it, item_text it) ∈ rows (file_list ui)) sel →
  texts (foldl remove_step ui sel) =
    filter (λ t, t ∉ item_text <$> sel) (texts ui) ∧
  ∀ q, file_data (foldl remove_step ui sel) !! q =
       if decide (q ∈ item_text <$> sel) then None else file_data ui !! q.
Proof.
  induction sel as [|item sel IH]; intros ui Hwf Hnd Hall.
  { cbn. split.
    - symmetry. apply filter_all, Forall_forall. intros t _. apply not_elem_of_nil.
    - intros q. by rewrite decide_False by apply not_elem_of_nil. }
  rewrite fmap_cons in Hnd. apply NoDup_cons in Hnd as [Hfresh Hnd].
  apply Forall_cons in Hall as [Hin Hall].
  destruct (remove_step_effect ui item Hwf Hin) as (a & b & Hab & Hab' & Hd & _).
  destruct (IH (remove_step ui item)) as [IHt IHd].
  { by apply remove_step_well_formed. }
  { done. }
  { rewrite Forall_forall in Hall. apply Forall_forall. intros it Hit.
    specialize (Hall it Hit). rewrite Hab in Hall. rewrite Hab'.
    apply elem_of_app in Hall as [Ha|Hb]; [apply elem_of_app; by left|].
    apply elem_of_cons in Hb as [Heq|Hb]; [|apply elem_of_app; by right].
    exfalso. apply Hfresh. injection Heq as <- _.
    apply list_elem_of_fmap. by exists it. }
  cbn [foldl]. split.
  - rewrite IHt, fmap_cons, <- filter_filter_not_in. f_equal.
    rewrite !texts_rows, Hab, Hab', !fmap_app, fmap_cons. cbn [snd].
    symmetry. apply filter_out_middle.
    destruct Hwf as [_ [_ Hnt]]. rewrite texts_rows, Hab in Hnt.
    by rewrite fmap_app, fmap_cons in Hnt.
  - intros q. rewrite IHd, Hd, fmap_cons.
    destruct (decide (q = item_text item)) as [->|Hne].
    + rewrite lookup_delete_eq. rewrite (decide_True (P := _ ∈ _ :: _)) by left.
      by destruct (decide _).
    + rewrite lookup_delete_ne by done.
      destruct (decide (q ∈ item_text <$> sel)) as [Hq|Hq].
      * by rewrite decide_True by (by right).
      * rewrite decide_False; [done|]. by intros [?|?]%elem_of_cons.
Qed.

(** The loop of [remove_selected_files], run on the selected items. *)
Lemma remove_selected_loop_effect (ui : UI) :
  well_formed ui →
  let gone := item_text <$> selectedItems (file_list ui) in
  let ui' := foldl remove_step ui (selectedItems (file_list ui)) in
  texts ui' = filter (λ t, t ∉ gone) (texts ui) ∧
  ∀ q, file_data ui' !! q =
       if decide (q ∈ gone) then None else file_data ui !! q.
Proof.
  intros Hwf gone ui'.
  apply (remove_loop_effect (selectedItems (file_list ui)) ui Hwf).
  - destruct Hwf as [[Hnd _] _]. unfold selectedItems.
    eapply sublist_NoDup; [exact Hnd | apply fmap_sublist, sublist_filter].
  - apply Forall_forall. intros it [_ Hit]%list_elem_of_filter.
    unfold rows. apply list_elem_of_fmap. by exists it.
Qed.

(** X14. [remove_selected_files] removes exactly the selected files: the
    list keeps the texts of the other items in their order, the dictionary
    loses the keys that were selected and keeps every other entry as it
    was. *)
Theorem remove_selected_files_effect (ui : UI) :
  well_formed ui →
  let gone := item_text <$> selectedItems (file_list ui) in
  let ui' := remove_selected_files ui in
  texts ui' = filter (λ t, t ∉ gone) (texts ui) ∧
  ∀ q, file_data ui' !! q =
       if decide (q ∈ gone) then None else file_data ui !! q.
Proof.
  intros Hwf gone ui'.
  destruct (remove_selected_loop_effect ui Hwf) as [Ht Hd].
  unfold ui', remove_selected_files.
  match goal with |- context [update_plot ?u] =>
    destruct (update_plot_file_data u) as (Hd' & Hl' & _) end.
  unfold texts in *. rewrite Hd', Hl'. done.
Qed.

(** ** More on [dropEvent] and [open_files] *)

(** X22. The loop of [remove_selected_files] may visit the selected
    items in any order: whatever list of them [selectedItems()] returns,
    the loop leaves the same dictionary and the same texts in the list,
    those of X14. *)
Theorem remove_order_irrelevant (sel : list QListWidgetItem) (ui : UI) :
  well_formed ui →
  sel ≡ₚ selectedItems (file_list ui) →
  let gone := item_text <$> selectedItems (file_list ui) in
  let ui' := foldl remove_step ui sel in
  texts ui' = filter (λ t, t ∉ gone) (texts ui) ∧
  (∀ q, file_data ui' !! q =
        if decide (q ∈ gone) then None else file_data ui !! q) ∧
  file_data ui' =
    file_data (foldl remove_step ui (selectedItems (file_list ui))) ∧
  texts ui' = texts (foldl remove_step ui (selectedItems (file_list ui))).
Proof.
  intros Hwf Hperm gone ui'.
  destruct (remove_selected_loop_effect ui Hwf) as [Ht0 Hd0].
  fold gone in Ht0, Hd0.
  destruct (remove_loop_effect sel ui Hwf) as [Ht Hd].
  { rewrite Hperm. destruct Hwf as [[Hnd _] _]. unfold selectedItems.
    eapply sublist_NoDup; [exact Hnd | apply fmap_sublist, sublist_filter]. }
  { rewrite Hperm. apply Forall_forall. intros it [_ Hit]%list_elem_of_filter.
    unfold rows. apply list_elem_of_fmap. by exists it. }
  fold ui' in Ht, Hd.
  assert (∀ q, q ∈ item_text <$> sel ↔ q ∈ gone) as Hmem.
  { intros q. unfold gone. by rewrite Hperm. }
  assert (texts ui' = filter (λ t, t ∉ gone) (texts ui)) as Ht'.
  { rewrite Ht. apply list_filter_iff. intros t. by rewrite Hmem. }
  assert (∀ q, file_data ui' !! q =
               if decide (q ∈ gone) then None else file_data ui !! q) as Hd'.
  { intros q. rewrite Hd. apply decide_ext, Hmem. }
  split; [exact Ht'|]. split; [exact Hd'|]. split.
  - apply map_eq. intros q. by rewrite Hd', Hd0.
  - by rewrite Ht', Ht0.
Qed.

Section batch_facts.
Context (read_transform : string → exn + ZernikeDistortion).

Lemma texts_length_rows (ui : UI) :
  length (texts ui) = length (rows (file_list ui)).
Proof. by rewrite texts_rows, length_fmap. Qed.

(** The counter of [dropEvent] counts the rows the list gains and the keys
    the dictionary gains. *)
Lemma drop_load_count (urls : list string) :
  ∀ (ui : UI) (n : nat),
  let r := foldl (drop_load_step read_transform) (ui, n) urls in
  ∃ k : nat,
    r.2 = (n + k)%nat ∧
    length (texts r.1) = (length (texts ui) + k)%nat ∧
    size (file_data r.1) = (size (file_data ui) + k)%nat.
Proof.
  induction urls as [|p urls IH]; intros ui n.
  { exists 0%nat. cbn [foldl fst snd]. by rewrite !Nat.add_0_r. }
  cbn [foldl]. cbn zeta.
  assert (∃ j : nat,
    (drop_load_step read_transform (ui, n) p).2 = (n + j)%nat ∧
    length (texts (drop_load_step read_transform (ui, n) p).1) =
      (length (texts ui) + j)%nat ∧
    size (file_data (drop_load_step read_transform (ui, n) p).1) =
      (size (file_data ui) + j)%nat) as (j & Hn & Ht & Hs).
  { unfold drop_load_step.
    destruct (bool_decide (p = "") || bool_decide (p ∈ dom (file_data ui)))
      eqn:E.
    { exists 0%nat. cbn [fst snd]. by rewrite !Nat.add_0_r. }
    apply orb_false_elim in E as [_ E]. apply bool_decide_eq_false in E.
    unfold try_load. destruct (read_transform p) as [e|d].
    - exists 0%nat. cbn [fst snd]. by rewrite !Nat.add_0_r.
    - exists 1%nat. cbn [fst snd]. split; [lia|]. split.
      + unfold texts, addItem. cbn. rewrite fmap_app, length_app. cbn. lia.
      + cbn. rewrite map_size_insert_None; [lia|]. by apply not_elem_of_dom. }
  destruct (drop_load_step read_transform (ui, n) p) as [ui1 n1].
  cbn [fst snd] in Hn, Ht, Hs.
  destruct (IH ui1 n1) as (k & Hk & Htk & Hsk).
  exists (j + k)%nat. cbn zeta in Hk, Htk, Hsk. lia.
Qed.

(** X15. After a drop that carries at least one URL, the status bar
    reports exactly the number of files the drop added: the list is that
    many items longer and the dictionary that many entries larger. *)
Theorem dropEvent_status_counts_loaded (urls : list string) (ui : UI) :
  urls ≠ [] →
  let ui' := dropEvent read_transform urls ui in
  ∃ n : nat,
    statusbar ui' = pretty n +:+ " file(s) loaded" ∧
    length (texts ui') = (length (texts ui) + n)%nat ∧
    size (file_data ui') = (size (file_data ui) + n)%nat.
Proof.
  intros Hne ui'. subst ui'. unfold dropEvent.
  destruct urls as [|p urls]; [done|]. clear Hne.
  generalize (p :: urls). clear p urls. intros urls.
  destruct (drop_load_count urls
              (set_drop_label "Drag your files here" ui) 0%nat)
    as (n & Hn & Ht & Hs).
  cbn zeta in Hn, Ht, Hs.
  destruct (foldl _ _ urls) as [ui1 n1]. cbn [fst snd] in Hn, Ht, Hs.
  subst n1. exists n. cbn [statusbar set_statusbar]. split; [done|].
  destruct (quiet_foldl drop_select_step urls quiet_drop_select_step ui1)
    as (Hd & Hr & _).
  rewrite !texts_length_rows in *. cbn [file_list file_data set_statusbar].
  rewrite Hd, Hr. split; [exact Ht | exact Hs].
Qed.
End batch_facts.

Section batch_dictionary.
Context (read_transform : string → exn + ZernikeDistortion).

(** A loading loop leaves alone what the batch does not name. *)
Lemma load_run_untouched (excl : string → Prop) (urls : list string)
    (ui ui' : UI) (q : string) :
  load_run read_transform excl urls ui ui' →
  q ∉ urls ∨ excl q →
  file_data ui' !! q = file_data ui !! q.
Proof.
  intros Hrun Hq.
  induction Hrun as [ui|p urls ui ui1 ui' Hstep _ IH]; [done|].
  rewrite IH by (destruct Hq as [Hq|Hq]; [left; set_solver | by right]).
  apply load_effect_cases in Hstep
    as (evs & _ & [(Hd & _)|(d & Hex & _ & _ & Hd & _)]); rewrite Hd; [done|].
  apply lookup_insert_ne. intros ->.
  destruct Hq as [Hq|Hq]; [apply Hq; left | done].
Qed.

(** The dictionary after a loading loop, key by key. *)
Lemma load_run_lookup (excl : string → Prop) `{∀ q, Decision (excl q)}
    (urls : list string) (ui ui' : UI) (q : string) :
  load_run read_transform excl urls ui ui' →
  file_data ui' !! q =
  match file_data ui !! q with
  | Some d => Some d
  | None =>
      if decide (q ∈ urls ∧ ¬ excl q) then
        match read_transform q with inr d => Some d | inl _ => None end
      else None
  end.
Proof.
  intros Hrun.
  destruct (file_data ui !! q) as [d|] eqn:E.
  { by eapply load_run_mono. }
  destruct (decide (q ∈ urls ∧ ¬ excl q)) as [[Hin Hex]|Hno].
  - destruct (load_run_events _ _ _ _ _ Hrun) as (evs & _ & Hev).
    destruct (Hev q Hin Hex) as [_ Hres]; [by apply not_elem_of_dom|].
    destruct (read_transform q) as [e|d] eqn:Er; [|tauto].
    destruct (load_run_failed _ _ _ _ _ q e Hrun Er) as [-> _]. done.
  - rewrite (load_run_untouched excl urls ui ui' q Hrun); [done|].
    destruct (decide (q ∈ urls)); [right|by left].
    destruct (decide (excl q)); [done|tauto].
Qed.

(** X16. The dictionary after a drop or an open, key by key: an entry
    that was there stays as it was, even when the file could be read
    anew; a path of the batch that was not loaded gets what
    [read_transform] returns for it, or nothing when the read raises; no
    other key appears. [dropEvent] ignores the empty path. *)
Theorem batch_file_data (urls : list string) (ui : UI) (q : string) :
  file_data (dropEvent read_transform urls ui) !! q =
    match file_data ui !! q with
    | Some d => Some d
    | None =>
        if decide (q ∈ urls ∧ ¬ q = "") then
          match read_transform q with inr d => Some d | inl _ => None end
        else None
    end ∧
  file_data (open_files read_transform (Some urls) ui) !! q =
    match file_data ui !! q with
    | Some d => Some d
    | None =>
        if decide (q ∈ urls) then
          match read_transform q with inr d => Some d | inl _ => None end
        else None
    end.
Proof.
  split.
  - destruct (dropEvent_run read_transform urls ui)
      as (mid & Hrun & (Hd & _)).
    rewrite Hd. by rewrite (load_run_lookup (λ q, q = "") urls _ mid q Hrun).
  - destruct (open_files_run read_transform urls ui)
      as (mid & Hrun & (Hd & _)).
    rewrite Hd. rewrite (load_run_lookup (λ _, False) urls _ mid q Hrun).
    destruct (file_data ui !! q); [done|].
    destruct (decide (q ∈ urls)).
    + by rewrite decide_True by tauto.
    + by rewrite decide_False by tauto.
Qed.

(** Two loading loops over the same batch, from windows that agree on the
    dictionary and the rows, end in windows that agree on them. *)
Lemma load_run_agree (excl1 excl2 : string → Prop) (urls : list string)
    (u1 v1 u2 v2 : UI) :
  load_run read_transform excl1 urls u1 v1 →
  load_run read_transform excl2 urls u2 v2 →
  Forall (λ p, excl1 p ↔ excl2 p) urls →
  file_data u1 = file_data u2 →
  rows (file_list u1) = rows (file_list u2) →
  next_id (file_list u1) = next_id (file_list u2) →
  file_data v1 = file_data v2 ∧
  rows (file_list v1) = rows (file_list v2) ∧
  next_id (file_list v1) = next_id (file_list v2).
Proof.
  intros Hrun1. revert u2 v2.
  induction Hrun1 as [u1|p urls u1 w1 v1 Hstep1 _ IH];
    intros u2 v2 Hrun2 Hex Hd Hr Hn.
  { by inversion Hrun2; subst. }
  inversion Hrun2 as [|p' urls' u2' w2 v2' Hstep2 Hrest]; subst.
  apply Forall_cons in Hex as [Hp Hex].
  apply (IH w2 v2 Hrest Hex).
  all: apply load_effect_cases in Hstep1 as (evs1 & _ & Hc1);
    apply load_effect_cases in Hstep2 as (evs2 & _ & Hc2);
    rewrite <- Hd, <- Hp in Hc2.
  all: destruct Hc1 as [(Hd1 & Hr1 & Hn1 & Hk1)|(d1 & Hx1 & Hp1 & He1 & Hd1 & Hr1 & Hn1 & _)];
    destruct Hc2 as [(Hd2 & Hr2 & Hn2 & Hk2)|(d2 & Hx2 & Hp2 & He2 & Hd2 & Hr2 & Hn2 & _)].
  all: try congruence.
  all: try (destruct Hk1 as [[? _]|(? & ? & ? & ? & _)]; try tauto; congruence).
  all: try (destruct Hk2 as [[? _]|(? & ? & ? & ? & _)]; try tauto; congruence).
Qed.

(** X17. Dropping a batch and opening the same batch load the same
    files: as long as no path of the batch is empty, the two handlers end
    with the same dictionary and the same rows in the list. *)
Theorem drop_and_open_agree (urls : list string) (ui : UI) :
  "" ∉ urls →
  file_data (dropEvent read_transform urls ui) =
    file_data (open_files read_transform (Some urls) ui) ∧
  rows (file_list (dropEvent read_transform urls ui)) =
    rows (file_list (open_files read_transform (Some urls) ui)).
Proof.
  intros Hne.
  destruct (dropEvent_run read_transform urls ui)
    as (mid1 & Hrun1 & (Hd1 & Hr1 & _)).
  destruct (open_files_run read_transform urls ui)
    as (mid2 & Hrun2 & (Hd2 & Hr2 & _)).
  destruct (load_run_agree _ _ urls _ mid1 _ mid2 Hrun1 Hrun2)
    as (Hd & Hr & _); try done.
  - apply Forall_forall. intros p Hp. split; [|done]. intros ->. done.
  - by rewrite Hd1, Hr1, Hd2, Hr2, Hd, Hr.
Qed.
End batch_dictionary.

(** ** What a batch selects *)

Lemma selection_grows_refl (w : QListWidget) : selection_grows w w.
Proof. apply Forall_Forall2_diag, Forall_forall. by intros it _. Qed.

Lemma selection_grows_trans (w1 w2 w3 : QListWidget) :
  selection_grows w1 w2 → selection_grows w2 w3 → selection_grows w1 w3.
Proof.
  unfold selection_grows. generalize (items w1), (items w2), (items w3).
  intros l1 l2 l3 H12. revert l3.
  induction H12 as [|a b l1 l2 (? & ? & ?) _ IH]; intros l3 H23;
    inversion H23 as [|? c ? l3' (? & ? & ?) H23']; subst; constructor.
  - split; [congruence|]. split; [congruence | auto].
  - by apply IH.
Qed.

Lemma selection_grows_mark_selected (id : nat) (w : QListWidget) :
  selection_grows w (mark_selected id w).
Proof.
  unfold selection_grows, mark_selected. cbn [items].
  apply Forall2_fmap_r, Forall_Forall2_diag, Forall_forall.
  intros it _. cbn. destruct (decide (item_id it = id)); cbn; auto.
Qed.

Lemma selection_grows_ids (w w' : QListWidget) :
  selection_grows w w' → item_id <$> items w = item_id <$> items w'.
Proof.
  unfold selection_grows. generalize (items w), (items w').
  induction 1 as [|a b l1 l2 (? & _) _ IH]; [done|]. cbn. congruence.
Qed.

Lemma selection_grows_texts (w w' : QListWidget) :
  selection_grows w w' → item_text <$> items w = item_text <$> items w'.
Proof.
  unfold selection_grows. generalize (items w), (items w').
  induction 1 as [|a b l1 l2 (_ & ? & _) _ IH]; [done|]. cbn. congruence.
Qed.

(** What was selected for a reason stays selected for that reason. *)
Lemma selection_grows_keeps (Q : nat → string → Prop) (w w' : QListWidget) :
  selection_grows w w' →
  (∀ it, it ∈ items w → Q (item_id it) (item_text it) →
         item_selected it = true) →
  ∀ it', it' ∈ items w' → Q (item_id it') (item_text it') →
         item_selected it' = true.
Proof.
  intros Hg Hsel it' Hin HQ.
  apply list_elem_of_lookup in Hin as [i Hi].
  destruct (Forall2_lookup_r _ _ _ _ _ Hg Hi) as (it & Hit & Hid & Htext & Himp).
  apply Himp, Hsel; [by eapply list_elem_of_lookup_2|].
  by rewrite Hid, Htext.
Qed.

Lemma selection_grows_setSelected_True (item : QListWidgetItem) (ui : UI) :
  selection_grows (file_list ui) (file_list (setSelected_True item ui)).
Proof.
  unfold setSelected_True.
  destruct (list_find _ _) as [[i it]|]; [|apply selection_grows_refl].
  destruct (item_selected it); [apply selection_grows_refl|].
  match goal with |- context [update_plot ?u] =>
    destruct (update_plot_file_data u) as (_ & -> & _) end.
  apply selection_grows_mark_selected.
Qed.

Lemma setSelected_True_selects (item : QListWidgetItem) (ui : UI) :
  NoDup (item_id <$> items (file_list ui)) →
  ∀ it', it' ∈ items (file_list (setSelected_True item ui)) →
         item_id it' = item_id item → item_selected it' = true.
Proof.
  intros Hnd it' Hin Hid. unfold setSelected_True in Hin.
  destruct (list_find _ _) as [[i it]|] eqn:Hfind.
  - apply list_find_Some in Hfind as (Hi & Hp & _).
    destruct (item_selected it) eqn:Hsel.
    + apply list_elem_of_lookup in Hin as [j Hj].
      assert (i = j) as ->; [|congruence].
      apply (NoDup_lookup _ _ _ (item_id item) Hnd);
        rewrite list_lookup_fmap; [by rewrite Hi; cbn; rewrite Hp|].
      by rewrite Hj; cbn; rewrite Hid.
    + revert Hin.
      match goal with |- context [update_plot ?u] =>
        destruct (update_plot_file_data u) as (_ & -> & _) end.
      cbn [file_list set_file_list mark_selected items].
      intros (it0 & -> & _)%list_elem_of_fmap.
      destruct (decide (item_id it0 = item_id item)) as [|Hne]; [done|].
      by destruct Hne.
  - apply list_find_None in Hfind. rewrite Forall_forall in Hfind.
    by destruct (Hfind it' Hin).
Qed.

Lemma select_all_items (its : list QListWidgetItem) :
  ∀ ui : UI,
  NoDup (item_id <$> items (file_list ui)) →
  let ui' := foldl (λ ui item, setSelected_True item ui) ui its in
  selection_grows (file_list ui) (file_list ui') ∧
  ∀ item it', item ∈ its → it' ∈ items (file_list ui') →
              item_id it' = item_id item → item_selected it' = true.
Proof.
  induction its as [|item its IH]; intros ui Hnd.
  { split; [apply selection_grows_refl|]. by intros ?? ?%elem_of_nil. }
  cbn [foldl]. cbn zeta.
  pose proof (selection_grows_setSelected_True item ui) as Hg1.
  destruct (IH (setSelected_True item ui)) as [Hg2 Hsel].
  { by rewrite <- (selection_grows_ids _ _ Hg1). }
  split; [by eapply selection_grows_trans|].
  intros item' it' [->|Hin]%elem_of_cons Hit' Hid; [|by eapply Hsel].
  apply (selection_grows_keeps (λ id _, id = item_id item) _ _ Hg2);
    [|done|done].
  intros it Hit Hid'. by apply (setSelected_True_selects item ui).
Qed.

Lemma drop_select_step_selects (p : string) (ui : UI) :
  NoDup (item_id <$> items (file_list ui)) →
  selection_grows (file_list ui) (file_list (drop_select_step ui p)) ∧
  (p ≠ "" →
   ∀ it', it' ∈ items (file_list (drop_select_step ui p)) →
          item_text it' = p → item_selected it' = true).
Proof.
  intros Hnd. unfold drop_select_step.
  case_bool_decide as Hp; [split; [apply selection_grows_refl | done]|].
  destruct (select_all_items (findItems p (file_list ui)) ui Hnd)
    as [Hg Hsel].
  split; [exact Hg|]. intros _ it' Hin Htext.
  apply list_elem_of_lookup in Hin as Hi. destruct Hi as [i Hi].
  destruct (Forall2_lookup_r _ _ _ _ _ Hg Hi) as (it & Hit & Hid & Htext' & _).
  apply (Hsel it it'); [|done|done].
  unfold findItems. apply list_elem_of_filter. split; [congruence|].
  by eapply list_elem_of_lookup_2.
Qed.

Lemma drop_select_loop_selects (urls : list string) :
  ∀ ui : UI,
  NoDup (item_id <$> items (file_list ui)) →
  let ui' := foldl drop_select_step ui urls in
  selection_grows (file_list ui) (file_list ui') ∧
  ∀ p it', p ∈ urls → p ≠ "" → it' ∈ items (file_list ui') →
           item_text it' = p → item_selected it' = true.
Proof.
  induction urls as [|p urls IH]; intros ui Hnd.
  { split; [apply selection_grows_refl|]. by intros ?? ?%elem_of_nil. }
  cbn [foldl]. cbn zeta.
  destruct (drop_select_step_selects p ui Hnd) as [Hg1 Hsel1].
  destruct (IH (drop_select_step ui p)) as [Hg2 Hsel2].
  { by rewrite <- (selection_grows_ids _ _ Hg1). }
  split; [by eapply selection_grows_trans|].
  intros q it' [->|Hin]%elem_of_cons Hq Hit' Htext; [|by eapply Hsel2].
  apply (selection_grows_keeps (λ _ t, t = p) _ _ Hg2); [|done|done].
  intros it Hit Ht. by apply Hsel1.
Qed.

Lemma open_select_step_selects (p : string) (ui : UI) :
  NoDup (item_id <$> items (file_list ui)) →
  NoDup (item_text <$> items (file_list ui)) →
  selection_grows (file_list ui) (file_list (open_select_step ui p)) ∧
  ∀ it', it' ∈ items (file_list (open_select_step ui p)) →
         item_text it' = p → item_selected it' = true.
Proof.
  intros Hnd Hnt. unfold open_select_step.
  destruct (findItems p (file_list ui)) as [|item rest] eqn:Efind.
  { split; [apply selection_grows_refl|]. intros it' Hin Htext.
    assert (it' ∈ findItems p (file_list ui)) as Hf.
    { apply list_elem_of_filter. done. }
    rewrite Efind in Hf. by apply elem_of_nil in Hf. }
  pose proof (selection_grows_setSelected_True item ui) as Hg.
  split; [exact Hg|]. intros it' Hin Htext.
  apply (setSelected_True_selects item ui Hnd it' Hin).
  apply list_elem_of_lookup in Hin as [i Hi].
  destruct (Forall2_lookup_r _ _ _ _ _ Hg Hi) as (it & Hit & Hid & Htext' & _).
  assert (item ∈ findItems p (file_list ui)) as Hitem
    by (rewrite Efind; left).
  apply list_elem_of_filter in Hitem as [Hp Hitem].
  apply list_elem_of_lookup in Hitem as [j Hj].
  assert (i = j) as ->; [|congruence].
  apply (NoDup_lookup _ _ _ p Hnt); rewrite list_lookup_fmap.
  - rewrite Hit. cbn. congruence.
  - by rewrite Hj; cbn; rewrite Hp.
Qed.

Lemma open_select_loop_selects (paths : list string) :
  ∀ ui : UI,
  NoDup (item_id <$> items (file_list ui)) →
  NoDup (item_text <$> items (file_list ui)) →
  let ui' := foldl open_select_step ui paths in
  selection_grows (file_list ui) (file_list ui') ∧
  ∀ p it', p ∈ paths → it' ∈ items (file_list ui') →
           item_text it' = p → item_selected it' = true.
Proof.
  induction paths as [|p paths IH]; intros ui Hnd Hnt.
  { split; [apply selection_grows_refl|]. by intros ?? ?%elem_of_nil. }
  cbn [foldl]. cbn zeta.
  destruct (open_select_step_selects p ui Hnd Hnt) as [Hg1 Hsel1].
  destruct (IH (open_select_step ui p)) as [Hg2 Hsel2].
  { by rewrite <- (selection_grows_ids _ _ Hg1). }
  { by rewrite <- (selection_grows_texts _ _ Hg1). }
  split; [by eapply selection_grows_trans|].
  intros q it' [->|Hin]%elem_of_cons Hit' Htext; [|by eapply Hsel2].
  apply (selection_grows_keeps (λ _ t, t = p) _ _ Hg2); [|done|done].
  intros it Hit Ht. by apply Hsel1.
Qed.

(** X18. After a drop or an open, every item of the list that shows a
    path of the batch is selected, whether the batch loaded the file or it
    was loaded before. [dropEvent] ignores the empty path. *)
Theorem batch_items_are_selected
    (read_transform : string → exn + ZernikeDistortion)
    (urls : list string) (ui : UI) :
  well_formed ui →
  (∀ p it, p ∈ urls → p ≠ "" →
     it ∈ items (file_list (dropEvent read_transform urls ui)) →
     item_text it = p → item_selected it = true) ∧
  (∀ p it, p ∈ urls →
     it ∈ items (file_list (open_files read_transform (Some urls) ui)) →
     item_text it = p → item_selected it = true).
Proof.
  intros Hwf. split.
  - intros p it Hp Hne. unfold dropEvent.
    destruct urls as [|u urls]; [by apply elem_of_nil in Hp|].
    revert Hp. generalize (u :: urls). clear u urls. intros urls Hp.
    pose proof (drop_load_run read_transform urls
                  (set_drop_label "Drag your files here" ui) 0%nat) as Hrun.
    destruct (foldl _ _ urls) as [ui1 n]. cbn [fst] in Hrun.
    cbn [file_list set_statusbar].
    assert (well_formed ui1) as [[Hnd _] _].
    { eapply load_run_well_formed; [exact Hrun | exact Hwf]. }
    destruct (drop_select_loop_selects urls ui1 Hnd) as [_ Hsel].
    intros Hin Ht. by apply (Hsel p it).
  - intros p it Hp. unfold open_files.
    match goal with |- context [update_plot ?u] =>
      destruct (update_plot_file_data u) as (_ & -> & _) end.
    assert (well_formed (foldl (open_load_step read_transform) ui urls))
      as [[Hnd _] [_ Hnt]].
    { eapply load_run_well_formed; [apply open_load_run | exact Hwf]. }
    destruct (open_select_loop_selects urls _ Hnd Hnt) as [_ Hsel].
    intros Hin Ht. by apply (Hsel p it).
Qed.

(** ** Dropping files and deleting them again *)

Lemma selection_within_refl (Q : nat → string → Prop) (w : QListWidget) :
  selection_within Q w w.
Proof. apply Forall_Forall2_diag, Forall_forall. intros it _. auto. Qed.

Lemma selection_within_trans (Q : nat → string → Prop) (w1 w2 w3 : QListWidget) :
  selection_within Q w1 w2 → selection_within Q w2 w3 →
  selection_within Q w1 w3.
Proof.
  unfold selection_within. generalize (items w1), (items w2), (items w3).
  intros l1 l2 l3 H12. revert l3.
  induction H12 as [|a b l1 l2 (Hid & Ht & H1) _ IH]; intros l3 H23;
    inversion H23 as [|? c ? l3' (Hid' & Ht' & H2) H23']; subst; constructor.
  - split; [congruence|]. split; [congruence|]. intros Hc.
    destruct (H2 Hc) as [Hb|HQ]; [by apply H1|]. right. by rewrite Hid, Ht.
  - by apply IH.
Qed.

Lemma selection_within_weaken (Q Q' : nat → string → Prop) (w w' : QListWidget) :
  selection_within Q w w' →
  (∀ it, it ∈ items w → Q (item_id it) (item_text it) →
         Q' (item_id it) (item_text it)) →
  selection_within Q' w w'.
Proof.
  unfold selection_within. intros H HQ.
  apply Forall2_same_length_lookup. split; [by eapply Forall2_length|].
  intros i it it' Hit Hit'.
  destruct (Forall2_lookup_lr _ _ _ _ _ _ H Hit Hit') as (Hid & Ht & Himp).
  split; [done|]. split; [done|]. intros Hs.
  destruct (Himp Hs) as [?|?]; [by left|]. right. apply HQ; [|done].
  by eapply list_elem_of_lookup_2.
Qed.

Lemma selection_within_setSelected_True (item : QListWidgetItem) (ui : UI) :
  selection_within (λ id _, id = item_id item)
    (file_list ui) (file_list (setSelected_True item ui)).
Proof.
  unfold setSelected_True.
  destruct (list_find _ _) as [[i it]|]; [|apply selection_within_refl].
  destruct (item_selected it); [apply selection_within_refl|].
  match goal with |- context [update_plot ?u] =>
    destruct (update_plot_file_data u) as (_ & -> & _) end.
  unfold selection_within, mark_selected. cbn [file_list set_file_list items].
  apply Forall2_fmap_r, Forall_Forall2_diag, Forall_forall.
  intros it0 _. cbn. destruct (decide (item_id it0 = item_id item)); cbn; auto.
Qed.

Lemma select_all_items_within (its : list QListWidgetItem) :
  ∀ ui : UI,
  selection_within (λ id _, id ∈ item_id <$> its) (file_list ui)
    (file_list (foldl (λ ui item, setSelected_True item ui) ui its)).
Proof.
  induction its as [|item its IH]; intros ui; [apply selection_within_refl|].
  cbn [foldl].
  eapply selection_within_trans.
  - eapply selection_within_weaken;
      [apply (selection_within_setSelected_True item ui)|].
    intros it _ ->. rewrite fmap_cons. left.
  - eapply selection_within_weaken; [apply IH|].
    intros it _ Hin. rewrite fmap_cons. by right.
Qed.

Lemma drop_select_step_within (p : string) (ui : UI) :
  NoDup (item_id <$> items (file_list ui)) →
  selection_within (λ _ t, t = p ∧ p ≠ "")
    (file_list ui) (file_list (drop_select_step ui p)).
Proof.
  intros Hnd. unfold drop_select_step.
  case_bool_decide as Hp; [apply selection_within_refl|].
  eapply selection_within_weaken; [apply select_all_items_within|].
  intros it Hit (it0 & Hid & [Ht0 Hin0]%list_elem_of_filter)%list_elem_of_fmap.
  split; [|done].
  apply list_elem_of_lookup in Hit as [i Hi], Hin0 as [j Hj].
  assert (i = j) as ->; [|congruence].
  apply (NoDup_lookup _ _ _ (item_id it) Hnd); rewrite list_lookup_fmap.
  - by rewrite Hi.
  - rewrite Hj. cbn. congruence.
Qed.

Lemma drop_select_loop_within (urls : list string) :
  ∀ ui : UI,
  NoDup (item_id <$> items (file_list ui)) →
  selection_within (λ _ t, t ∈ urls ∧ t ≠ "")
    (file_list ui) (file_list (foldl drop_select_step ui urls)).
Proof.
  induction urls as [|p urls IH]; intros ui Hnd;
    [apply selection_within_refl|].
  cbn [foldl].
  pose proof (drop_select_step_selects p ui Hnd) as [Hg _].
  eapply selection_within_trans.
  - eapply selection_within_weaken; [by apply drop_select_step_within|].
    intros it _ [-> ?]. split; [left | done].
  - eapply selection_within_weaken; [apply IH|].
    + by rewrite <- (selection_grows_ids _ _ Hg).
    + intros it _ [? ?]. split; [by right | done].
Qed.

Section drop_round_trip.
Context (read_transform : string → exn + ZernikeDistortion).

(** The loading loop of [dropEvent] appends unselected items and leaves
    the others as they are. *)
Lemma drop_load_loop_items (urls : list string) :
  ∀ (ui : UI) (n : nat),
  ∃ new,
    items (file_list (foldl (drop_load_step read_transform) (ui, n) urls).1) =
      items (file_list ui) ++ new ∧
    Forall (λ it, item_selected it = false ∧ item_text it ∈ urls ∧
                  item_text it ≠ "" ∧ item_text it ∉ dom (file_data ui)) new ∧
    dom (file_data ui) ⊆
      dom (file_data (foldl (drop_load_step read_transform) (ui, n) urls).1).
Proof.
  induction urls as [|p urls IH]; intros ui n.
  { exists []. cbn. by rewrite app_nil_r. }
  cbn [foldl].
  assert (∃ new1,
    items (file_list (drop_load_step read_transform (ui, n) p).1) =
      items (file_list ui) ++ new1 ∧
    Forall (λ it, item_selected it = false ∧ item_text it = p ∧
                  item_text it ≠ "" ∧ item_text it ∉ dom (file_data ui)) new1 ∧
    dom (file_data ui) ⊆
      dom (file_data (drop_load_step read_transform (ui, n) p).1))
    as (new1 & Hitems1 & Hnew1 & Hdom1).
  { unfold drop_load_step.
    destruct (bool_decide (p = "")) eqn:E1.
    { exists []. cbn. by rewrite app_nil_r. }
    destruct (bool_decide (p ∈ dom (file_data ui))) eqn:E2.
    { exists []. cbn. by rewrite app_nil_r. }
    apply bool_decide_eq_false in E1, E2. cbn [orb].
    unfold try_load. destruct (read_transform p) as [e|d].
    - exists []. cbn. by rewrite app_nil_r.
    - eexists [_]. cbn. split; [done|]. split; [by repeat constructor|].
      rewrite dom_insert_L. set_solver. }
  destruct (drop_load_step read_transform (ui, n) p) as [ui1 n1].
  cbn [fst] in *.
  destruct (IH ui1 n1) as (new2 & Hitems2 & Hnew2 & Hdom2).
  exists (new1 ++ new2). split; [by rewrite Hitems2, Hitems1, app_assoc|].
  split; [|set_solver].
  apply Forall_app. split.
  - eapply Forall_impl; [exact Hnew1|]. cbn.
    intros it (? & -> & ? & ?). repeat split; try done. left.
  - eapply Forall_impl; [exact Hnew2|]. cbn.
    intros it (? & ? & ? & ?). repeat split; try done; [by right|].
    set_solver.
Qed.
(** The list after a drop: the old items in their order, then the new
    ones; what is selected was selected before or shows a path of the
    batch, and every item that shows a path of the batch is selected. *)
Lemma dropEvent_items (urls : list string) (ui : UI) :
  well_formed ui →
  let ui1 := dropEvent read_transform urls ui in
  ∃ new,
    texts ui1 = texts ui ++ (item_text <$> new) ∧
    Forall (λ it, item_text it ∈ urls ∧ item_text it ≠ "" ∧
                  item_text it ∉ dom (file_data ui)) new ∧
    (∀ it, it ∈ items (file_list ui1) → item_selected it = true →
           item_text it ∈ item_text <$> selectedItems (file_list ui) ∨
           (item_text it ∈ urls ∧ item_text it ≠ "")) ∧
    (∀ it, it ∈ items (file_list ui1) → item_text it ∈ urls →
           item_text it ≠ "" → item_selected it = true).
Proof.
  intros Hwf ui1. subst ui1. unfold dropEvent, texts.
  destruct urls as [|u urls].
  { exists []. cbn. rewrite app_nil_r. split; [done|]. split; [done|].
    split.
    - intros it0 Hit Hs. left. apply list_elem_of_fmap. exists it0.
      split; [done|]. by apply list_elem_of_filter.
    - by intros it0 _ ?%elem_of_nil. }
  generalize (u :: urls). clear u urls. intros urls.
  destruct (drop_load_loop_items urls
              (set_drop_label "Drag your files here" ui) 0%nat)
    as (new & Hitems & Hnew & _).
  pose proof (drop_load_run read_transform urls
                (set_drop_label "Drag your files here" ui) 0%nat) as Hrun.
  destruct (foldl (drop_load_step read_transform) _ urls) as [mid n].
  cbn [fst file_list file_data set_drop_label] in Hitems, Hnew, Hrun.
  cbn [file_list set_statusbar].
  assert (well_formed mid) as [[Hnd _] _].
  { eapply load_run_well_formed; [exact Hrun | exact Hwf]. }
  pose proof (drop_select_loop_within urls mid Hnd) as Hwithin.
  destruct (drop_select_loop_selects urls mid Hnd) as [Hg Hsel].
  exists new. split.
  { rewrite <- (selection_grows_texts _ _ Hg), Hitems, fmap_app. done. }
  split.
  { eapply Forall_impl; [exact Hnew|]. cbn. tauto. }
  split.
  - intros it0 Hit Hs.
    apply list_elem_of_lookup in Hit as [i Hi].
    destruct (Forall2_lookup_r _ _ _ _ _ Hwithin Hi)
      as (it1 & Hit1 & _ & Htext & Himp).
    rewrite <- Htext.
    destruct (Himp Hs) as [Hs1|HQ]; [|by right]. left.
    rewrite Hitems in Hit1. apply lookup_app_Some in Hit1 as [Hold|[_ Hn]].
    + apply list_elem_of_fmap. exists it1. split; [done|].
      apply list_elem_of_filter. split; [done|].
      by eapply list_elem_of_lookup_2.
    + exfalso. rewrite Forall_forall in Hnew.
      destruct (Hnew it1) as [Hf _]; [by eapply list_elem_of_lookup_2|].
      congruence.
  - intros it0 Hit Hin Hne. by apply (Hsel (item_text it0) it0).
Qed.

(** X19. A drop selects nothing but its batch: an item that is selected
    after [dropEvent] shows the text of an item that was selected before,
    or a path of the batch that is not empty. *)
Theorem dropEvent_selects_only_batch (urls : list string) (ui : UI) :
  well_formed ui →
  ∀ it, it ∈ selectedItems (file_list (dropEvent read_transform urls ui)) →
        item_text it ∈ item_text <$> selectedItems (file_list ui) ∨
        (item_text it ∈ urls ∧ item_text it ≠ "").
Proof.
  intros Hwf it0 [Hs Hit]%list_elem_of_filter.
  destruct (dropEvent_items urls ui Hwf) as (_ & _ & _ & Hupper & _).
  by apply Hupper.
Qed.

(** X20. Dropping files and deleting them again is a round trip: from a
    window with no item selected, a drop of paths that were not loaded,
    followed by [remove_selected_files], gives back the dictionary and the
    texts of the list as they were before the drop. *)
Theorem drop_then_remove (urls : list string) (ui : UI) :
  well_formed ui →
  selectedItems (file_list ui) = [] →
  Forall (λ p, p ∉ dom (file_data ui)) urls →
  let ui' := remove_selected_files (dropEvent read_transform urls ui) in
  file_data ui' = file_data ui ∧ texts ui' = texts ui.
Proof.
  intros Hwf Hnosel Hfresh ui'.
  set (ui1 := dropEvent read_transform urls ui).
  assert (well_formed ui1) as Hwf1 by (by apply dropEvent_well_formed).
  destruct (remove_selected_loop_effect ui1 Hwf1) as [Ht Hd].
  assert (file_data ui' = file_data (foldl remove_step ui1
                                       (selectedItems (file_list ui1))) ∧
          texts ui' = texts (foldl remove_step ui1
                               (selectedItems (file_list ui1))))
    as [-> ->].
  { unfold ui', remove_selected_files. fold ui1.
    match goal with |- context [update_plot ?u] =>
      destruct (update_plot_file_data u) as (Hd' & Hl' & _) end.
    unfold texts. by rewrite Hd', Hl'. }
  rewrite Ht. clear Ht.
  set (gone := item_text <$> selectedItems (file_list ui1)) in *.
  destruct (dropEvent_items urls ui Hwf)
    as (new & Htexts1 & Hnew & Hupper & Hlower).
  fold ui1 in Htexts1, Hupper, Hlower.
  rewrite Forall_forall in Hnew. rewrite Forall_forall in Hfresh.
  destruct Hwf as [_ [Hdom0 _]].
  assert (∀ q, q ∈ texts ui → q ∈ dom (file_data ui)) as Hold.
  { intros q Hq. rewrite Hdom0. by apply elem_of_list_to_set. }
  assert (∀ q, q ∈ gone ↔ q ∈ item_text <$> new) as Hgone.
  { intros q. unfold gone, selectedItems. split.
    - intros (it0 & -> & [Hs Hit]%list_elem_of_filter)%list_elem_of_fmap.
      destruct (Hupper it0 Hit Hs) as [Hsel0|[Hin Hne]].
      { rewrite Hnosel in Hsel0. by apply elem_of_nil in Hsel0. }
      assert (item_text it0 ∈ texts ui1) as Hmem
        by (apply list_elem_of_fmap; eauto).
      rewrite Htexts1 in Hmem. apply elem_of_app in Hmem as [Hq|?]; [|done].
      exfalso. by apply (Hfresh _ Hin), Hold.
    - intros Hq.
      assert (q ∈ texts ui1) as Hmem.
      { rewrite Htexts1. apply elem_of_app. by right. }
      apply list_elem_of_fmap in Hmem as (it0 & -> & Hit).
      apply list_elem_of_fmap in Hq as (it2 & Heq & Hit2).
      destruct (Hnew it2 Hit2) as (Hin & Hne & _).
      apply list_elem_of_fmap. exists it0. split; [done|].
      apply list_elem_of_filter. split; [|done].
      apply Hlower; [done | by rewrite Heq | by rewrite Heq]. }
  assert (∀ q, q ∈ item_text <$> new → q ∉ dom (file_data ui)) as Hnewfresh.
  { intros q (it0 & -> & Hit)%list_elem_of_fmap.
    by destruct (Hnew it0 Hit) as (_ & _ & ?). }
  split.
  - apply map_eq. intros q. rewrite Hd.
    destruct (decide (q ∈ gone)) as [Hq|Hq].
    + symmetry. apply not_elem_of_dom, Hnewfresh. by apply Hgone.
    + destruct (dropEvent_run read_transform urls ui)
        as (mid & Hrun & (Hdmid & _)).
      fold ui1 in Hdmid. rewrite Hdmid.
      rewrite (load_run_lookup read_transform (λ q, q = "") urls _ mid q Hrun).
      cbn [file_data set_drop_label].
      destruct (file_data ui !! q) as [d|] eqn:E; [done|].
      destruct (decide _) as [[Hin Hne]|]; [|done].
      destruct (read_transform q) as [e|d] eqn:Er; [done|].
      exfalso. apply (Hfresh _ Hin), Hold.
      assert (q ∈ texts ui1) as Hmem.
      { destruct Hwf1 as [_ [Hdom1 _]].
        apply (elem_of_list_to_set (C := gset string)). rewrite <- Hdom1.
        apply elem_of_dom. rewrite Hdmid.
        rewrite (load_run_lookup read_transform (λ q, q = "") urls _ mid q
                   Hrun).
        cbn [file_data set_drop_label]. rewrite E.
        rewrite decide_True by done. by rewrite Er. }
      rewrite Htexts1 in Hmem. apply elem_of_app in Hmem as [?|Hn]; [done|].
      exfalso. by apply Hq, Hgone.
  - rewrite Htexts1, filter_app.
    rewrite filter_all.
    + assert (filter (λ t, t ∉ gone) (item_text <$> new) = []) as ->;
        [|by rewrite app_nil_r].
      apply elem_of_nil_inv. intros q [Hng Hq]%list_elem_of_filter.
      by apply Hng, Hgone.
    + apply Forall_forall. intros q Hq Hg. apply Hgone in Hg.
      by apply (Hnewfresh q), Hold.
Qed.
End drop_round_trip.

(** ** The drag events *)

(** The operations behind [dropEvent] never read the status bar. *)
Lemma update_plot_set_statusbar (msg : string) (ui : UI) :
  update_plot (set_statusbar msg ui) = set_statusbar msg (update_plot ui).
Proof.
  unfold update_plot, update_plot_with.
  cbn [set_statusbar file_list file_data figure_selector abs_checkbox].
  destruct (selectedItems (file_list ui)) as [|it its]; [done|].
  destruct (collect_selected _ _) as [[|d ds] ls]; [done|].
  unfold call_plot_bar_chart, canvas_do, emit.
  cbn [set_statusbar set_canvas set_log canvas log file_list file_data
       figure_selector abs_checkbox].
  destruct (String.prefix "Figure 1" _).
  - by destruct (plot_bar_chart _ _ _ _ _) as [cv|e []].
  - destruct (String.prefix "Figure 2" _); [|done].
    by destruct (plot_bar_chart _ _ _ _ _) as [cv|e []].
Qed.

Lemma setSelected_True_set_statusbar (msg : string)
    (item : QListWidgetItem) (ui : UI) :
  setSelected_True item (set_statusbar msg ui) =
    set_statusbar msg (setSelected_True item ui).
Proof.
  unfold setSelected_True. cbn [set_statusbar file_list].
  destruct (list_find _ _) as [[i it]|]; [|done].
  destruct (item_selected it); [done|].
  by rewrite <- update_plot_set_statusbar.
Qed.

Lemma drop_select_loop_set_statusbar (msg : string) (urls : list string) :
  ∀ ui : UI,
  foldl drop_select_step (set_statusbar msg ui) urls =
    set_statusbar msg (foldl drop_select_step ui urls).
Proof.
  induction urls as [|p urls IH]; intros ui; [done|].
  cbn [foldl]. rewrite <- IH. f_equal.
  unfold drop_select_step. case_bool_decide; [done|].
  cbn [set_statusbar file_list].
  generalize (findItems p (file_list ui)). intros its. revert ui.
  induction its as [|item its IHits]; intros ui; [done|].
  cbn [foldl]. by rewrite setSelected_True_set_statusbar, IHits.
Qed.

Section drag_events.
Context (read_transform : string → exn + ZernikeDistortion).

Lemma drop_load_loop_set_statusbar (msg : string) (urls : list string) :
  ∀ (ui : UI) (n : nat),
  foldl (drop_load_step read_transform) (set_statusbar msg ui, n) urls =
    (set_statusbar msg
       (foldl (drop_load_step read_transform) (ui, n) urls).1,
     (foldl (drop_load_step read_transform) (ui, n) urls).2).
Proof.
  induction urls as [|p urls IH]; intros ui n; [done|].
  cbn [foldl].
  assert (drop_load_step read_transform (set_statusbar msg ui, n) p =
          (set_statusbar msg (drop_load_step read_transform (ui, n) p).1,
           (drop_load_step read_transform (ui, n) p).2)) as ->.
  { unfold drop_load_step, try_load. cbn [set_statusbar file_data].
    destruct (_ || _); [done|].
    by destruct (read_transform p). }
  rewrite IH. by destruct (drop_load_step read_transform (ui, n) p).
Qed.

(** [dropEvent] reads neither the label of the drop area nor, when the
    batch is not empty, the status bar. *)
Lemma dropEvent_set_chrome (msg label : string) (urls : list string) (ui : UI) :
  urls ≠ [] →
  dropEvent read_transform urls (set_statusbar msg (set_drop_label label ui)) =
    dropEvent read_transform urls ui.
Proof.
  intros Hne. unfold dropEvent.
  destruct urls as [|u urls]; [done|].
  generalize (u :: urls). clear u urls Hne. intros urls.
  change (set_drop_label "Drag your files here"
            (set_statusbar msg (set_drop_label label ui)))
    with (set_statusbar msg (set_drop_label "Drag your files here" ui)).
  rewrite drop_load_loop_set_statusbar.
  destruct (foldl (drop_load_step read_transform) _ urls) as [mid n].
  cbn [fst snd]. by rewrite drop_select_loop_set_statusbar.
Qed.

(** X21. What a drag that enters the drop area shows is gone once the
    drag ends: a drop of a batch that is not empty leaves the window as
    the same drop without the drag would, and so does a drag that
    leaves. *)
Theorem drag_enter_is_undone (entered urls : list string) (ui : UI) :
  urls ≠ [] →
  dropEvent read_transform urls (dragEnterEvent entered ui) =
    dropEvent read_transform urls ui ∧
  dragLeaveEvent (dragEnterEvent entered ui) = dragLeaveEvent ui.
Proof.
  intros Hne. unfold dragEnterEvent.
  destruct entered as [|e entered]; [done|].
  split; [by apply dropEvent_set_chrome | done].
Qed.
End drag_events.

(** ** [open_files], whatever [setCurrentItem] does to the selection *)

Section any_setCurrentItem.
Context (set_current : QListWidgetItem → UI → UI).
Context (read_transform : string → exn + ZernikeDistortion).
Hypothesis set_current_quiet : ∀ item, quiet (set_current item).

Lemma open_load_step_with_effect (ui : UI) (p : string) :
  load_effect read_transform (λ _, False) ui p
    (open_load_step_with set_current read_transform ui p).
Proof.
  unfold open_load_step_with.
  destruct (bool_decide (p ∈ dom (file_data ui))) eqn:E.
  - apply bool_decide_eq_true in E. left. split; [by right|].
    destruct (findItems p (file_list ui)) as [|item ?];
      [apply only_plots_refl | apply set_current_quiet].
  - apply bool_decide_eq_false in E. apply try_load_effect; [tauto | done].
Qed.

Lemma open_load_with_run (paths : list string) :
  ∀ ui : UI,
  load_run read_transform (λ _, False) paths ui
    (foldl (open_load_step_with set_current read_transform) ui paths).
Proof.
  induction paths as [|p paths IH]; intros ui; [constructor|].
  cbn [foldl]. econstructor; [apply open_load_step_with_effect | apply IH].
Qed.

(** X23. What [open_files] loads does not depend on what
    [setCurrentItem] does to the selection. Let [setCurrentItem] be any
    operation that leaves the dictionary and the rows of the list alone
    and makes no call but plots. Then [open_files] ends with the
    dictionary and the rows it has when [setCurrentItem] only selects its
    item; the list still shows exactly the loaded files, each once; and
    every item that shows a path of the batch is selected. *)
Theorem open_files_any_setCurrentItem (paths : list string) (ui : UI) :
  well_formed ui →
  let ui1 := open_files_with set_current read_transform (Some paths) ui in
  let ui2 := open_files read_transform (Some paths) ui in
  file_data ui1 = file_data ui2 ∧
  rows (file_list ui1) = rows (file_list ui2) ∧
  well_formed ui1 ∧
  ∀ p it, p ∈ paths → it ∈ items (file_list ui1) → item_text it = p →
          item_selected it = true.
Proof.
  intros Hwf ui1 ui2.
  set (mid1 := foldl (open_load_step_with set_current read_transform) ui paths).
  pose proof (open_load_with_run paths ui) as Hrun1. fold mid1 in Hrun1.
  destruct (open_files_run read_transform paths ui)
    as (mid2 & Hrun2 & (Hd2 & Hr2 & _)).
  fold ui2 in Hd2, Hr2.
  assert (only_plots mid1 ui1) as Hquiet.
  { unfold ui1, open_files_with. fold mid1.
    eapply only_plots_trans; [|apply quiet_update_plot].
    apply (quiet_foldl open_select_step). apply quiet_open_select_step. }
  assert (well_formed mid1) as Hwf1.
  { eapply load_run_well_formed; [exact Hrun1 | exact Hwf]. }
  destruct (load_run_agree read_transform _ _ paths _ mid1 _ mid2 Hrun1 Hrun2)
    as (Hd & Hr & _); try done.
  { apply Forall_forall. by intros p _. }
  split; [|split; [|split]].
  - destruct Hquiet as (-> & _). by rewrite Hd2.
  - destruct Hquiet as (_ & -> & _). by rewrite Hr2.
  - by eapply only_plots_well_formed.
  - intros p it Hp. unfold ui1, open_files_with. fold mid1.
    match goal with |- context [update_plot ?u] =>
      destruct (update_plot_file_data u) as (_ & -> & _) end.
    destruct Hwf1 as [[Hnd _] [_ Hnt]].
    destruct (open_select_loop_selects paths mid1 Hnd Hnt) as [_ Hsel].
    intros Hin Ht. by apply (Hsel p it).
Qed.
End any_setCurrentItem.

(** ** The theorems at concrete inputs *)



Lemma plot_mode_selects_parameters_witness :
  let ui := user_pick_figure "Figure 2 : parameters (Y)"
              (dropEvent sample_read_transform ["a.json"; "b.json"] init_UI) in
  let sel := reverse (selectedItems (file_list ui)) in
  let ui' := update_plot_with sel ui in
  length ["a.json"; "b.json"] = length [sample_order1; sample_order0] ∧
  Forall (fits_layout "y" (max_Nzer sample_order1 [sample_order0]))
    [sample_order1; sample_order0] ∧
  (∃ cv' b,
     plot_bar_chart (PyCanvas new_canvas)
       (PyList (PyZernike <$> [sample_order1; sample_order0]))
       (PyList (PyStr <$> ["a.json"; "b.json"])) (PyStr "y") true = Return cv' ∧
     bars (axes cv') !! 0%nat = Some b ∧
     bar_height b = [0; 1; 5]%Q) ∧
  loaded_among (file_data ui) sel = [sample_order0; sample_order1] ∧
  plots_with_mode "y" (new_events ui ui') ∧
  ¬ plots_with_mode "x" (new_events ui ui') ∧
  (∃ b0 b1,
     bars (axes (canvas ui')) !! 0%nat = Some b0 ∧ bar_height b0 = [3; 0; 0]%Q ∧
     bars (axes (canvas ui')) !! 1%nat = Some b1 ∧ bar_height b1 = [0; 1; -5]%Q).
Proof.
  intros ui sel ui'.
  assert (length ["a.json"; "b.json"] = length [sample_order1; sample_order0])
    as H1 by reflexivity.
  assert (Forall (fits_layout "y" (max_Nzer sample_order1 [sample_order0]))
            [sample_order1; sample_order0]) as H2
    by apply fits_fits_layout, sample_pair_fits.
  destruct (plot_mode_selects_parameters new_canvas sample_order1
              [sample_order0] ["a.json"; "b.json"] "y" true sel ui
              H1 (or_intror eq_refl) H2)
    as ((cv' & Hret & _ & Hcoef) & _ & _ & _ & _ & _ & Hx & Hy & Hchart).
  fold ui' in Hx, Hy, Hchart.
  assert (loaded_among (file_data ui) sel = [sample_order0; sample_order1])
    as Hload by (vm_compute; reflexivity).
  assert (String.prefix "Figure 2" (figure_selector ui) = true) as Hfig
    by reflexivity.
  split; [exact H1|]. split; [exact H2|]. split.
  { destruct (Hcoef 0%nat sample_order1 eq_refl) as (b & p & Hb & _ & Hp & Hh).
    exists cv', b. split; [exact Hret|]. split; [exact Hb|].
    rewrite Hh, (Hp eq_refl).
    assert (length (xticklabels (axes cv')) = 3%nat) as ->; [|reflexivity].
    revert Hret. vm_compute. intros [= <-]. reflexivity. }
  split; [exact Hload|]. split.
  { apply Hy. split; [exact Hfig|]. rewrite Hload. discriminate. }
  split.
  { intros Hplots. apply Hx in Hplots as [Hprefix _]. vm_compute in Hprefix.
    discriminate. }
  destruct Hchart as [_ Hbars].
  { rewrite Hload. constructor; [apply sample_order0_fits|].
    constructor; [apply sample_order1_fits | constructor]. }
  { rewrite Hload. discriminate. }
  { right. exact Hfig. }
  rewrite Hload in Hbars.
  assert (length (xticklabels (axes (canvas ui'))) = 3%nat) as Hticks
    by (vm_compute; reflexivity).
  assert (abs_checkbox ui = false) as Habs by reflexivity.
  rewrite Hticks, Habs in Hbars.
  destruct (Hbars 0%nat sample_order0 eq_refl) as (b0 & p0 & Hb0 & _ & Hp0 & Hh0).
  destruct (Hbars 1%nat sample_order1 eq_refl) as (b1 & p1 & Hb1 & _ & Hp1 & Hh1).
  exists b0, b1.
  split; [exact Hb0|]. split; [rewrite Hh0, (Hp0 Hfig); reflexivity|].
  split; [exact Hb1|]. rewrite Hh1, (Hp1 Hfig). reflexivity.
Defined.

Lemma plot_absolute_heights_witness :
  let ui := user_toggle_abs
              (dropEvent sample_read_transform ["a.json"; "b.json"] init_UI) in
  let sel := reverse (selectedItems (file_list ui)) in
  let ui' := update_plot_with sel ui in
  length ["a.json"; "b.json"] = length [sample_order1; sample_order0] ∧
  Forall (fits_layout "y" (max_Nzer sample_order1 [sample_order0]))
    [sample_order1; sample_order0] ∧
  (∃ cv' b,
     plot_bar_chart (PyCanvas new_canvas)
       (PyList (PyZernike <$> [sample_order1; sample_order0]))
       (PyList (PyStr <$> ["a.json"; "b.json"])) (PyStr "y") true = Return cv' ∧
     bars (axes cv') !! 0%nat = Some b ∧ bar_height b !! 2%nat = Some 5%Q) ∧
  abs_checkbox ui = true ∧
  loaded_among (file_data ui) sel = [sample_order0; sample_order1] ∧
  (∃ b0 b1,
     bars (axes (canvas ui')) !! 0%nat = Some b0 ∧
     bar_height b0 !! 0%nat = Some (7 # 2)%Q ∧
     bars (axes (canvas ui')) !! 1%nat = Some b1 ∧
     bar_height b1 !! 1%nat = Some (1 # 3)%Q).
Proof.
  intros ui sel ui'.
  assert (length ["a.json"; "b.json"] = length [sample_order1; sample_order0])
    as H1 by reflexivity.
  assert (Forall (fits_layout "y" (max_Nzer sample_order1 [sample_order0]))
            [sample_order1; sample_order0]) as H2
    by apply fits_fits_layout, sample_pair_fits.
  destruct (plot_absolute_heights new_canvas sample_order1
              [sample_order0] ["a.json"; "b.json"] "y" true sel ui
              H1 (or_intror eq_refl) H2)
    as ((cv' & Hret & _ & Hheights) & _ & _ & _ & Hchart).
  fold ui' in Hchart.
  assert (loaded_among (file_data ui) sel = [sample_order0; sample_order1])
    as Hload by (vm_compute; reflexivity).
  assert (abs_checkbox ui = true) as Habs by reflexivity.
  assert (String.prefix "Figure 1" (figure_selector ui) = true) as Hfig
    by reflexivity.
  split; [exact H1|]. split; [exact H2|]. split.
  { destruct (Hheights 0%nat sample_order1 2%nat eq_refl) as (b & Hb & Hh).
    { assert (length (xticklabels (axes cv')) = 3%nat) as ->; [|lia].
      revert Hret. vm_compute. intros [= <-]. reflexivity. }
    exists cv', b. split; [exact Hret|]. split; [exact Hb | exact Hh]. }
  split; [exact Habs|]. split; [exact Hload|].
  destruct Hchart as (m & Hm & _ & Hbars).
  { rewrite Hload. constructor; [apply sample_order0_fits|].
    constructor; [apply sample_order1_fits | constructor]. }
  { rewrite Hload. discriminate. }
  { left. exact Hfig. }
  assert (m = "x") as ->.
  { destruct Hm as [[-> _]|[_ Hp]]; [reflexivity|].
    vm_compute in Hp. discriminate. }
  rewrite Hload, Habs in Hbars.
  assert (length (xticklabels (axes (canvas ui'))) = 3%nat) as Hticks
    by (vm_compute; reflexivity).
  rewrite Hticks in Hbars.
  destruct (Hbars 0%nat sample_order0 0%nat eq_refl) as (b0 & Hb0 & Hh0); [lia|].
  destruct (Hbars 1%nat sample_order1 1%nat eq_refl) as (b1 & Hb1 & Hh1); [lia|].
  exists b0, b1.
  split; [exact Hb0|]. split; [exact Hh0|]. split; [exact Hb1 | exact Hh1].
Defined.

Lemma reload_is_skipped_witness :
  let once := dropEvent sample_read_transform ["a.json"] init_UI in
  let twice := dropEvent sample_read_transform ["a.json"] once in
  "a.json" ∈ dom (file_data once) ∧
  file_data twice = file_data once ∧
  texts twice = texts once.
Proof.
  intros once twice.
  assert ("a.json" ∈ dom (file_data once)) as H.
  { apply elem_of_dom. exists sample_order1. vm_compute. reflexivity. }
  destruct (reload_is_skipped sample_read_transform ["a.json"] "a.json" once H)
    as [(_ & _ & _ & Hall) _].
  destruct Hall as (Hd & _ & Ht & _).
  { constructor; [exact H | constructor]. }
  split; [exact H|]. split; [exact Hd | exact Ht].
Defined.


Lemma plot_bar_chart_geometry_witness :
  length ["a.json"; "b.json"] = length [sample_order1; sample_order0] ∧
  Forall (fits_layout "x" (max_Nzer sample_order1 [sample_order0]))
    [sample_order1; sample_order0] ∧
  ∃ cv' b0 b1 c0 c1,
    plot_bar_chart (PyCanvas new_canvas)
      (PyList (PyZernike <$> [sample_order1; sample_order0]))
      (PyList (PyStr <$> ["a.json"; "b.json"])) (PyStr "x") false = Return cv' ∧
    length (bars (axes cv')) = 2%nat ∧
    length (xticks (axes cv')) = 3%nat ∧
    bars (axes cv') !! 0%nat = Some b0 ∧ bar_x b0 !! 1%nat = Some c0 ∧
    bars (axes cv') !! 1%nat = Some b1 ∧ bar_x b1 !! 1%nat = Some c1 ∧
    (bar_width b0 == 0.4 ∧ c0 == 0.8 ∧ c1 == 1.2 ∧
     bar_left c0 (bar_width b0) == 0.6 ∧
     bar_right c0 (bar_width b0) == bar_left c1 (bar_width b1) ∧
     bar_right c1 (bar_width b1) == 1.4)%Q.
Proof.
  assert (length ["a.json"; "b.json"] = length [sample_order1; sample_order0])
    as H1 by reflexivity.
  assert (Forall (fits_layout "x" (max_Nzer sample_order1 [sample_order0]))
            [sample_order1; sample_order0]) as H2
    by apply fits_fits_layout, sample_pair_fits.
  destruct (plot_bar_chart_geometry new_canvas sample_order1
              [sample_order0] ["a.json"; "b.json"] "x" false
              H1 (or_introl eq_refl) H2)
    as (cv' & Hret & Hlen & Hticks & _ & _ & Hfull & Hgeo).
  split; [exact H1|]. split; [exact H2|].
  destruct (Hfull 0%nat 1%nat) as (b0 & c0 & Hb0 & Hc0);
    [vm_compute; lia | vm_compute; lia |].
  destruct (Hfull 1%nat 1%nat) as (b1 & c1 & Hb1 & Hc1);
    [vm_compute; lia | vm_compute; lia |].
  destruct (Hgeo 0%nat b0 1%nat c0 Hb0 Hc0)
    as (_ & Hw & Hcentre & _ & _ & Hfirst & _ & Hnext).
  destruct (Hgeo 1%nat b1 1%nat c1 Hb1 Hc1)
    as (_ & _ & Hcentre1 & _ & _ & _ & Hlast & _).
  destruct (Hnext 1%nat b1 c1 Hb1 Hc1) as [_ Habut]; [lia|].
  exists cv', b0, b1, c0, c1.
  split; [exact Hret|]. split; [exact Hlen|]. split; [exact Hticks|].
  split; [exact Hb0|]. split; [exact Hc0|].
  split; [exact Hb1|]. split; [exact Hc1|].
  split; [rewrite Hw; reflexivity|].
  split; [rewrite Hcentre; reflexivity|].
  split; [rewrite Hcentre1; reflexivity|].
  split; [rewrite (Hfirst eq_refl); reflexivity|].
  split; [exact (Habut eq_refl)|].
  rewrite (Hlast eq_refl). reflexivity.
Defined.

Lemma file_list_mirrors_file_data_witness :
  let ui := dropEvent sample_read_transform
              ["a.json"; "c.json"; "b.json"; "a.json"] init_UI in
  reachable ui ∧
  dom (file_data ui) = list_to_set (texts ui) ∧
  NoDup (texts (remove_selected_files ui)).
Proof.
  intros ui.
  assert (reachable ui) as H by (apply reach_drop, reach_init).
  destruct (file_list_mirrors_file_data ui H) as ([Hdom _] & _ & _ & [_ Hnd]).
  split; [exact H|]. split; [exact Hdom | exact Hnd].
Defined.

(** ** The further properties at concrete inputs *)

Lemma basename_join_witness :
  ("/"%char ∉ String.list_ascii_of_string "lens.json") ∧
  basename ("/data/run 1" +:+ "/" +:+ "lens.json") = "lens.json".
Proof.
  assert ("/"%char ∉ String.list_ascii_of_string "lens.json") as H.
  { cbn. intros Hin. repeat (apply elem_of_cons in Hin as [Hin|Hin]; [discriminate|]).
    by apply elem_of_nil in Hin. }
  split; [exact H|]. exact (basename_join "/data/run 1" "lens.json" H).
Defined.

Lemma truncate_filename_length_witness :
  5 ≤ 30 ∧
  Z.of_nat (String.length
    (truncate_filename "/data/abcdefghijklmnopqrstuvwxyz0123456789.json" 30))
  ≤ 30.
Proof.
  assert (5 ≤ 30) as H by lia.
  split; [exact H|].
  exact (truncate_filename_length
           "/data/abcdefghijklmnopqrstuvwxyz0123456789.json" 30 H).
Defined.

Lemma truncate_filename_keeps_extension_witness :
  5 ≤ 30 ∧
  basename "/data/abcdefghijklmnopqrstuvwxyz0123456789.json" =
    "abcdefghijklmnopqrstuvwxyz0123456789" +:+ ".json" ∧
  Z.of_nat (String.length ".json") ≤ (30 - 3) `div` 2 ∧
  ∃ head,
    truncate_filename "/data/abcdefghijklmnopqrstuvwxyz0123456789.json" 30 =
    head +:+ ".json".
Proof.
  assert (5 ≤ 30) as H1 by lia.
  assert (basename "/data/abcdefghijklmnopqrstuvwxyz0123456789.json" =
          "abcdefghijklmnopqrstuvwxyz0123456789" +:+ ".json") as H2
    by reflexivity.
  assert (Z.of_nat (String.length ".json") ≤ (30 - 3) `div` 2) as H3
    by (vm_compute; discriminate).
  split; [exact H1|]. split; [exact H2|]. split; [exact H3|].
  exact (truncate_filename_keeps_extension _ _ _ 30 H1 H2 H3).
Defined.

Lemma truncate_filename_tiny_max_len_witness :
  3 ≤ 4 ≤ 4 ∧
  4 < Z.of_nat (String.length (basename "/data/lens.json")) ∧
  truncate_filename "/data/lens.json" 4 = "...lens.json".
Proof.
  assert (3 ≤ 4 ≤ 4) as H1 by lia.
  assert (4 < Z.of_nat (String.length (basename "/data/lens.json"))) as H2
    by (vm_compute; reflexivity).
  split; [exact H1|]. split; [exact H2|].
  exact (truncate_filename_tiny_max_len "/data/lens.json" 4 H1 H2).
Defined.

Lemma plot_bar_chart_replaces_axes_witness :
  length ["a.json"; "b.json"] = length [sample_order1; sample_order0] ∧
  Forall fits [sample_order1; sample_order0] ∧
  ∃ cv1' cv2',
    plot_bar_chart (PyCanvas new_canvas)
      (PyList (PyZernike <$> [sample_order1; sample_order0]))
      (PyList (PyStr <$> ["a.json"; "b.json"])) (PyStr "x") false = Return cv1' ∧
    plot_bar_chart
      (PyCanvas (rendered new_canvas sample_order0 [] ["b.json"] "y" true))
      (PyList (PyZernike <$> [sample_order1; sample_order0]))
      (PyList (PyStr <$> ["a.json"; "b.json"])) (PyStr "x") false = Return cv2' ∧
    axes cv1' = axes cv2'.
Proof.
  assert (length ["a.json"; "b.json"] = length [sample_order1; sample_order0])
    as H1 by reflexivity.
  pose proof sample_pair_fits as H2.
  destruct (plot_bar_chart_replaces_axes new_canvas
              (rendered new_canvas sample_order0 [] ["b.json"] "y" true)
              sample_order1 [sample_order0] ["a.json"; "b.json"] "x" false
              H1 (or_introl eq_refl) H2)
    as (cv1' & cv2' & Hr1 & Hr2 & Hax & _).
  split; [exact H1|]. split; [exact H2|].
  exists cv1', cv2'. split; [exact Hr1|]. split; [exact Hr2 | exact Hax].
Defined.

Lemma plot_bar_chart_labels_colours_witness :
  length ["a.json"; "b.json"] = length [sample_order1; sample_order0] ∧
  Forall fits [sample_order1; sample_order0] ∧
  ∃ cv',
    plot_bar_chart (PyCanvas new_canvas)
      (PyList (PyZernike <$> [sample_order1; sample_order0]))
      (PyList (PyStr <$> ["a.json"; "b.json"])) (PyStr "x") false = Return cv' ∧
    bar_label <$> bars (axes cv') = ["a.json"; "b.json"].
Proof.
  assert (length ["a.json"; "b.json"] = length [sample_order1; sample_order0])
    as H1 by reflexivity.
  pose proof sample_pair_fits as H2.
  destruct (plot_bar_chart_labels_colours new_canvas
              sample_order1 [sample_order0] ["a.json"; "b.json"] "x" false
              H1 (or_introl eq_refl) H2)
    as (cv' & Hr & Hl & _).
  split; [exact H1|]. split; [exact H2|].
  exists cv'. split; [exact Hr | exact Hl].
Defined.

Lemma plot_bar_chart_oversized_witness :
  py_max (Nzer <$> [sample_order0] ++ sample_oversized :: []) = inr 0 ∧
  plot_bar_chart (PyCanvas new_canvas)
    (PyList (PyZernike <$> [sample_order0] ++ sample_oversized :: []))
    (PyList (PyStr <$> ["b.json"; "c.json"])) (PyStr "x") false =
  Raise (ValueError "negative dimensions are not allowed")
    (PyCanvas
       (add_bars {| axes := empty_axes; draws := 0 |}
          [chart_bar 2 1 "x" false 0 sample_order0 "b.json"])).
Proof.
  assert (py_max (Nzer <$> [sample_order0] ++ sample_oversized :: []) = inr 0)
    as H by reflexivity.
  split; [exact H|].
  apply (plot_bar_chart_oversized new_canvas [sample_order0] sample_oversized
           [] ["b.json"; "c.json"] "x" false 0 eq_refl (or_introl eq_refl) H).
  - constructor; [vm_compute; lia | constructor].
  - vm_compute. lia.
Defined.

Lemma update_plot_nothing_to_plot_witness :
  loaded_selection init_UI = [] ∧
  canvas (update_plot init_UI) =
    {| axes := empty_axes; draws := S (draws (canvas init_UI)) |} ∧
  log (update_plot init_UI) = log init_UI.
Proof.
  assert (loaded_selection init_UI = []) as H by reflexivity.
  split; [exact H|]. exact (update_plot_nothing_to_plot init_UI H).
Defined.

Lemma update_plot_draws_chart_witness :
  let ui := dropEvent sample_read_transform ["a.json"; "c.json"; "b.json"]
              init_UI in
  let sel := reverse (selectedItems (file_list ui)) in
  map_Forall (λ _ d, fits d) (file_data ui) ∧
  Forall (λ item, ascii_only (item_text item)) sel ∧
  loaded_among (file_data ui) sel ≠ [] ∧
  new_events ui (update_plot_with sel ui) =
    [PlotBarChart [sample_order0; sample_order1] ["b.json"; "a.json"] "x" false].
Proof.
  intros ui sel.
  assert (file_data ui =
          <["b.json" := sample_order0]> {[ "a.json" := sample_order1 ]}) as Hfd
    by (vm_compute; reflexivity).
  assert (map_Forall (λ _ d, fits d) (file_data ui)) as H1.
  { rewrite Hfd. apply map_Forall_insert_2; [exact sample_order0_fits|].
    apply map_Forall_singleton. exact sample_order1_fits. }
  assert (Forall (λ item, ascii_only (item_text item)) sel) as H2.
  { unfold ascii_only. vm_compute. repeat constructor. }
  assert (loaded_among (file_data ui) sel ≠ []) as H3
    by (vm_compute; discriminate).
  assert ((("x" : string) = "x" ∧
           String.prefix "Figure 1" (figure_selector ui) = true) ∨
          (("x" : string) = "y" ∧
           String.prefix "Figure 2" (figure_selector ui) = true)) as H4
    by (left; split; reflexivity).
  split; [exact H1|]. split; [exact H2|]. split; [exact H3|].
  destruct (update_plot_draws_chart sel ui "x" H1 H2 H3 H4) as (_ & _ & Hev & _).
  rewrite Hev. vm_compute. reflexivity.
Defined.

Lemma selected_items_are_loaded_witness :
  let ui := dropEvent sample_read_transform ["a.json"; "c.json"] init_UI in
  reachable ui ∧
  length (loaded_selection ui) = length (selectedItems (file_list ui)).
Proof.
  intros ui.
  assert (reachable ui) as H by (apply reach_drop, reach_init).
  split; [exact H|]. exact (proj2 (selected_items_are_loaded ui H)).
Defined.

Lemma remove_selected_files_effect_witness :
  let ui := dropEvent sample_read_transform ["a.json"; "b.json"] init_UI in
  well_formed ui ∧
  texts (remove_selected_files ui) =
    filter (λ t, t ∉ item_text <$> selectedItems (file_list ui)) (texts ui).
Proof.
  intros ui.
  assert (well_formed ui) as H
    by (apply dropEvent_well_formed, init_UI_well_formed).
  split; [exact H|]. exact (proj1 (remove_selected_files_effect ui H)).
Defined.

Lemma dropEvent_status_counts_loaded_witness :
  let urls := ["a.json"; "c.json"; "b.json"] in
  let ui' := dropEvent sample_read_transform urls init_UI in
  urls ≠ [] ∧
  ∃ n : nat,
    statusbar ui' = pretty n +:+ " file(s) loaded" ∧
    length (texts ui') = (length (texts init_UI) + n)%nat ∧
    size (file_data ui') = (size (file_data init_UI) + n)%nat.
Proof.
  intros urls ui'.
  assert (urls ≠ []) as H by discriminate.
  split; [exact H|].
  exact (dropEvent_status_counts_loaded sample_read_transform urls init_UI H).
Defined.

Lemma drop_and_open_agree_witness :
  let urls := ["a.json"; "c.json"; "b.json"] in
  ("" ∉ urls) ∧
  file_data (dropEvent sample_read_transform urls init_UI) =
    file_data (open_files sample_read_transform (Some urls) init_UI).
Proof.
  intros urls.
  assert ("" ∉ urls) as H.
  { intros Hin.
    repeat (apply elem_of_cons in Hin as [Hin|Hin]; [discriminate|]).
    by apply elem_of_nil in Hin. }
  split; [exact H|].
  exact (proj1 (drop_and_open_agree sample_read_transform urls init_UI H)).
Defined.

Lemma batch_items_are_selected_witness :
  let urls := ["a.json"; "c.json"; "b.json"] in
  well_formed init_UI ∧
  ∀ p it, p ∈ urls → p ≠ "" →
    it ∈ items (file_list (dropEvent sample_read_transform urls init_UI)) →
    item_text it = p → item_selected it = true.
Proof.
  intros urls.
  assert (well_formed init_UI) as H by exact init_UI_well_formed.
  split; [exact H|].
  exact (proj1 (batch_items_are_selected sample_read_transform urls init_UI H)).
Defined.

Lemma dropEvent_selects_only_batch_witness :
  let ui := dropEvent sample_read_transform ["a.json"] init_UI in
  let urls := ["b.json"; "c.json"] in
  well_formed ui ∧
  ∀ it, it ∈ selectedItems (file_list (dropEvent sample_read_transform urls ui)) →
        item_text it ∈ item_text <$> selectedItems (file_list ui) ∨
        (item_text it ∈ urls ∧ item_text it ≠ "").
Proof.
  intros ui urls.
  assert (well_formed ui) as H
    by (apply dropEvent_well_formed, init_UI_well_formed).
  split; [exact H|].
  exact (dropEvent_selects_only_batch sample_read_transform urls ui H).
Defined.

Lemma drop_then_remove_witness :
  let urls := ["a.json"; "c.json"; "b.json"] in
  let ui' := remove_selected_files
               (dropEvent sample_read_transform urls init_UI) in
  well_formed init_UI ∧
  selectedItems (file_list init_UI) = [] ∧
  Forall (λ p, p ∉ dom (file_data init_UI)) urls ∧
  file_data ui' = file_data init_UI ∧ texts ui' = texts init_UI.
Proof.
  intros urls ui'.
  assert (well_formed init_UI) as H1 by exact init_UI_well_formed.
  assert (selectedItems (file_list init_UI) = []) as H2 by reflexivity.
  assert (Forall (λ p, p ∉ dom (file_data init_UI)) urls) as H3.
  { apply Forall_forall. intros p _. cbn. rewrite dom_empty_L.
    apply not_elem_of_empty. }
  split; [exact H1|]. split; [exact H2|]. split; [exact H3|].
  exact (drop_then_remove sample_read_transform urls init_UI H1 H2 H3).
Defined.

Lemma drag_enter_is_undone_witness :
  let urls := ["a.json"; "c.json"] in
  urls ≠ [] ∧
  dropEvent sample_read_transform urls (dragEnterEvent urls init_UI) =
    dropEvent sample_read_transform urls init_UI ∧
  dragLeaveEvent (dragEnterEvent urls init_UI) = dragLeaveEvent init_UI.
Proof.
  intros urls.
  assert (urls ≠ []) as H by discriminate.
  split; [exact H|].
  exact (drag_enter_is_undone sample_read_transform urls urls init_UI H).
Defined.

Lemma remove_order_irrelevant_witness :
  let ui := dropEvent sample_read_transform ["a.json"; "c.json"; "b.json"]
              init_UI in
  let sel := reverse (selectedItems (file_list ui)) in
  well_formed ui ∧
  sel ≡ₚ selectedItems (file_list ui) ∧
  file_data (foldl remove_step ui sel) =
    file_data (foldl remove_step ui (selectedItems (file_list ui))) ∧
  texts (foldl remove_step ui sel) = [].
Proof.
  intros ui sel.
  assert (well_formed ui) as H1
    by (apply dropEvent_well_formed, init_UI_well_formed).
  assert (sel ≡ₚ selectedItems (file_list ui)) as H2
    by apply reverse_Permutation.
  destruct (remove_order_irrelevant sel ui H1 H2) as (Ht & _ & Hd & _).
  split; [exact H1|]. split; [exact H2|]. split; [exact Hd|].
  rewrite Ht. vm_compute. reflexivity.
Defined.

Lemma open_files_any_setCurrentItem_witness :
  let only_this (item : QListWidgetItem) :=
    user_select (λ id, bool_decide (id = item_id item)) in
  let ui := dropEvent sample_read_transform ["a.json"; "b.json"] init_UI in
  let ui1 := open_files_with only_this sample_read_transform
               (Some ["a.json"; "c.json"]) ui in
  (∀ item, quiet (only_this item)) ∧
  well_formed ui ∧
  file_data ui1 =
    file_data (open_files sample_read_transform (Some ["a.json"; "c.json"]) ui) ∧
  selectedItems (file_list ui1) =
    [{| item_id := 0; item_text := "a.json"; item_selected := true |}].
Proof.
  intros only_this ui ui1.
  assert (∀ item, quiet (only_this item)) as H1
    by (intros item; apply quiet_user_select).
  assert (well_formed ui) as H2
    by (apply dropEvent_well_formed, init_UI_well_formed).
  destruct (open_files_any_setCurrentItem only_this sample_read_transform H1
              ["a.json"; "c.json"] ui H2) as (Hd & _ & _ & _).
  split; [exact H1|]. split; [exact H2|]. split; [exact Hd|].
  vm_compute. reflexivity.
Defined.
